(** * Best-fit selection and test-point classification of [database.py]

    A shallow embedding of [DataProcessor.process_test_data]
    (src/database.py, lines 139-189) together with the pandas, numpy and
    scikit-learn operations it calls, and the properties of the selection
    loop (lines 159-170) and of the classification loop (lines 172-185).

    Python's [float] and numpy's [float64] are IEEE 754 binary64 numbers;
    they are modelled by Rocq's primitive floats, which are the same type
    with the same operations ([abs], [sqrt], [-], [*], [/], [<], [<=]).

    A [DataFrame] is its named columns, a Series the values of one column;
    the test rows are the pairs [(row['x'], row['y'])] and the SQLite
    database is a record of its three tables.  The library operations are
    modelled as pandas and scikit-learn define them: [.loc] looks a row up
    by its index label, arithmetic on two Series aligns them on their
    index labels, [max] skips NaN, and [mean_squared_error] validates its
    inputs and pairs them by position.

    The loading code ([load_csv_to_df], [load_data]), the subsets that
    [DataVisualizer.visualize_data] draws and the assertion of the unit
    test of the run are embedded beside it; [pd.read_csv] is a function
    from file names to frames.

    The file has the embedding first, then the laws of the float
    comparisons and of the rounding of float products, then the
    properties of the selection, of the classification and of the run,
    and the further properties of the run, the loading and the
    visualizer. *)

From Stdlib Require Import ZArith List String Bool Lia PeanoNat.
From Stdlib Require Import DecimalString.
From Stdlib Require Uint63.
From Stdlib Require Import Floats.
Import ListNotations.

Local Open Scope float_scope.

(** ** Exceptions

    The exceptions the modelled code can raise, and the monad that threads
    them: [inl e] is a raised exception, [inr a] a returned value. *)

Inductive exception : Set :=
| KeyError      (* a missing column or index label *)
| ValueError    (* scikit-learn's input validation; truth value of a Series *)
| OperationalError.  (* SQLAlchemy: a statement that SQLite refuses *)

Definition result (A : Type) : Type := (exception + A)%type.

Definition ret {A} (a : A) : result A := inr a.
Definition raise {A} (e : exception) : result A := inl e.
Definition bind {A B} (m : result A) (k : A -> result B) : result B :=
  match m with
  | inl e => inl e
  | inr a => k a
  end.

Notation "x <- m ;; k" := (bind m (fun x => k))
  (at level 61, m at next level, right associativity).

(** A [for] loop that builds a list with [append]: the first exception
    ends it. *)
Fixpoint for_each {A B} (f : A -> result B) (l : list A) : result (list B) :=
  match l with
  | [] => ret []
  | a :: l' => b <- f a ;; bs <- for_each f l' ;; ret (b :: bs)
  end.

(** ** Data frames *)

(** The values of a column, in row order. *)
Definition Series := list float.

(** A [DataFrame] with the default [RangeIndex]: named columns, in column
    order.  The frames of the source are read from SQLite tables, whose
    column names are distinct. *)
Definition Table := list (string * Series).

(** [df.columns] *)
Definition columns_of (df : Table) : list string := map fst df.

(** [df[col]]: [KeyError] when there is no such column. *)
Fixpoint getitem (df : Table) (col : string) : result Series :=
  match df with
  | [] => raise KeyError
  | (c, values) :: df' =>
      if String.eqb c col then ret values else getitem df' col
  end.

(** A [DataFrame] whose index is a float column: [ideal_functions_df]
    after [set_index('x', inplace=True)]. *)
Record Frame := mkFrame { index : list float; columns : Table }.

Fixpoint drop (col : string) (df : Table) : Table :=
  match df with
  | [] => []
  | (c, values) :: df' =>
      if String.eqb c col then drop col df' else (c, values) :: drop col df'
  end.

(** [df.set_index(col)]: the column becomes the index and leaves the
    columns. *)
Definition set_index (col : string) (df : Table) : result Frame :=
  labels <- getitem df col ;;
  ret (mkFrame labels (drop col df)).

(** Equality of index labels: pandas looks floats up by value, and a NaN
    label matches a NaN label. *)
Definition label_eqb (a b : float) : bool :=
  (a =? b) || (is_nan a && is_nan b).

(** The value of [.loc[label, col]]: a scalar when the label occurs once in
    the index, a Series of the matching rows when it occurs several
    times. *)
Inductive loc_value : Type :=
| Scalar (v : float)
| Rows (vs : list float).

(** The rows of a labelled column whose label is [label]. *)
Definition rows_at (label : float) (labelled : list (float * float))
  : list float :=
  map snd (filter (fun p => label_eqb (fst p) label) labelled).

(** [frame.loc[label, col]]: [KeyError] when [col] is [None] or not a
    column, or when no row carries the label. *)
Definition loc (frame : Frame) (label : float) (col : option string)
  : result loc_value :=
  match col with
  | None => raise KeyError
  | Some c =>
      values <- getitem (columns frame) c ;;
      match rows_at label (combine (index frame) values) with
      | [] => raise KeyError
      | [v] => ret (Scalar v)
      | vs => ret (Rows vs)
      end
  end.

(** [frame[col]] for the [best_func] of the selection loop, which is
    [None] when no candidate was chosen. *)
Definition frame_getitem (frame : Frame) (col : option string)
  : result Series :=
  match col with
  | None => raise KeyError
  | Some c => getitem (columns frame) c
  end.

(** ** numpy, pandas and scikit-learn operations *)

Definition of_nat (n : nat) : float :=
  of_uint63 (Uint63.of_Z (Z.of_nat n)).

(** [f'y{i}'] *)
Definition fstring_y (i : nat) : string :=
  String.append "y" (NilEmpty.string_of_uint (Nat.to_uint i)).

(** [sklearn.metrics.mean_squared_error(y_true, y_pred)]: the inputs are
    validated first ([ValueError] for different lengths, for no sample and
    for a NaN or an infinity), then the squared differences are averaged.
    The pairing is by position: the inputs are converted to arrays.
    (numpy may add the squares in another order than left to right; no
    property below depends on the order.) *)
Definition mean_squared_error (y_true y_pred : Series) : result float :=
  if negb (List.length y_true =? List.length y_pred)%nat then raise ValueError
  else if (List.length y_true =? 0)%nat then raise ValueError
  else if negb (forallb is_finite y_true && forallb is_finite y_pred)
  then raise ValueError
  else
    let squares :=
      map (fun p => (fst p - snd p) * (fst p - snd p))
          (combine y_true y_pred) in
    ret (fold_left add squares 0 / of_nat (List.length y_true)).

(** A Series with its index labels. *)
Definition Labelled := list (float * float).

(** The labels of a [RangeIndex]: 0, 1, 2, ... *)
Definition range_index (values : Series) : Labelled :=
  combine (map of_nat (seq 0 (List.length values))) values.

(** [left - right] on two pandas Series: the operands are aligned on their
    index labels (outer join).  A label of both gives the difference of
    its two values, a label of one side only gives NaN.  The result is
    given as its values; their order plays no role in [series_max]. *)
Definition series_sub (left right : Labelled) : Series :=
  flat_map (fun l =>
              match rows_at (fst l) right with
              | [] => [nan]
              | vs => map (fun v => snd l - v) vs
              end) left
  ++ flat_map (fun r =>
                 match rows_at (fst r) left with
                 | [] => [nan]
                 | _ => []
                 end) right.

(** [abs(series)] *)
Definition series_abs (s : Series) : Series := map abs s.

(** [series.max()]: NaN values are skipped; NaN when nothing is left. *)
Definition series_max (s : Series) : float :=
  fold_left (fun m v =>
               if is_nan v then m
               else if is_nan m then v
               else if m <? v then v else m) s nan.

(** [np.sqrt(2)] *)
Definition np_sqrt_2 : float := sqrt 2.

(** ** [DataProcessor.process_test_data] *)

(** The rows of [test_data] as [iterrows] yields them: [(row['x'], row['y'])]. *)
Definition TestData := list (float * float).

(** One dictionary appended to [results] (line 185). *)
Record ResultRow := mkResult {
  x : float;
  y : float;
  delta_y : float;
  ideal_func_no : option nat
}.

(** The SQLite database: the two tables [load_data] wrote, and the table
    [test_data] that [process_test_data] writes: the records it holds, or
    [None] when the database has no such table. *)
Record Database := mkDatabase {
  training_data : Table;
  ideal_functions : Table;
  test_data : option (list ResultRow)
}.

(** Lines 165-169: the loop over [ideal_functions_df.columns] for one
    training column, from the current [min_mse] and [best_func]. *)
Fixpoint best_func_loop (training_data : Table) (ideal_functions_df : Frame)
    (training_col : string) (cols : list string)
    (min_mse : float) (best_func : option string)
  : result (float * option string) :=
  match cols with
  | [] => ret (min_mse, best_func)
  | col :: cols' =>
      y_true <- getitem training_data training_col ;;
      y_pred <- getitem (columns ideal_functions_df) col ;;
      mse <- mean_squared_error y_true y_pred ;;
      if mse <? min_mse
      then best_func_loop training_data ideal_functions_df training_col
             cols' mse (Some col)
      else best_func_loop training_data ideal_functions_df training_col
             cols' min_mse best_func
  end.

(** Lines 162-170: the body of [for i in range(1, 5)]; the final
    [min_mse] is kept beside [best_func] for the statements below. *)
Definition best_fit (training_data : Table) (ideal_functions_df : Frame)
    (i : nat) : result (float * option string) :=
  best_func_loop training_data ideal_functions_df (fstring_y i)
    (columns_of (columns ideal_functions_df)) infinity None.

(** Lines 160-170: [best_ideal_funcs]. *)
Definition best_ideal_funcs (training_data : Table)
    (ideal_functions_df : Frame) : result (list (option string)) :=
  for_each (fun i =>
              r <- best_fit training_data ideal_functions_df i ;;
              ret (snd r))
           (seq 1 4).

(** Line 180: [abs(y_val - ideal_functions_df.loc[x_val, ideal_func])],
    element by element when [.loc] gives a Series. *)
Definition deviation_of (ideal_functions_df : Frame) (x_val y_val : float)
    (ideal_func : option string) : result loc_value :=
  v <- loc ideal_functions_df x_val ideal_func ;;
  ret match v with
      | Scalar c => Scalar (abs (y_val - c))
      | Rows cs => Rows (map (fun c => abs (y_val - c)) cs)
      end.

(** Line 181: [abs(training_data[f'y{idx+1}'] - ideal_functions_df[ideal_func]).max()],
    the subtraction of two pandas Series, one indexed by row number and
    one indexed by [x]. *)
Definition max_abs_deviation (training_data : Table)
    (ideal_functions_df : Frame) (idx : nat) (ideal_func : option string)
  : result float :=
  signal <- getitem training_data (fstring_y (idx + 1)) ;;
  candidate <- frame_getitem ideal_functions_df ideal_func ;;
  ret (series_max
         (series_abs
            (series_sub (range_index signal)
                        (combine (index ideal_functions_df) candidate)))).

(** Line 181: [max_allowed_deviation]. *)
Definition max_allowed_deviation (training_data : Table)
    (ideal_functions_df : Frame) (idx : nat) (ideal_func : option string)
  : result float :=
  m <- max_abs_deviation training_data ideal_functions_df idx ideal_func ;;
  ret (np_sqrt_2 * m).

(** Lines 179-184: the loop over [enumerate(best_ideal_funcs)] for one test
    row, from position [idx] with the current [best_fit] and
    [min_deviation].  The condition of line 182 has no truth value when
    [deviation] is a Series: Python raises [ValueError]. *)
Fixpoint fit_loop (training_data : Table) (ideal_functions_df : Frame)
    (x_val y_val : float) (idx : nat) (funcs : list (option string))
    (best_fit : option nat) (min_deviation : float)
  : result (option nat * float) :=
  match funcs with
  | [] => ret (best_fit, min_deviation)
  | ideal_func :: funcs' =>
      deviation <- deviation_of ideal_functions_df x_val y_val ideal_func ;;
      max_allowed <- max_allowed_deviation training_data ideal_functions_df
                       idx ideal_func ;;
      match deviation with
      | Rows _ => raise ValueError
      | Scalar deviation =>
          if (deviation <=? max_allowed) && (deviation <? min_deviation)
          then fit_loop training_data ideal_functions_df x_val y_val
                 (S idx) funcs' (Some (idx + 1)%nat) deviation
          else fit_loop training_data ideal_functions_df x_val y_val
                 (S idx) funcs' best_fit min_deviation
      end
  end.

(** Lines 175-185: the body of the loop over the test rows. *)
Definition classify_row (training_data : Table) (ideal_functions_df : Frame)
    (funcs : list (option string)) (row : float * float)
  : result ResultRow :=
  let x_val := fst row in
  let y_val := snd row in
  r <- fit_loop training_data ideal_functions_df x_val y_val 0 funcs
         None infinity ;;
  ret (mkResult x_val y_val (snd r) (fst r)).

(** Lines 148-187: from the test rows and the two tables to [results]. *)
Definition compute_results (tests : TestData) (db : Database)
  : result (list ResultRow) :=
  ideal_functions_df <- set_index "x" (ideal_functions db) ;;
  funcs <- best_ideal_funcs (training_data db) ideal_functions_df ;;
  for_each (classify_row (training_data db) ideal_functions_df funcs) tests.

(** Lines 187-188, [pd.DataFrame(results).to_sql('test_data', ...,
    if_exists='replace', index=False)]: the table is dropped and created
    anew from the columns of the frame, then the records are inserted.
    The frame of an empty list of records has no column: the table is
    dropped, SQLite refuses the [CREATE TABLE] without columns and
    SQLAlchemy raises [OperationalError]. *)
Definition to_sql (results : list ResultRow) (db : Database)
  : result unit * Database :=
  match results with
  | [] =>
      (raise OperationalError,
       mkDatabase (training_data db) (ideal_functions db) None)
  | _ :: _ =>
      (ret tt,
       mkDatabase (training_data db) (ideal_functions db) (Some results))
  end.

(** [process_test_data]: the results are written to the table [test_data]
    and returned.  An exception of lines 148-185 leaves the database as it
    was; the exception of line 188 leaves it without the table
    [test_data]. *)
Definition process_test_data (tests : TestData) (db : Database)
  : result (list ResultRow) * Database :=
  match compute_results tests db with
  | inl e => (inl e, db)
  | inr results =>
      match to_sql results db with
      | (inl e, db') => (inl e, db')
      | (inr _, db') => (inr results, db')
      end
  end.

(** ** Example tables *)

Module Examples.

(** The scenario of the specification: grid 0..3, one signal (repeated for
    the four training columns) and two candidates. *)
Definition grid : Series := [0; 1; 2; 3].

Definition training (signal : Series) : Table :=
  [("x", grid); ("y1", signal); ("y2", signal); ("y3", signal);
   ("y4", signal)]%string.

(** A training table whose first signal differs from the three others. *)
Definition training_with (first others : Series) : Table :=
  [("x", grid); ("y1", first); ("y2", others); ("y3", others);
   ("y4", others)]%string.

Definition candidates : Table :=
  [("y1", [0; 1; 2; 3]); ("y2", [0; 2; 4; 6])]%string.

Definition ideal : Table := ("x"%string, grid) :: candidates.

(** [ideal] after [set_index('x')]. *)
Definition frame : Frame := mkFrame grid candidates.

(** The selection for any of the signals used below. *)
Definition funcs : list (option string) :=
  [Some "y1"; Some "y1"; Some "y1"; Some "y1"]%string.

Definition db (signal : Series) : Database :=
  mkDatabase (training signal) ideal None.

(** Tables on the grid 1, 2: the row numbers 0, 1 of the training table
    are not its grid values.  The signal [5; 7] is the candidate [y1]. *)
Module Shifted.

Definition grid : Series := [1; 2].

Definition training : Table :=
  [("x", grid); ("y1", [5; 7]); ("y2", [5; 7]); ("y3", [5; 7]);
   ("y4", [5; 7])]%string.

Definition candidates : Table := [("y1", [5; 7])]%string.

Definition ideal : Table := ("x"%string, grid) :: candidates.

Definition frame : Frame := mkFrame grid candidates.

Definition db : Database := mkDatabase training ideal None.

End Shifted.

(** Tables on the grid 10, 20: no row number is a grid value.  The signal
    [5; 8] is one unit from the candidate [y1] at the second position. *)
Module Disjoint.

Definition grid : Series := [10; 20].

Definition training : Table :=
  [("x", grid); ("y1", [5; 8]); ("y2", [5; 8]); ("y3", [5; 8]);
   ("y4", [5; 8])]%string.

Definition candidates : Table := [("y1", [5; 7])]%string.

Definition ideal : Table := ("x"%string, grid) :: candidates.

Definition frame : Frame := mkFrame grid candidates.

Definition db : Database := mkDatabase training ideal None.

End Disjoint.

(** A candidate table sampled on the grid 10, 20, 30, 40, beside the
    training table on the grid 0, 1, 2, 3. *)
Module OtherGrid.

Definition grid : Series := [10; 20; 30; 40].

Definition ideal : Table := ("x"%string, grid) :: candidates.

Definition frame : Frame := mkFrame grid candidates.

End OtherGrid.

End Examples.

(** ** Notions used in the statements *)

(** The mean squared error of the candidate column [col] against the
    training column [training_col], as line 166 computes it. *)
Definition mse_of (training_data : Table) (ideal_functions_df : Frame)
    (training_col col : string) : result float :=
  y_true <- getitem training_data training_col ;;
  y_pred <- getitem (columns ideal_functions_df) col ;;
  mean_squared_error y_true y_pred.

(** [measured T F x y idx funcs dts]: for the test point [(x, y)], the
    fits [funcs], at positions [idx], [idx+1], ..., have the deviations
    and tolerances [dts]: [x] is a label of the index (exactly once), the
    deviation is [|y - candidate(x)|] (line 180) and the tolerance is
    [max_allowed_deviation] (line 181). *)
Inductive measured (training_data : Table) (ideal_functions_df : Frame)
    (x_val y_val : float)
  : nat -> list (option string) -> list (float * float) -> Prop :=
| measured_nil idx :
    measured training_data ideal_functions_df x_val y_val idx [] []
| measured_cons idx ideal_func funcs c t dts :
    loc ideal_functions_df x_val ideal_func = inr (Scalar c) ->
    max_allowed_deviation training_data ideal_functions_df idx ideal_func
      = inr t ->
    measured training_data ideal_functions_df x_val y_val (S idx) funcs dts ->
    measured training_data ideal_functions_df x_val y_val idx
      (ideal_func :: funcs) ((abs (y_val - c), t) :: dts).

(** Lines 182-184 on the deviations and tolerances alone. *)
Fixpoint choose (idx : nat) (dts : list (float * float))
    (best_fit : option nat) (min_deviation : float) : option nat * float :=
  match dts with
  | [] => (best_fit, min_deviation)
  | (deviation, max_allowed) :: dts' =>
      if (deviation <=? max_allowed) && (deviation <? min_deviation)
      then choose (S idx) dts' (Some (idx + 1)%nat) deviation
      else choose (S idx) dts' best_fit min_deviation
  end.

(** The number of result rows assigned to the fit number [n]. *)
Definition assigned_to (n : nat) (r : ResultRow) : bool :=
  match ideal_func_no r with
  | Some m => (m =? n)%nat
  | None => false
  end.

Definition count_assigned (n : nat) (results : list ResultRow) : nat :=
  List.length (filter (assigned_to n) results).

(** [pd.isnull] on a float. *)
Definition isnull (v : float) : bool := is_nan v.

(** The bound of a fit in the words of the specification: the largest
    [|signal[i] - candidate[i]|] over the grid positions [i], the two
    columns paired by position. *)
Definition spec_max_abs_deviation (signal candidate : Series) : float :=
  series_max (map (fun p => abs (fst p - snd p)) (combine signal candidate)).

(** The tolerance of the specification: the square root of two times that
    bound. *)
Definition spec_tolerance (signal candidate : Series) : float :=
  np_sqrt_2 * spec_max_abs_deviation signal candidate.

(** [dts'] differs from [dts] in the tolerance of the fit at position [j]
    only, which is not smaller. *)
Definition raised_at (j : nat) (dts dts' : list (float * float)) : Prop :=
  List.length dts = List.length dts' /\
  forall k d t d' t',
    nth_error dts k = Some (d, t) -> nth_error dts' k = Some (d', t') ->
    d' = d /\ (k <> j -> t' = t) /\ (k = j -> (t <=? t') = true).

(** ** Values of binary64 numbers

    The notions used to relate the rounded product of two floats to the
    exact product: a shift record as a quotient with its remainder, the
    rounding of a quotient to nearest with ties to even, and the value of
    a [spec_float] as an integer multiple of [2 ^ - bias]. *)

Module FloatValue.

Local Open Scope Z_scope.

(** The position of a remainder [rho] of a division by [u] with respect
    to the half of [u]. *)
Definition loc_of (rho u : Z) : location :=
  if rho =? 0 then loc_Exact else loc_Inexact (2 * rho ?= u).

(** The record [mrs] is [w / u] with the position of its remainder. *)
Definition represents (mrs : shr_record) (w u : Z) : Prop :=
  0 <= w /\ 0 < u /\ shr_m mrs = w / u /\
  loc_of_shr_record mrs = loc_of (w mod u) u.

(** Rounding to nearest, ties to even, of [w / u]. *)
Definition rnd (w u : Z) : Z :=
  round_nearest_even (w / u) (loc_of (w mod u) u).

(** An offset that makes every exponent of a product non-negative. *)
Definition bias : Z := 2200.

(** The value given to the infinity: [2 ^ 1024]. *)
Definition top : Z := 2 ^ (1024 + bias).

(** The value of a non-negative [spec_float], in units of [2 ^ - bias];
    the infinity is [top]. *)
Definition SFval (x : spec_float) : Z :=
  match x with
  | S754_zero _ => 0
  | S754_finite _ m e => Zpos m * 2 ^ (e + bias)
  | S754_infinity _ => top
  | S754_nan => 0
  end.

(** The exponent and the value of the rounding of [M * 2 ^ E]. *)
Definition rexp (M E : Z) : Z := fexp prec emax (Zdigits2 M + E).

(** The rounded value of [M * 2 ^ E], in units of [2 ^ - bias]. *)
Definition rval (M E : Z) : Z :=
  rnd (M * 2 ^ (E + bias)) (2 ^ (rexp M E + bias)) * 2 ^ (rexp M E + bias).

(** The spec floats that are not negative. *)
Definition SFnonneg (x : spec_float) : Prop :=
  match x with
  | S754_zero _ | S754_nan => True
  | S754_infinity s | S754_finite s _ _ => s = false
  end.

(** The spec floats that are not NaN. *)
Definition SFnumber (x : spec_float) : Prop :=
  match x with S754_nan => False | _ => True end.

(** A number with the sign [sx]. *)
Definition SFsigned (sx : bool) (x : spec_float) : Prop :=
  match x with
  | S754_nan => False
  | S754_zero s | S754_infinity s | S754_finite s _ _ => s = sx
  end.

(** A zero or a finite number. *)
Definition SFfin (x : spec_float) : Prop :=
  match x with
  | S754_zero _ | S754_finite _ _ _ => True
  | _ => False
  end.

End FloatValue.

(** ** [DataProcessor.load_csv_to_df] and [DataProcessor.load_data] *)

(** [col.lower()] on a column name.  The column names of the data files
    are ASCII: a letter A-Z becomes a-z and every other character is
    kept. *)
Definition lower_char (c : Ascii.ascii) : Ascii.ascii :=
  let n := Ascii.N_of_ascii c in
  if ((65 <=? n) && (n <=? 90))%N then Ascii.ascii_of_N (n + 32) else c.

Fixpoint lower (s : string) : string :=
  match s with
  | EmptyString => EmptyString
  | String c s' => String (lower_char c) (lower s')
  end.

(** The exceptions of the loading code: the [DataLoadingException] that
    line 86 raises for every exception caught in [load_csv_to_df], and
    the exceptions raised outside of it. *)
Inductive load_exception : Set :=
| DataLoadingException
| Raised (e : exception).

(** The CSV files: [pd.read_csv(file)] gives a frame, whose columns carry
    the names of the header line, or raises ([None]). *)
Definition Files := string -> option Table.

(** Lines 78-86. *)
Definition load_csv_to_df (files : Files) (file : string)
  : load_exception + Table :=
  match files file with
  | None => inl DataLoadingException
  | Some df => inr (map (fun c => (lower (fst c), snd c)) df)
  end.

(** [df.columns = names]: [ValueError] when the frame does not have as
    many columns as there are names. *)
Definition set_columns (names : list string) (df : Table) : result Table :=
  if (List.length names =? List.length df)%nat
  then ret (combine names (map snd df))
  else raise ValueError.

(** Lines 129-137: the two files are loaded, then the two tables are
    replaced ([if_exists='replace']); the table [test_data] is not
    touched.  An exception of the loading leaves the database as it was.
    ([to_sql] needs distinct column names: the properties of [load_data]
    below are stated for an ideal file whose lowercased names are
    distinct.) *)
Definition load_data (files : Files)
    (training_file ideal_functions_file : string) (db : Database)
  : (load_exception + unit) * Database :=
  match load_csv_to_df files training_file with
  | inl e => (inl e, db)
  | inr training_data =>
      match set_columns ["x"; "y1"; "y2"; "y3"; "y4"]%string training_data with
      | inl e => (inl (Raised e), db)
      | inr training_data =>
          match load_csv_to_df files ideal_functions_file with
          | inl e => (inl e, db)
          | inr ideal_functions_data =>
              (inr tt,
               mkDatabase training_data ideal_functions_data (test_data db))
          end
      end
  end.

(** ** [DataVisualizer.visualize_data]: the test points *)

(** Line 63 of visualizer.py, [test_data[test_data['ideal_func_no'] == i]]:
    the rows whose [ideal_func_no] is [i].  A missing number equals no
    [i]. *)
Definition subset (test_data : list ResultRow) (i : nat) : list ResultRow :=
  filter (assigned_to i) test_data.

(** Lines 62-64: the subsets drawn for [i] in [range(1, 5)]. *)
Definition subsets (test_data : list ResultRow) : list (list ResultRow) :=
  map (subset test_data) (seq 1 4).

(** The rows without a number. *)
Definition unassigned (r : ResultRow) : bool :=
  match ideal_func_no r with
  | None => true
  | Some _ => false
  end.

(** ** The unit test of [process_test_data] *)

(** [DataFrame.empty] on the frame of the records. *)
Definition empty (results : list ResultRow) : bool :=
  match results with
  | [] => true
  | _ :: _ => false
  end.

(** test.py, lines 51-52: [results = self.processor.process_test_data()]
    and [self.assertFalse(results.empty)].  The value is [true] when the
    assertion holds; an exception of the run is an error of the test. *)
Definition test_process_test_data (tests : TestData) (db : Database)
  : result bool :=
  results <- fst (process_test_data tests db) ;;
  ret (negb (empty results)).
(** ** Ordering of binary64 numbers

    The comparisons of the source are [<] and [<=] on floats.  Their laws
    are derived from the specification of the primitive comparisons on
    [spec_float]. *)

Module FloatOrder.

(** Case analysis on the operands of [SFcompare]: signs, exponents and
    mantissas are compared as integers. *)
Ltac sf_cases :=
  unfold SFltb, SFleb, SFeqb, SFcompare;
  repeat match goal with
         | x : spec_float |- _ => destruct x as [[]|[]| |[] ? ?]
         end;
  simpl; try discriminate; try reflexivity;
  rewrite ?Pos.compare_cont_spec; simpl;
  repeat match goal with
         | |- context [Z.compare ?a ?b] => destruct (Z.compare_spec a b)
         end;
  simpl; try discriminate; try reflexivity; try lia; subst;
  repeat match goal with
         | |- context [Pos.compare ?a ?b] => destruct (Pos.compare_spec a b)
         end;
  simpl; try discriminate; try reflexivity; try lia.

Lemma SFltb_trans a b c :
  SFltb a b = true -> SFltb b c = true -> SFltb a c = true.
Proof. sf_cases. Qed.

Lemma SFleb_trans a b c :
  SFleb a b = true -> SFleb b c = true -> SFleb a c = true.
Proof. sf_cases. Qed.

Lemma SFltb_leb_trans a b c :
  SFltb a b = true -> SFleb b c = true -> SFltb a c = true.
Proof. sf_cases. Qed.

Lemma SFleb_ltb_trans a b c :
  SFleb a b = true -> SFltb b c = true -> SFltb a c = true.
Proof. sf_cases. Qed.

Lemma SFltb_leb a b : SFltb a b = true -> SFleb a b = true.
Proof. sf_cases. Qed.

Lemma SFltb_not_leb a b : SFltb a b = true -> SFleb b a = false.
Proof. sf_cases. Qed.

Lemma SFleb_not_ltb a b : SFleb a b = true -> SFltb b a = false.
Proof. sf_cases. Qed.

Lemma SFleb_total a b :
  SFeqb a a = true -> SFeqb b b = true -> SFltb a b = false ->
  SFleb b a = true.
Proof. sf_cases. Qed.

Lemma SFleb_eqb_l a b : SFleb a b = true -> SFeqb a a = true.
Proof. sf_cases. Qed.

Lemma SFleb_eqb_r a b : SFleb a b = true -> SFeqb b b = true.
Proof. sf_cases. Qed.

Lemma SFltb_eqb_l a b : SFltb a b = true -> SFeqb a a = true.
Proof. sf_cases. Qed.

Lemma SFleb_refl a : SFeqb a a = true -> SFleb a a = true.
Proof. sf_cases. Qed.

Lemma SFltb_irrefl a : SFltb a a = false.
Proof. sf_cases. Qed.

(** The same laws on primitive floats. *)

Lemma is_nan_false x : is_nan x = false <-> (x =? x) = true.
Proof. unfold is_nan. destruct (x =? x); simpl; intuition congruence. Qed.

Lemma ltb_trans x y z : (x <? y) = true -> (y <? z) = true -> (x <? z) = true.
Proof. rewrite !ltb_spec. apply SFltb_trans. Qed.

Lemma leb_trans x y z : (x <=? y) = true -> (y <=? z) = true -> (x <=? z) = true.
Proof. rewrite !leb_spec. apply SFleb_trans. Qed.

Lemma ltb_leb_trans x y z :
  (x <? y) = true -> (y <=? z) = true -> (x <? z) = true.
Proof. rewrite !ltb_spec, leb_spec. apply SFltb_leb_trans. Qed.

Lemma leb_ltb_trans x y z :
  (x <=? y) = true -> (y <? z) = true -> (x <? z) = true.
Proof. rewrite !ltb_spec, leb_spec. apply SFleb_ltb_trans. Qed.

Lemma ltb_leb x y : (x <? y) = true -> (x <=? y) = true.
Proof. rewrite ltb_spec, leb_spec. apply SFltb_leb. Qed.

Lemma ltb_not_leb x y : (x <? y) = true -> (y <=? x) = false.
Proof. rewrite ltb_spec, leb_spec. apply SFltb_not_leb. Qed.

Lemma leb_not_ltb x y : (x <=? y) = true -> (y <? x) = false.
Proof. rewrite ltb_spec, leb_spec. apply SFleb_not_ltb. Qed.

Lemma leb_total x y :
  is_nan x = false -> is_nan y = false -> (x <? y) = false ->
  (y <=? x) = true.
Proof.
  rewrite !is_nan_false, !eqb_spec, ltb_spec, leb_spec. apply SFleb_total.
Qed.

Lemma leb_not_nan_l x y : (x <=? y) = true -> is_nan x = false.
Proof. rewrite is_nan_false, eqb_spec, leb_spec. apply SFleb_eqb_l. Qed.

Lemma leb_not_nan_r x y : (x <=? y) = true -> is_nan y = false.
Proof. rewrite is_nan_false, eqb_spec, leb_spec. apply SFleb_eqb_r. Qed.

Lemma ltb_not_nan_l x y : (x <? y) = true -> is_nan x = false.
Proof. rewrite is_nan_false, eqb_spec, ltb_spec. apply SFltb_eqb_l. Qed.

Lemma leb_refl x : is_nan x = false -> (x <=? x) = true.
Proof. rewrite is_nan_false, eqb_spec, leb_spec. apply SFleb_refl. Qed.

Lemma ltb_irrefl x : (x <? x) = false.
Proof. rewrite ltb_spec. apply SFltb_irrefl. Qed.

End FloatOrder.


(** ** Rounding of binary64 products

    [SFmul] rounds the exact product of two mantissas with
    [binary_round_aux].  Its result is characterised by the rounding to
    nearest of the exact product at the exponent of its binade, which is
    monotone; so multiplication by a positive constant keeps the order of
    non-negative floats. *)

Module FloatRound.

Import FloatValue.
Local Open Scope Z_scope.

(** *** Shifts as divisions

    [shr_1] halves the quotient [w / u] and keeps the position of the
    remainder: it doubles the unit [u]. *)

Lemma div_mod_eq a b q r :
  0 <= r < b -> a = b * q + r -> a / b = q /\ a mod b = r.
Proof.
  intros Hr ->. split.
  - symmetry. apply (Z.div_unique_pos _ _ q r); auto.
  - symmetry. apply (Z.mod_unique_pos _ _ q r); auto.
Qed.

Lemma shr_1_represents mrs w u :
  represents mrs w u -> represents (shr_1 mrs) w (2 * u).
Proof.
  intros (Hw & Hu & Hm & Hl).
  pose proof (Z.div_mod w u ltac:(lia)) as Hdm.
  pose proof (Z.mod_pos_bound w u Hu) as Hrho.
  pose proof (Z.div_pos w u Hw Hu) as Hq.
  destruct mrs as [m r s]. simpl in Hm, Hl.
  generalize dependent (w mod u). intros rho Hl Hdm Hrho.
  generalize dependent (w / u). intros q Hm Hdm Hq. subst m.
  assert (Hcase : (exists p, q = 2 * p /\ 0 <= p) \/ (exists p, q = 2 * p + 1 /\ 0 <= p)).
  { pose proof (Z.div_mod q 2 ltac:(lia)) as Hq2.
    pose proof (Z.mod_pos_bound q 2 ltac:(lia)) as Hb.
    assert (0 <= q / 2) by (apply Z.div_pos; lia).
    destruct (Z.eq_dec (q mod 2) 0); [left|right]; exists (q / 2); lia. }
  unfold represents. split; [assumption|]. split; [lia|].
  destruct Hcase as [(p & Hp & Hp0)|(p & Hp & Hp0)].
  - destruct (div_mod_eq w (2 * u) p rho) as [Hd Hr];
      [lia | rewrite Hq, Hp; ring |].
    rewrite Hd, Hr. split.
    + destruct q as [|[qq|qq|]|]; simpl; lia.
    + revert Hl. unfold loc_of.
      destruct (Z.eqb_spec rho 0) as [E0|E0];
        destruct (Z.compare_spec (2 * rho) u) as [C|C|C];
        destruct (Z.compare_spec (2 * rho) (2 * u)) as [C'|C'|C'];
        try lia;
        destruct q as [|[qq|qq|]|]; try lia;
        destruct r, s; simpl; intros Hl; try discriminate Hl; reflexivity.
  - destruct (div_mod_eq w (2 * u) p (u + rho)) as [Hd Hr];
      [lia | rewrite Hq, Hp; ring |].
    rewrite Hd, Hr. split.
    + destruct q as [|[qq|qq|]|]; simpl; lia.
    + revert Hl. unfold loc_of.
      destruct (Z.eqb_spec (u + rho) 0) as [E1|E1]; [lia|].
      destruct (Z.eqb_spec rho 0) as [E0|E0];
        destruct (Z.compare_spec (2 * rho) u) as [C|C|C];
        destruct (Z.compare_spec (2 * (u + rho)) (2 * u)) as [C'|C'|C'];
        try lia;
        destruct q as [|[qq|qq|]|]; try lia;
        destruct r, s; simpl; intros Hl; try discriminate Hl; reflexivity.
Qed.

Lemma represents_unit mrs w u u' :
  u = u' -> represents mrs w u -> represents mrs w u'.
Proof. intros ->. exact (fun H => H). Qed.

Lemma pow2_xO p : 2 ^ Zpos p~0 = 2 ^ Zpos p * 2 ^ Zpos p.
Proof. rewrite <- Z.pow_add_r by lia. f_equal. lia. Qed.

Lemma pow2_xI p : 2 ^ Zpos p~1 = 2 * (2 ^ Zpos p * 2 ^ Zpos p).
Proof.
  rewrite <- Z.pow_add_r, <- Z.pow_succ_r by lia. f_equal. lia.
Qed.

Lemma iter_shr_1_represents w p : forall mrs u,
  represents mrs w u ->
  represents (iter_pos shr_1 p mrs) w (u * 2 ^ Zpos p).
Proof.
  induction p as [p IH|p IH|]; intros mrs u H; simpl iter_pos.
  - apply (represents_unit _ _ (2 * u * 2 ^ Zpos p * 2 ^ Zpos p)).
    + rewrite pow2_xI. ring.
    + apply IH, IH, shr_1_represents, H.
  - apply (represents_unit _ _ (u * 2 ^ Zpos p * 2 ^ Zpos p)).
    + rewrite pow2_xO. ring.
    + apply IH, IH, H.
  - apply (represents_unit _ _ (2 * u)); [|apply shr_1_represents, H].
    change (2 ^ 1) with 2. ring.
Qed.

(** *** Rounding to nearest, ties to even *)

Lemma rnd_represents mrs w u :
  represents mrs w u ->
  round_nearest_even (shr_m mrs) (loc_of_shr_record mrs) = rnd w u.
Proof. intros (_ & _ & -> & ->). reflexivity. Qed.

Lemma rnd_cases w u :
  0 < u ->
  (w mod u = 0 /\ rnd w u = w / u) \/
  (w mod u <> 0 /\ 2 * (w mod u) < u /\ rnd w u = w / u) \/
  (2 * (w mod u) = u /\ Z.even (w / u) = true /\ rnd w u = w / u) \/
  (2 * (w mod u) = u /\ Z.even (w / u) = false /\ rnd w u = w / u + 1) \/
  (u < 2 * (w mod u) /\ rnd w u = w / u + 1).
Proof.
  intros Hu. unfold rnd, loc_of, round_nearest_even.
  destruct (Z.eqb_spec (w mod u) 0) as [E|E]; [auto|].
  destruct (Z.compare_spec (2 * (w mod u)) u) as [C|C|C].
  - destruct (Z.even (w / u)) eqn:Ev; auto 10.
  - auto 10.
  - auto 10.
Qed.

Lemma rnd_monotone w w' u :
  0 < u -> 0 <= w -> w <= w' -> rnd w u <= rnd w' u.
Proof.
  intros Hu Hw Hle.
  pose proof (Z.div_mod w u ltac:(lia)) as Hd.
  pose proof (Z.div_mod w' u ltac:(lia)) as Hd'.
  pose proof (Z.mod_pos_bound w u Hu) as Hb.
  pose proof (Z.mod_pos_bound w' u Hu) as Hb'.
  pose proof (Z.div_le_mono w w' u Hu Hle) as Hq.
  destruct (rnd_cases w u Hu) as [C|[C|[C|[C|C]]]];
    destruct (rnd_cases w' u Hu) as [C'|[C'|[C'|[C'|C']]]];
    destruct C as (? & ?); destruct C' as (? & ?);
    repeat match goal with H : _ /\ _ |- _ => destruct H end;
    try lia;
    destruct (Z.eq_dec (w / u) (w' / u)) as [Eq|Ne]; try lia;
    try (rewrite Eq in *; congruence);
    try (rewrite <- Eq in *; nia).
Qed.

(** A multiple of the unit on one side of [w] is on the same side of the
    rounded value. *)
Lemma rnd_above_multiple w u k :
  0 < u -> k * u <= w -> k <= rnd w u.
Proof.
  intros Hu Hk.
  pose proof (Z.div_mod w u ltac:(lia)) as Hd.
  pose proof (Z.mod_pos_bound w u Hu) as Hb.
  assert (k <= w / u) by (apply Z.div_le_lower_bound; lia).
  destruct (rnd_cases w u Hu) as [C|[C|[C|[C|C]]]];
    repeat match goal with H : _ /\ _ |- _ => destruct H end; lia.
Qed.

Lemma rnd_below_multiple w u k :
  0 < u -> w <= k * u -> rnd w u <= k.
Proof.
  intros Hu Hk.
  pose proof (Z.div_mod w u ltac:(lia)) as Hd.
  pose proof (Z.mod_pos_bound w u Hu) as Hb.
  assert (w / u <= k) by (apply Z.div_le_upper_bound; lia).
  destruct (Z.eq_dec (w / u) k) as [E|E].
  - assert (w mod u = 0) by nia.
    destruct (rnd_cases w u Hu) as [C|[C|[C|[C|C]]]];
      repeat match goal with H : _ /\ _ |- _ => destruct H end; lia.
  - destruct (rnd_cases w u Hu) as [C|[C|[C|[C|C]]]];
      repeat match goal with H : _ /\ _ |- _ => destruct H end; lia.
Qed.

(** *** Digits and powers of two *)

Lemma fexp_eq e : fexp prec emax e = Z.max (e - 53) (-1074).
Proof. reflexivity. Qed.

Lemma digits2_size p : digits2_pos p = Pos.size p.
Proof. induction p; simpl; congruence. Qed.

Lemma digits2_bounds p :
  2 ^ (Zpos (digits2_pos p) - 1) <= Zpos p < 2 ^ Zpos (digits2_pos p).
Proof.
  rewrite digits2_size. split.
  - pose proof (Pos.size_le p) as H.
    assert (H' : 2 ^ Zpos (Pos.size p) <= Zpos p~0).
    { rewrite <- Pos2Z.inj_pow. apply Pos2Z.pos_le_pos. exact H. }
    replace (Zpos (Pos.size p)) with (Z.succ (Zpos (Pos.size p) - 1)) in H'
      by lia.
    rewrite Z.pow_succ_r in H' by lia. lia.
  - pose proof (Pos.size_gt p) as H.
    rewrite <- Pos2Z.inj_pow. apply Pos2Z.pos_lt_pos. exact H.
Qed.

Lemma Zdigits2_bounds m :
  0 < m -> 0 < Zdigits2 m /\ 2 ^ (Zdigits2 m - 1) <= m < 2 ^ Zdigits2 m.
Proof.
  destruct m as [|p|p]; try lia. intros _. simpl.
  split; [lia | apply digits2_bounds].
Qed.

Lemma Zdigits2_unique m d :
  2 ^ (d - 1) <= m < 2 ^ d -> 0 < m -> Zdigits2 m = d.
Proof.
  intros [Hl Hu] Hm. destruct (Zdigits2_bounds m Hm) as (Hd & Hl' & Hu').
  assert (0 < d).
  { destruct (Z.lt_trichotomy d 0) as [?|[->|?]]; [|simpl in Hu; lia|lia].
    rewrite Z.pow_neg_r in Hu by lia. lia. }
  assert (d - 1 < Zdigits2 m)
    by (apply (Z.pow_lt_mono_r_iff 2); lia).
  assert (Zdigits2 m - 1 < d)
    by (apply (Z.pow_lt_mono_r_iff 2); lia).
  lia.
Qed.

Lemma Zdigits2_le m k :
  0 < m -> m < 2 ^ k -> Zdigits2 m <= k.
Proof.
  intros Hm Hk. destruct (Zdigits2_bounds m Hm) as (Hd & Hl & _).
  assert (0 <= k).
  { destruct (Z.lt_ge_cases k 0); [|lia].
    rewrite Z.pow_neg_r in Hk by lia. lia. }
  assert (Zdigits2 m - 1 < k)
    by (apply (Z.pow_lt_mono_r_iff 2); lia).
  lia.
Qed.

Lemma pow2_pos k : 0 <= k -> 0 < 2 ^ k.
Proof. intros. apply Z.pow_pos_nonneg; lia. Qed.

Lemma pow2_split a b : 0 <= a -> 0 <= b -> 2 ^ (a + b) = 2 ^ a * 2 ^ b.
Proof. intros. apply Z.pow_add_r; lia. Qed.

Lemma shr_nonpos mrs e n : n <= 0 -> shr mrs e n = (mrs, e).
Proof. destruct n; try reflexivity. lia. Qed.

Lemma shr_represents mrs e n w u :
  0 <= n -> represents mrs w u ->
  exists mrs', shr mrs e n = (mrs', e + n) /\ represents mrs' w (u * 2 ^ n).
Proof.
  intros Hn H. destruct n as [|p|p]; try lia.
  - exists mrs. rewrite Z.add_0_r, Z.mul_1_r. auto.
  - exists (iter_pos shr_1 p mrs). split; [reflexivity|].
    apply iter_shr_1_represents, H.
Qed.

Lemma represents_exact m u :
  0 <= m -> 0 < u ->
  represents (shr_record_of_loc m loc_Exact) (m * u) u.
Proof.
  intros Hm Hu. unfold represents. simpl.
  rewrite Z.div_mul, Z.mod_mul by lia.
  repeat split; try lia; try nia.
Qed.

Lemma top_eq : top = 2 ^ 53 * 2 ^ (971 + bias).
Proof. unfold top. rewrite <- pow2_split by (unfold bias; lia). reflexivity. Qed.

(** The result of a mantissa below [2 ^ 53] at an exponent [e]. *)
Lemma finish_bounds m e :
  0 < m < 2 ^ 53 -> -1074 <= e ->
  (e <= 971 -> m * 2 ^ (e + bias) < top) /\
  (971 < e -> 2 ^ 52 <= m -> top <= m * 2 ^ (e + bias)).
Proof.
  intros Hm He. split.
  - intros Hle. rewrite top_eq.
    assert (2 ^ (e + bias) <= 2 ^ (971 + bias))
      by (apply Z.pow_le_mono_r; lia).
    pose proof (pow2_pos (e + bias) ltac:(unfold bias; lia)).
    nia.
  - intros Hlt Hm'. unfold top.
    replace (1024 + bias) with (52 + (972 + bias)) by lia.
    rewrite pow2_split by (unfold bias; lia).
    assert (2 ^ (972 + bias) <= 2 ^ (e + bias))
      by (apply Z.pow_le_mono_r; lia).
    pose proof (pow2_pos (972 + bias) ltac:(unfold bias; lia)).
    nia.
Qed.

(** *** The result of [binary_round_aux]

    For a positive mantissa [M] with enough digits at the exponent [E],
    the result is the rounding to nearest of [M * 2 ^ E] at the exponent
    [fexp (digits M + E)]: zero, a finite float of that value, or the
    infinity when the value reaches [2 ^ 1024]. *)

Section Round.

Variables M E : Z.
Hypothesis HM : 0 < M.
Hypothesis HE : - bias <= E.
Hypothesis Hshift : E <= fexp prec emax (Zdigits2 M + E).

Let mag := Zdigits2 M + E.
Let e1 := fexp prec emax mag.
Let w := M * 2 ^ (E + bias).
Let u := 2 ^ (e1 + bias).
Let k := mag - e1.

Lemma round_e1 :
  -1074 <= e1 /\ mag - 53 <= e1 /\ (e1 = mag - 53 \/ e1 = -1074).
Proof. unfold e1. rewrite fexp_eq. lia. Qed.

Lemma round_u_pos : 0 < u.
Proof. unfold u. apply pow2_pos. pose proof round_e1. unfold bias. lia. Qed.

Lemma round_w_bounds : 2 ^ (mag - 1 + bias) <= w < 2 ^ (mag + bias).
Proof.
  destruct (Zdigits2_bounds M HM) as (Hd & Hl & Hu).
  unfold w, mag.
  replace (Zdigits2 M + E - 1 + bias) with ((Zdigits2 M - 1) + (E + bias))
    by lia.
  replace (Zdigits2 M + E + bias) with (Zdigits2 M + (E + bias)) by lia.
  rewrite (pow2_split (Zdigits2 M - 1) (E + bias)) by lia.
  rewrite (pow2_split (Zdigits2 M) (E + bias)) by lia.
  pose proof (pow2_pos (E + bias) ltac:(lia)).
  split; [apply Z.mul_le_mono_nonneg_r | apply Z.mul_lt_mono_pos_r]; lia.
Qed.

(** The first shift of [binary_round_aux]. *)
Lemma round_stage1 :
  exists mrs, shr_fexp prec emax M E loc_Exact = (mrs, e1) /\
              represents mrs w u.
Proof.
  unfold shr_fexp. fold mag. fold e1.
  destruct (shr_represents (shr_record_of_loc M loc_Exact) E (e1 - E)
              w (2 ^ (E + bias))) as (mrs & Hs & Hr).
  - unfold e1, mag. lia.
  - apply represents_exact; [lia | apply pow2_pos; lia].
  - exists mrs. rewrite Hs. split; [f_equal; lia|].
    eapply represents_unit; [|exact Hr].
    unfold u. rewrite <- pow2_split by (unfold e1, mag; lia).
    f_equal. lia.
Qed.

Let q := w / u.
Let m2 := rnd w u.

Lemma round_m2_bounds : 0 <= q /\ q <= m2 <= q + 1.
Proof.
  pose proof round_u_pos as Hu. pose proof round_w_bounds as [Hw _].
  assert (0 <= w).
  { eapply Z.le_trans; [|exact Hw]. apply Z.pow_nonneg. lia. }
  split; [apply Z.div_pos; assumption|].
  unfold m2, q.
  destruct (rnd_cases w u Hu) as [C|[C|[C|[C|C]]]];
    repeat match goal with H : _ /\ _ |- _ => destruct H end; lia.
Qed.

(** Below the smallest subnormal, more than a binade away. *)
Lemma round_tiny : k < 0 -> m2 = 0.
Proof.
  intros Hk. pose proof round_u_pos as Hu.
  pose proof round_w_bounds as [Hw Hw'].
  pose proof round_e1 as He1.
  assert (Hlow : 0 < w).
  { eapply Z.lt_le_trans; [|exact Hw]. apply pow2_pos.
    unfold mag, bias in *.
    destruct (Zdigits2_bounds M HM). lia. }
  assert (Hhalf : 2 * 2 ^ (mag + bias) <= u).
  { unfold u. rewrite <- Z.pow_succ_r
      by (unfold mag, bias in *; destruct (Zdigits2_bounds M HM); lia).
    apply Z.pow_le_mono_r; [lia|]. unfold k in Hk. lia. }
  assert (Hq : w / u = 0) by (apply Z.div_small; lia).
  assert (Hr : w mod u = w) by (apply Z.mod_small; lia).
  unfold m2.
  destruct (rnd_cases w u Hu) as [C|[C|[C|[C|C]]]];
    repeat match goal with H : _ /\ _ |- _ => destruct H end; lia.
Qed.

Lemma round_q_upper : 0 <= k -> q < 2 ^ k.
Proof.
  intros Hk. pose proof round_u_pos as Hu.
  pose proof round_w_bounds as [_ Hw']. pose proof round_e1 as He1.
  unfold q. apply Z.div_lt_upper_bound; [assumption|].
  unfold u. rewrite <- pow2_split by (unfold bias; lia).
  replace (e1 + bias + k) with (mag + bias) by (unfold k; lia).
  assumption.
Qed.

Lemma round_q_lower : 1 <= k -> 2 ^ (k - 1) <= q.
Proof.
  intros Hk. pose proof round_u_pos as Hu.
  pose proof round_w_bounds as [Hw _]. pose proof round_e1 as He1.
  unfold q. apply Z.div_le_lower_bound; [assumption|].
  unfold u. rewrite Z.mul_comm, <- pow2_split by (unfold bias; lia).
  replace (k - 1 + (e1 + bias)) with (mag - 1 + bias) by (unfold k; lia).
  assumption.
Qed.

Lemma round_k_le : k <= 53.
Proof. pose proof round_e1. unfold k. lia. Qed.

(** The three results of [binary_round_aux]. *)
Lemma binary_round_aux_spec :
  (binary_round_aux prec emax false M E loc_Exact = S754_zero false /\
   m2 * u = 0) \/
  (exists m e,
      binary_round_aux prec emax false M E loc_Exact = S754_finite false m e /\
      Zpos m * 2 ^ (e + bias) = m2 * u /\ m2 * u < top) \/
  (binary_round_aux prec emax false M E loc_Exact = S754_infinity false /\
   top <= m2 * u).
Proof.
  pose proof round_u_pos as Hu. pose proof round_e1 as He1.
  pose proof round_m2_bounds as (Hq0 & Hq1 & Hq2). pose proof round_k_le as Hk53.
  destruct round_stage1 as (mrs1 & Hs1 & Hr1).
  unfold binary_round_aux. rewrite Hs1.
  rewrite (rnd_represents _ _ _ Hr1). fold m2.
  destruct (Z.eq_dec m2 0) as [Hz|Hnz].
  - (* the rounded mantissa is zero *)
    left. rewrite Hz. unfold shr_fexp. simpl Zdigits2.
    rewrite shr_nonpos by (rewrite fexp_eq; lia).
    split; reflexivity.
  - assert (Hk0 : 0 <= k).
    { destruct (Z.lt_ge_cases k 0) as [Hneg|]; [|assumption].
      pose proof (round_tiny Hneg). fold m2 in H. contradiction. }
    pose proof (round_q_upper Hk0) as Hqk. fold q in Hqk.
    assert (Hm2 : 0 < m2 <= 2 ^ k) by lia.
    destruct (Z.eq_dec m2 (2 ^ k)) as [Hcarry|Hno].
    + (* the rounding reached the next power of two *)
      assert (Hd2 : Zdigits2 m2 = k + 1).
      { apply Zdigits2_unique; [|lia]. rewrite Hcarry.
        replace (k + 1 - 1) with k by lia. split; [lia|].
        apply Z.pow_lt_mono_r; lia. }
      unfold shr_fexp. rewrite Hd2.
      replace (k + 1 + e1) with (mag + 1) by (unfold k; lia).
      destruct He1 as (Hmin & Hlow & Hor).
      destruct (Z.eq_dec e1 (mag - 53)) as [Hnorm|Hnn];
        [|assert (Hsub : e1 = -1074) by lia].
      * (* normal range: one more shift *)
        assert (Hk : k = 53) by (unfold k; lia).
        replace (fexp prec emax (mag + 1) - e1) with 1
          by (rewrite fexp_eq; lia).
        destruct (shr_represents (shr_record_of_loc m2 loc_Exact) e1 1
                    (m2 * u) u ltac:(lia)
                    (represents_exact m2 u ltac:(lia) Hu))
          as (mrs2 & Hs2 & (_ & _ & Hm3 & _)).
        rewrite Hs2, Hm3.
        assert (Hdiv : m2 * u / (u * 2 ^ 1) = 2 ^ 52).
        { rewrite Hcarry, Hk. change (2 ^ 1) with 2.
          replace (2 ^ 53 * u) with (2 ^ 52 * (u * 2))
            by (change (2 ^ 53) with (2 ^ 52 * 2); ring).
          apply Z.div_mul. lia. }
        rewrite Hdiv. change (2 ^ 52) with (Zpos (2 ^ 52)).
        destruct (finish_bounds (2 ^ 52) (e1 + 1) ltac:(simpl; lia)
                    ltac:(lia)) as [Hfin Hinf].
        assert (Hval : 2 ^ 52 * 2 ^ (e1 + 1 + bias) = m2 * u).
        { rewrite Hcarry, Hk. unfold u.
          replace (e1 + 1 + bias) with (1 + (e1 + bias)) by lia.
          rewrite pow2_split by (unfold bias; lia).
          change (2 ^ 53) with (2 ^ 52 * 2 ^ 1). ring. }
        destruct (Z.leb_spec (e1 + 1) (emax - prec)) as [Hle|Hgt].
        -- right. left. exists (2 ^ 52)%positive, (e1 + 1).
           change (Zpos (2 ^ 52)) with (2 ^ 52) in *.
           split; [reflexivity|]. split; [exact Hval|].
           rewrite <- Hval. apply Hfin. exact Hle.
        -- right. right. split; [reflexivity|].
           change (Zpos (2 ^ 52)) with (2 ^ 52) in *.
           rewrite <- Hval. apply Hinf; [exact Hgt | lia].
      * (* subnormal range: no further shift *)
        assert (Hk : k < 53) by (unfold k; lia).
        rewrite shr_nonpos by (rewrite fexp_eq; lia).
        simpl shr_m.
        destruct m2 as [|p|p] eqn:Ep; try lia.
        assert (Hp : Zpos p < 2 ^ 53).
        { rewrite Hcarry. apply Z.pow_lt_mono_r; lia. }
        destruct (finish_bounds (Zpos p) e1 ltac:(lia) ltac:(lia))
          as [Hfin _].
        assert (Hle : e1 <= emax - prec)
          by (change (emax - prec) with 971; lia).
        apply Z.leb_le in Hle. rewrite Hle.
        right. left. exists p, e1. split; [reflexivity|].
        split; [reflexivity|]. apply Hfin. rewrite Hsub. lia.
    + (* the rounded mantissa keeps its number of digits *)
      assert (Hlt : m2 < 2 ^ k) by lia.
      unfold shr_fexp.
      rewrite shr_nonpos.
      2:{ pose proof (Zdigits2_le m2 k ltac:(lia) Hlt).
          rewrite fexp_eq. unfold e1 in *. rewrite fexp_eq in *.
          unfold k in *. lia. }
      simpl shr_m.
      destruct m2 as [|p|p] eqn:Ep; try lia.
      assert (Hp : Zpos p < 2 ^ 53).
      { eapply Z.lt_le_trans; [exact Hlt|]. apply Z.pow_le_mono_r; lia. }
      destruct (finish_bounds (Zpos p) e1 ltac:(lia) ltac:(lia))
        as [Hfin Hinf].
      destruct (Z.leb_spec e1 (emax - prec)) as [Hle|Hgt].
      * right. left. exists p, e1. split; [reflexivity|].
        split; [reflexivity|]. apply Hfin. exact Hle.
      * right. right. split; [reflexivity|].
        apply Hinf; [exact Hgt|].
        assert (Hk : k = 53).
        { destruct He1 as (_ & _ & [?|?]); [unfold k; lia|].
          change (emax - prec) with 971 in Hgt. lia. }
        pose proof (round_q_lower ltac:(lia)) as Hql. fold q in Hql.
        rewrite Hk in Hql. simpl in Hql. simpl. lia.
Qed.

End Round.


Lemma top_pos : 0 < top.
Proof. apply pow2_pos. unfold bias. lia. Qed.

Lemma binary_round_aux_val M E :
  0 < M -> - bias <= E -> E <= rexp M E ->
  SFnonneg (binary_round_aux prec emax false M E loc_Exact) /\
  SFnumber (binary_round_aux prec emax false M E loc_Exact) /\
  SFval (binary_round_aux prec emax false M E loc_Exact)
  = Z.min (rval M E) top.
Proof.
  intros HM HE Hs. pose proof top_pos.
  destruct (binary_round_aux_spec M E HM HE Hs)
    as [(-> & Hy)|[(m & e & -> & Hv & Hy)|(-> & Hy)]];
    unfold rval, rexp; cbn [SFval SFnonneg SFnumber];
    repeat split; lia.
Qed.

(** The rounded value is monotone in the exact value. *)
Lemma rval_monotone M E M' E' :
  0 < M -> - bias <= E -> E <= rexp M E ->
  0 < M' -> - bias <= E' -> E' <= rexp M' E' ->
  M * 2 ^ (E + bias) <= M' * 2 ^ (E' + bias) ->
  rval M E <= rval M' E'.
Proof.
  intros HM HE Hs HM' HE' Hs' Hle.
  pose proof (round_w_bounds M E HM HE) as [Hw1 Hw2].
  pose proof (round_w_bounds M' E' HM' HE') as [Hw1' Hw2'].
  pose proof (round_e1 M E HE) as (Hmin & Hlow & Hor).
  pose proof (round_e1 M' E' HE') as (Hmin' & Hlow' & Hor').
  pose proof (round_u_pos M E HE) as Hu.
  pose proof (round_u_pos M' E' HE') as Hu'.
  fold (rexp M E) in *. fold (rexp M' E') in *.
  set (mag := Zdigits2 M + E) in *. set (mag' := Zdigits2 M' + E') in *.
  assert (Hw0 : 0 <= M * 2 ^ (E + bias)).
  { eapply Z.le_trans; [|exact Hw1]. apply Z.pow_nonneg. lia. }
  assert (Hmag : mag <= mag').
  { destruct (Z.lt_ge_cases mag' mag) as [Hlt|]; [|assumption].
    assert (2 ^ (mag' + bias) <= 2 ^ (mag - 1 + bias))
      by (apply Z.pow_le_mono_r; lia).
    lia. }
  unfold rval.
  destruct (Z.eq_dec (rexp M E) (rexp M' E')) as [He|Hne].
  - rewrite <- He.
    apply Z.mul_le_mono_nonneg_r; [lia|].
    apply rnd_monotone; assumption.
  - assert (He : rexp M E < rexp M' E').
    { unfold rexp in *. fold mag in Hne |- *. fold mag' in Hne |- *.
      rewrite !fexp_eq in *. lia. }
    assert (Hnorm : rexp M' E' = mag' - 53) by lia.
    assert (Hmag' : mag < mag').
    { destruct (Z.eq_dec mag mag') as [Em|]; [|lia].
      unfold rexp in He. fold mag in He. fold mag' in He.
      rewrite Em in He. lia. }
    (* the power of two between the two values *)
    set (P := 2 ^ (mag' - 1 + bias)).
    assert (HP : P = 2 ^ (mag' - 1 - rexp M E) * 2 ^ (rexp M E + bias)).
    { unfold P. rewrite <- pow2_split by (unfold bias; lia).
      f_equal. lia. }
    assert (HP' : P = 2 ^ 52 * 2 ^ (rexp M' E' + bias)).
    { unfold P. rewrite <- pow2_split by (unfold bias; lia).
      f_equal. lia. }
    assert (HwP : M * 2 ^ (E + bias) <= P).
    { unfold P. assert (2 ^ (mag + bias) <= 2 ^ (mag' - 1 + bias))
        by (apply Z.pow_le_mono_r; lia). lia. }
    apply Z.le_trans with P.
    + rewrite HP at 1. apply Z.mul_le_mono_nonneg_r; [lia|].
      apply rnd_below_multiple; [assumption|]. rewrite <- HP. exact HwP.
    + rewrite HP' at 1. apply Z.mul_le_mono_nonneg_r; [lia|].
      apply rnd_above_multiple; [assumption|]. rewrite <- HP'. exact Hw1'.
Qed.

(** *** Order and value of valid floats *)

Lemma valid_finite s m e :
  valid_binary (S754_finite s m e) = true ->
  -1074 <= e <= 971 /\ Zpos m < 2 ^ 53 /\ (e = -1074 \/ 2 ^ 52 <= Zpos m).
Proof.
  unfold valid_binary, SpecFloat.valid_binary, bounded, canonical_mantissa.
  intros H.
  apply andb_prop in H. destruct H as [Hc He].
  apply Z.eqb_eq in Hc. apply Z.leb_le in He.
  change (emax - prec) with 971 in He. rewrite fexp_eq in Hc.
  pose proof (digits2_bounds m) as [Hl Hu].
  assert (Hd : Zpos (digits2_pos m) <= 53) by lia.
  split; [lia|]. split.
  - eapply Z.lt_le_trans; [exact Hu|]. apply Z.pow_le_mono_r; lia.
  - destruct (Z.eq_dec e (-1074)) as [?|Hne]; [auto|]. right.
    replace (Zpos (digits2_pos m)) with 53 in Hl by lia. exact Hl.
Qed.

Lemma SFval_finite_pos s m e : -1074 <= e -> 0 < SFval (S754_finite s m e).
Proof.
  intros He. cbn [SFval].
  apply Z.mul_pos_pos; [lia | apply pow2_pos; unfold bias; lia].
Qed.

(** On canonical mantissas a smaller exponent is a smaller value. *)
Lemma canonical_lt s m e s' m' e' :
  valid_binary (S754_finite s m e) = true ->
  valid_binary (S754_finite s' m' e') = true ->
  e < e' ->
  SFval (S754_finite s m e) < SFval (S754_finite s' m' e').
Proof.
  intros H H' Hlt.
  destruct (valid_finite _ _ _ H) as (He & Hm & _).
  destruct (valid_finite _ _ _ H') as (He' & _ & [?|Hm']); [lia|].
  cbn [SFval].
  pose proof (pow2_pos (e + bias) ltac:(unfold bias; lia)) as Hp.
  assert (Hpow : 2 * 2 ^ (e + bias) <= 2 ^ (e' + bias)).
  { rewrite <- Z.pow_succ_r by (unfold bias; lia).
    apply Z.pow_le_mono_r; lia. }
  apply Z.lt_le_trans with (2 ^ 53 * 2 ^ (e + bias)).
  - apply Z.mul_lt_mono_pos_r; assumption.
  - replace (2 ^ 53 * 2 ^ (e + bias)) with (2 ^ 52 * (2 * 2 ^ (e + bias)))
      by (change (2 ^ 53) with (2 ^ 52 * 2); ring).
    apply Z.mul_le_mono_nonneg; lia.
Qed.

Lemma SFval_lt_top s m e :
  valid_binary (S754_finite s m e) = true ->
  SFval (S754_finite s m e) < top.
Proof.
  intros H. destruct (valid_finite _ _ _ H) as (He & Hm & _).
  cbn [SFval]. apply (finish_bounds (Zpos m) e); lia.
Qed.

(** On valid non-negative numbers, [SFleb] is the order of the values. *)
Lemma SFleb_val x y :
  valid_binary x = true -> valid_binary y = true ->
  SFnonneg x -> SFnonneg y -> SFnumber x -> SFnumber y ->
  SFleb x y = true <-> SFval x <= SFval y.
Proof.
  intros Hx Hy Nx Ny Mx My. pose proof top_pos as Ht.
  destruct x as [sx|sx| |sx mx ex], y as [sy|sy| |sy my ey];
    cbn [SFnonneg SFnumber] in Nx, Ny, Mx, My; try contradiction; subst;
    try pose proof (SFval_lt_top _ _ _ Hx) as Tx;
    try pose proof (SFval_lt_top _ _ _ Hy) as Ty;
    try pose proof (SFval_finite_pos false mx ex
                      ltac:(destruct (valid_finite _ _ _ Hx); lia)) as Px;
    try pose proof (SFval_finite_pos false my ey
                      ltac:(destruct (valid_finite _ _ _ Hy); lia)) as Py.
  1-8: cbn [SFval] in *; unfold SFleb, SFcompare;
    (split; [intros; try discriminate; lia | intros; try reflexivity; lia]).
  unfold SFleb, SFcompare. rewrite Pos.compare_cont_spec.
  cbn [Pos.switch_Eq].
  destruct (Z.compare_spec ex ey) as [->|Hlt|Hgt].
  - destruct (valid_finite _ _ _ Hx) as (He & _).
    pose proof (pow2_pos (ey + bias) ltac:(unfold bias; lia)) as Hp.
    cbn [SFval]. clear Tx Ty Px Py.
    generalize dependent (2 ^ (ey + bias)). intros P HP.
    destruct (Pos.compare_spec mx my) as [->|Hm|Hm];
      (split; [intros; try discriminate; nia | intros; try reflexivity; nia]).
  - pose proof (canonical_lt _ _ _ _ _ _ Hx Hy Hlt).
    split; [lia | reflexivity].
  - pose proof (canonical_lt _ _ _ _ _ _ Hy Hx Hgt).
    split; [discriminate | lia].
Qed.

Lemma SFval_nonneg x : 0 <= SFval x.
Proof.
  pose proof top_pos. destruct x as [s|s| |s m e]; cbn [SFval];
    first [lia | apply Z.mul_nonneg_nonneg; [lia | apply Z.pow_nonneg; lia]].
Qed.

(** *** Multiplication by a positive normal float *)

(** The product of a mantissa of 53 digits with any mantissa is long
    enough to be rounded at its own exponent. *)
Lemma product_shift mc mx E :
  2 ^ 52 <= Zpos mc -> E <= rexp (Zpos (mc * mx)) E.
Proof.
  intros Hc. unfold rexp. rewrite fexp_eq.
  destruct (Zdigits2_bounds (Zpos (mc * mx)) ltac:(lia)) as (_ & _ & Hu).
  assert (2 ^ 52 < 2 ^ Zdigits2 (Zpos (mc * mx))) by nia.
  assert (52 < Zdigits2 (Zpos (mc * mx))).
  { apply (Z.pow_lt_mono_r_iff 2); [lia| |assumption].
    destruct (Zdigits2_bounds (Zpos (mc * mx)) ltac:(lia)); lia. }
  lia.
Qed.

(** Multiplication by a positive normal number is monotone on the valid
    non-negative numbers. *)
Lemma SF64mul_monotone mc ec x y :
  2 ^ 52 <= Zpos mc -> -1074 <= ec ->
  valid_binary x = true -> valid_binary y = true ->
  SFnonneg x -> SFnonneg y -> SFnumber x -> SFnumber y ->
  SFleb x y = true ->
  SFnonneg (SF64mul (S754_finite false mc ec) x) /\
  SFnumber (SF64mul (S754_finite false mc ec) x) /\
  SFnonneg (SF64mul (S754_finite false mc ec) y) /\
  SFnumber (SF64mul (S754_finite false mc ec) y) /\
  SFval (SF64mul (S754_finite false mc ec) x)
  <= SFval (SF64mul (S754_finite false mc ec) y).
Proof.
  intros Hc Hec Hx Hy Nx Ny Mx My Hle.
  pose proof (proj1 (SFleb_val x y Hx Hy Nx Ny Mx My) Hle) as Hval.
  pose proof top_pos as Ht.
  assert (Hfin : forall m e,
             valid_binary (S754_finite false m e) = true ->
             SFnonneg (SF64mul (S754_finite false mc ec)
                         (S754_finite false m e)) /\
             SFnumber (SF64mul (S754_finite false mc ec)
                         (S754_finite false m e)) /\
             SFval (SF64mul (S754_finite false mc ec)
                      (S754_finite false m e))
             = Z.min (rval (Zpos (mc * m)) (ec + e)) top).
  { intros m e Hv. destruct (valid_finite _ _ _ Hv) as (He & _).
    apply binary_round_aux_val;
      [lia | unfold bias; lia | apply product_shift; assumption]. }
  destruct x as [sx|sx| |sx mx ex], y as [sy|sy| |sy my ey];
    cbn [SFnonneg SFnumber] in Nx, Ny, Mx, My; try contradiction; subst;
    try discriminate Hle.
  - cbn. repeat split; lia.
  - cbn. repeat split; lia.
  - destruct (Hfin _ _ Hy) as (N & Mn & V).
    split; [exact I|]. split; [exact I|]. split; [exact N|].
    split; [exact Mn|]. apply SFval_nonneg.
  - cbn. repeat split; lia.
  - destruct (Hfin _ _ Hx) as (N & Mn & V).
    split; [exact N|]. split; [exact Mn|]. split; [reflexivity|].
    split; [exact I|]. rewrite V. cbn [SF64mul SFmul SFval xorb]. lia.
  - destruct (Hfin _ _ Hx) as (N & Mn & V).
    destruct (Hfin _ _ Hy) as (N' & Mn' & V').
    split; [exact N|]. split; [exact Mn|]. split; [exact N'|].
    split; [exact Mn'|]. rewrite V, V'.
    apply Z.min_le_compat_r.
    destruct (valid_finite _ _ _ Hx) as (He & _).
    destruct (valid_finite _ _ _ Hy) as (He' & _).
    apply rval_monotone;
      try lia; try (unfold bias; lia); try (apply product_shift; assumption).
    (* the exact products are in the order of the operands *)
    cbn [SFval] in Hval.
    apply (Z.mul_le_mono_pos_r _ _ (2 ^ 1074)); [apply pow2_pos; lia|].
    rewrite <- !Z.mul_assoc, <- !pow2_split by (unfold bias; lia).
    replace (ec + ex + bias + 1074) with ((ec + 1074) + (ex + bias)) by lia.
    replace (ec + ey + bias + 1074) with ((ec + 1074) + (ey + bias)) by lia.
    rewrite (pow2_split (ec + 1074) (ex + bias)) by (unfold bias; lia).
    rewrite (pow2_split (ec + 1074) (ey + bias)) by (unfold bias; lia).
    rewrite !Pos2Z.inj_mul.
    pose proof (pow2_pos (ec + 1074) ltac:(lia)) as Hk.
    replace (Zpos mc * Zpos mx * (2 ^ (ec + 1074) * 2 ^ (ex + bias)))
      with (Zpos mc * 2 ^ (ec + 1074) * (Zpos mx * 2 ^ (ex + bias))) by ring.
    replace (Zpos mc * Zpos my * (2 ^ (ec + 1074) * 2 ^ (ey + bias)))
      with (Zpos mc * 2 ^ (ec + 1074) * (Zpos my * 2 ^ (ey + bias))) by ring.
    apply Z.mul_le_mono_nonneg_l; [|exact Hval].
    apply Z.mul_nonneg_nonneg; lia.
Qed.

(** *** Operations that never give NaN *)

Lemma shr_1_nonneg mrs : 0 <= shr_m mrs -> 0 <= shr_m (shr_1 mrs).
Proof.
  destruct mrs as [[|[p|p|]|p] r s]; simpl; lia.
Qed.

Lemma iter_shr_1_nonneg p : forall mrs,
  0 <= shr_m mrs -> 0 <= shr_m (iter_pos shr_1 p mrs).
Proof.
  induction p as [p IH|p IH|]; intros mrs H; simpl iter_pos.
  - apply IH, IH, shr_1_nonneg, H.
  - apply IH, IH, H.
  - apply shr_1_nonneg, H.
Qed.

Lemma shr_fexp_nonneg m e l :
  0 <= m -> 0 <= shr_m (fst (shr_fexp prec emax m e l)).
Proof.
  intros Hm. unfold shr_fexp, shr.
  assert (H0 : 0 <= shr_m (shr_record_of_loc m l))
    by (destruct l as [|[]]; exact Hm).
  destruct (fexp prec emax (Zdigits2 m + e) - e); simpl; try exact H0.
  apply iter_shr_1_nonneg, H0.
Qed.

Lemma round_nearest_even_nonneg m l :
  0 <= m -> 0 <= round_nearest_even m l.
Proof.
  intros Hm. destruct l as [|[]]; simpl; try lia.
  destruct (Z.even m); lia.
Qed.

(** The rounding of a non-negative mantissa is a number of the given
    sign. *)
Lemma binary_round_aux_signed sx mx ex lx :
  0 <= mx -> SFsigned sx (binary_round_aux prec emax sx mx ex lx).
Proof.
  intros Hm. unfold binary_round_aux.
  pose proof (shr_fexp_nonneg mx ex lx Hm) as H1.
  destruct (shr_fexp prec emax mx ex lx) as [mrs1 e1]. simpl in H1.
  pose proof (shr_fexp_nonneg _ e1 loc_Exact
                (round_nearest_even_nonneg _ (loc_of_shr_record mrs1) H1))
    as H2.
  destruct (shr_fexp prec emax
              (round_nearest_even (shr_m mrs1) (loc_of_shr_record mrs1))
              e1 loc_Exact) as [mrs2 e2].
  simpl in H2. destruct (shr_m mrs2) as [|p|p]; try lia.
  - reflexivity.
  - destruct (e2 <=? emax - prec); reflexivity.
Qed.

Lemma binary_round_signed sx mx ex :
  SFsigned sx (binary_round prec emax sx mx ex).
Proof.
  unfold binary_round.
  destruct (shl_align mx ex (fexp prec emax (Zpos (digits2_pos mx) + ex)))
    as [mz ez].
  apply binary_round_aux_signed. lia.
Qed.

Lemma SFsigned_number sx x : SFsigned sx x -> SFnumber x.
Proof. destruct x; simpl; auto. Qed.

Lemma SFsigned_nonneg x : SFsigned false x -> SFnonneg x.
Proof. destruct x; simpl; auto. Qed.

Lemma binary_normalize_number m e s :
  SFnumber (binary_normalize prec emax m e s).
Proof.
  destruct m; simpl; [exact I| |];
    eapply SFsigned_number, binary_round_signed.
Qed.

Lemma SF64sub_number x y : SFfin x -> SFfin y -> SFnumber (SF64sub x y).
Proof.
  destruct x as [sx|sx| |sx mx ex], y as [sy|sy| |sy my ey];
    simpl; try contradiction; intros _ _.
  - destruct sx, sy; exact I.
  - exact I.
  - exact I.
  - apply binary_normalize_number.
Qed.

Lemma SF64mul_square x :
  SFnumber x -> SFsigned false (SF64mul x x).
Proof.
  destruct x as [s|s| |s m e]; simpl; try contradiction; intros _.
  - destruct s; reflexivity.
  - destruct s; reflexivity.
  - replace (xorb s s) with false by (destruct s; reflexivity).
    apply binary_round_aux_signed. lia.
Qed.

Lemma SF64add_nonneg x y :
  SFsigned false x -> SFsigned false y -> SFsigned false (SF64add x y).
Proof.
  destruct x as [sx|sx| |sx mx ex], y as [sy|sy| |sy my ey];
    simpl; try contradiction; intros -> ->; try reflexivity.
  apply binary_round_signed.
Qed.

Lemma div_eucl_nonneg a b :
  0 <= a -> 0 < b -> 0 <= fst (Z.div_eucl a b).
Proof.
  intros Ha Hb. change (fst (Z.div_eucl a b)) with (a / b).
  apply Z.div_pos; assumption.
Qed.

Lemma SF64div_number x md ed :
  SFsigned false x -> SFnumber (SF64div x (S754_finite false md ed)).
Proof.
  destruct x as [sx|sx| |sx mx ex]; simpl; try contradiction; intros ->;
    try exact I.
  unfold SFdiv_core_binary.
  set (m' := match _ with Z0 => Zpos mx | Zpos _ => _ | Zneg _ => 0 end).
  assert (Hm' : 0 <= m').
  { unfold m'. destruct (_ - _ - _); try lia.
    apply Z.shiftl_nonneg. lia. }
  pose proof (div_eucl_nonneg m' (Zpos md) Hm' ltac:(lia)) as Hq.
  destruct (Z.div_eucl m' (Zpos md)) as [q r]. simpl in Hq.
  eapply SFsigned_number, binary_round_aux_signed. exact Hq.
Qed.

(** *** Conversion of an integer *)

Lemma iter_xO_value mx d : Zpos (Pos.iter xO mx d) = Zpos mx * 2 ^ Zpos d.
Proof.
  apply (Pos.iter_ind positive xO mx
           (fun p a => Zpos a = Zpos mx * 2 ^ Zpos p)).
  - change (2 ^ 1) with 2. lia.
  - intros p a IH. rewrite Pos2Z.inj_succ, Z.pow_succ_r by lia.
    rewrite Pos2Z.inj_xO, IH. ring.
Qed.

Lemma Zdigits2_shift m n :
  0 < m -> 0 <= n -> Zdigits2 (m * 2 ^ n) = Zdigits2 m + n.
Proof.
  intros Hm Hn. destruct (Zdigits2_bounds m Hm) as (Hd & Hl & Hu).
  pose proof (pow2_pos n Hn) as Hp.
  apply Zdigits2_unique; [|nia].
  replace (Zdigits2 m + n - 1) with (Zdigits2 m - 1 + n) by lia.
  rewrite !pow2_split by lia. split.
  - apply Z.mul_le_mono_nonneg_r; lia.
  - apply Z.mul_lt_mono_pos_r; lia.
Qed.

(** [shl_align] keeps the value and lowers the exponent to at most
    [ex']. *)
Lemma shl_align_spec mx ex ex' :
  exists mz ez,
    shl_align mx ex ex' = (mz, ez) /\ ez = Z.min ex ex' /\
    Zpos mz = Zpos mx * 2 ^ (ex - ez).
Proof.
  unfold shl_align. destruct (ex' - ex) as [|d|d] eqn:Ed.
  - exists mx, ex. replace (Z.min ex ex') with ex by lia.
    rewrite Z.sub_diag. simpl. repeat split; lia.
  - exists mx, ex. replace (Z.min ex ex') with ex by lia.
    rewrite Z.sub_diag. simpl. repeat split; lia.
  - exists (Pos.iter xO mx d), ex'. replace (Z.min ex ex') with ex' by lia.
    split; [reflexivity|]. split; [reflexivity|].
    rewrite iter_xO_value. f_equal. f_equal. lia.
Qed.

(** A positive integer below [2 ^ 63] converts to a positive finite
    float. *)
Lemma binary_normalize_integer p :
  Zpos p < 2 ^ 63 ->
  exists m e, binary_normalize prec emax (Zpos p) 0 false
              = S754_finite false m e.
Proof.
  intros Hp. simpl binary_normalize. unfold binary_round.
  destruct (shl_align_spec p 0 (fexp prec emax (Zpos (digits2_pos p) + 0)))
    as (mz & ez & -> & Hez & Hmz).
  rewrite Z.add_0_r, fexp_eq in Hez.
  pose proof (digits2_bounds p) as [Hdl Hdu].
  set (d := Zpos (digits2_pos p)) in *.
  assert (Hd : 0 < d <= 63).
  { split; [unfold d; lia|].
    assert (d - 1 < 63); [|lia].
    apply (Z.pow_lt_mono_r_iff 2); lia. }
  assert (Hdig : Zdigits2 (Zpos mz) = d - ez).
  { rewrite Hmz, Zdigits2_shift by lia. simpl Zdigits2. fold d. lia. }
  assert (Hmag : Zdigits2 (Zpos mz) + ez = d) by lia.
  assert (He1 : fexp prec emax (Zdigits2 (Zpos mz) + ez) = d - 53)
    by (rewrite Hmag, fexp_eq; lia).
  assert (HE : - bias <= ez) by (unfold bias; lia).
  assert (Hs : ez <= fexp prec emax (Zdigits2 (Zpos mz) + ez)) by lia.
  pose proof (round_m2_bounds (Zpos mz) ez ltac:(lia) HE) as (_ & Hlo & Hhi).
  pose proof (round_q_lower (Zpos mz) ez ltac:(lia) HE ltac:(lia)) as Hql.
  pose proof (round_q_upper (Zpos mz) ez ltac:(lia) HE ltac:(lia)) as Hqu.
  pose proof (round_u_pos (Zpos mz) ez HE) as Hu.
  pose proof (binary_round_aux_spec (Zpos mz) ez ltac:(lia) HE Hs) as Hspec.
  rewrite He1 in *. rewrite Hmag in *.
  replace (d - (d - 53) - 1) with 52 in Hql by lia.
  replace (d - (d - 53)) with 53 in Hqu by lia.
  assert (H52 : 0 < 2 ^ 52) by reflexivity.
  destruct Hspec as [(_ & Hy)|[(m & e & -> & _)|(_ & Hy)]]; [| eauto |];
    exfalso.
  - apply Z.mul_eq_0 in Hy. lia.
  - assert (Hle : rnd (Zpos mz * 2 ^ (ez + bias)) (2 ^ (d - 53 + bias))
                  * 2 ^ (d - 53 + bias)
                  <= 2 ^ 53 * 2 ^ (d - 53 + bias))
      by (apply Z.mul_le_mono_nonneg_r; lia).
    rewrite <- pow2_split in Hle by (unfold bias; lia).
    assert (2 ^ (53 + (d - 53 + bias)) < top).
    { unfold top. apply Z.pow_lt_mono_r; unfold bias; lia. }
    lia.
Qed.

Local Close Scope Z_scope.
Local Open Scope float_scope.

(** *** Primitive floats *)

Lemma SFnumber_eqb x : SFnumber x -> SFeqb x x = true.
Proof. intros H. FloatOrder.sf_cases; contradiction. Qed.

Lemma Prim2SF_number (v : float) : SFnumber (Prim2SF v) -> is_nan v = false.
Proof.
  intros H. apply FloatOrder.is_nan_false. rewrite eqb_spec.
  apply SFnumber_eqb, H.
Qed.

(** [is_finite], the test of scikit-learn's input validation. *)
Lemma is_finite_fin (v : float) : is_finite v = true -> SFfin (Prim2SF v).
Proof.
  unfold is_finite, is_nan, is_infinity.
  rewrite !eqb_spec, abs_spec.
  change (Prim2SF infinity) with (S754_infinity false).
  destruct (Prim2SF v) as [s|[]| |s m e]; cbn; intros H;
    try exact I; discriminate H.
Qed.

Lemma of_uint63_finite n :
  (0 < Uint63Axioms.to_Z n < 2 ^ 63)%Z ->
  exists m e, Prim2SF (of_uint63 n) = S754_finite false m e.
Proof.
  intros Hn. rewrite of_uint63_spec.
  destruct (Uint63Axioms.to_Z n) as [|p|p]; try lia.
  apply binary_normalize_integer. lia.
Qed.

Lemma SFleb_number x y : SFleb x y = true -> SFnumber x /\ SFnumber y.
Proof.
  destruct x as [| | |], y as [| | |]; cbn; intros H;
    try discriminate H; auto.
Qed.

(** Multiplication by a positive normal float is monotone on the floats
    that are not negative. *)
Lemma mul_monotone (c a b : float) mc ec :
  Prim2SF c = S754_finite false mc ec -> (2 ^ 52 <= Zpos mc)%Z ->
  SFnonneg (Prim2SF a) -> SFnonneg (Prim2SF b) ->
  (a <=? b) = true -> (c * a <=? c * b) = true.
Proof.
  intros Hc Hmc Na Nb Hle. rewrite leb_spec in Hle |- *.
  destruct (SFleb_number _ _ Hle) as [Ma Mb].
  pose proof (Prim2SF_valid c) as Vc. rewrite Hc in Vc.
  destruct (valid_finite _ _ _ Vc) as (Hec & _).
  pose proof (Prim2SF_valid (c * a)) as Va.
  pose proof (Prim2SF_valid (c * b)) as Vb.
  rewrite !mul_spec, !Hc. rewrite mul_spec, Hc in Va, Vb.
  destruct (SF64mul_monotone mc ec _ _ Hmc ltac:(lia)
              (Prim2SF_valid a) (Prim2SF_valid b) Na Nb Ma Mb Hle)
    as (N & M & N' & M' & V).
  apply SFleb_val; assumption.
Qed.

Lemma np_sqrt_2_monotone (a b : float) :
  SFnonneg (Prim2SF a) -> SFnonneg (Prim2SF b) ->
  (a <=? b) = true -> (np_sqrt_2 * a <=? np_sqrt_2 * b) = true.
Proof.
  apply (mul_monotone np_sqrt_2 a b 6369051672525773 (-52)).
  - vm_compute. reflexivity.
  - vm_compute. discriminate.
Qed.

Lemma abs_nonneg (v : float) : SFnonneg (Prim2SF (abs v)).
Proof. rewrite abs_spec. destruct (Prim2SF v); cbn; auto. Qed.

End FloatRound.

(** ** The exception monad and the loops *)

Lemma bind_inr {A B} (m : result A) (k : A -> result B) b :
  bind m k = inr b -> exists a, m = inr a /\ k a = inr b.
Proof. destruct m as [e|a]; simpl; [discriminate | eauto]. Qed.

(** Inversion of a successful chain of binds found among the hypotheses. *)
Ltac inv_bind H :=
  let a := fresh "a" in
  let Ha := fresh "Ha" in
  apply bind_inr in H; destruct H as (a & Ha & H).

Lemma for_each_length {A B} (f : A -> result B) l bs :
  for_each f l = inr bs -> List.length bs = List.length l.
Proof.
  revert bs. induction l as [|a l IH]; simpl; intros bs H.
  - injection H as <-. reflexivity.
  - inv_bind H. inv_bind H. injection H as <-. simpl. f_equal. eauto.
Qed.

Lemma for_each_nth {A B} (f : A -> result B) l bs :
  for_each f l = inr bs ->
  forall k a, nth_error l k = Some a ->
  exists b, nth_error bs k = Some b /\ f a = inr b.
Proof.
  revert bs. induction l as [|a l IH]; simpl; intros bs H k a' Hk.
  - destruct k; discriminate.
  - inv_bind H. inv_bind H. injection H as <-.
    destruct k as [|k]; simpl in *.
    + injection Hk as <-. eauto.
    + eauto.
Qed.

Lemma for_each_In {A B} (f : A -> result B) l bs :
  for_each f l = inr bs ->
  forall b, In b bs -> exists a, In a l /\ f a = inr b.
Proof.
  revert bs. induction l as [|a l IH]; simpl; intros bs H b Hb.
  - injection H as <-. contradiction.
  - inv_bind H. inv_bind H. injection H as <-.
    destruct Hb as [<-|Hb]; [eauto|].
    destruct (IH _ Ha0 _ Hb) as (a' & ? & ?). eauto.
Qed.


Lemma for_each_raises {A B} (f : A -> result B) l a :
  In a l -> (exists e, f a = inl e) -> exists e, for_each f l = inl e.
Proof.
  induction l as [|a' l IH]; simpl; intros Hin Hf; [contradiction|].
  destruct (f a') as [e'|b] eqn:E; simpl; [eauto|].
  destruct Hin as [->|Hin].
  - destruct Hf as (e & Hf). congruence.
  - destruct (IH Hin Hf) as (e & ->). simpl. eauto.
Qed.

Lemma for_each_ext {A B} (f g : A -> result B) l :
  (forall a, In a l -> f a = g a) -> for_each f l = for_each g l.
Proof.
  induction l as [|a l IH]; simpl; intros H; [reflexivity|].
  rewrite H by auto. rewrite IH by auto. reflexivity.
Qed.

(** ** Selection: lines 159-170 *)

(** The conversion of a row count to a float. *)
Lemma of_nat_finite n :
  (0 < n)%nat -> (Z.of_nat n < 2 ^ 63)%Z ->
  exists m e, Prim2SF (of_nat n) = S754_finite false m e.
Proof.
  intros Hn Hlt. unfold of_nat. apply FloatRound.of_uint63_finite.
  rewrite Uint63.of_Z_spec, Z.mod_small; [lia|].
  change Uint63Axioms.wB with (2 ^ 63)%Z. lia.
Qed.

Lemma fold_add_signed l : forall acc,
  (forall s, In s l -> FloatValue.SFsigned false (Prim2SF s)) ->
  FloatValue.SFsigned false (Prim2SF acc) ->
  FloatValue.SFsigned false (Prim2SF (fold_left add l acc)).
Proof.
  induction l as [|s l IH]; intros acc Hl Hacc; [exact Hacc|].
  simpl. apply IH; [intros; apply Hl; right; assumption|].
  rewrite add_spec. apply FloatRound.SF64add_nonneg;
    [exact Hacc | apply Hl; left; reflexivity].
Qed.

(** The mean squared error of validated inputs is a number: the squares
    of differences of finite floats are not negative, their sum is not
    negative, and the row count is a positive finite float. *)
Lemma mean_squared_error_number y_true y_pred mse :
  mean_squared_error y_true y_pred = inr mse ->
  (Z.of_nat (List.length y_true) < 2 ^ 63)%Z ->
  is_nan mse = false.
Proof.
  unfold mean_squared_error. intros H Hlen.
  destruct (List.length y_true =? List.length y_pred)%nat; [|discriminate].
  destruct (List.length y_true =? 0)%nat eqn:Hn; [discriminate|].
  destruct (forallb is_finite y_true && forallb is_finite y_pred) eqn:Hf;
    [|discriminate].
  simpl in H. injection H as <-.
  apply andb_prop in Hf. destruct Hf as [Ht Hp].
  rewrite forallb_forall in Ht, Hp. apply Nat.eqb_neq in Hn.
  destruct (of_nat_finite (List.length y_true) ltac:(lia) Hlen)
    as (m & e & Hd).
  apply FloatRound.Prim2SF_number. rewrite div_spec, Hd.
  apply FloatRound.SF64div_number. apply fold_add_signed.
  - intros s Hs. apply in_map_iff in Hs. destruct Hs as ([a b] & <- & Hab).
    simpl. rewrite mul_spec, sub_spec.
    apply FloatRound.SF64mul_square, FloatRound.SF64sub_number;
      apply FloatRound.is_finite_fin.
    + apply Ht. eapply in_combine_l; eassumption.
    + apply Hp. eapply in_combine_r; eassumption.
  - reflexivity.
Qed.

Section Selection.

Import FloatOrder.

Variable training_data : Table.
Variable ideal_functions_df : Frame.
Variable training_col : string.

Lemma best_func_loop_step col cols min_mse best_func :
  best_func_loop training_data ideal_functions_df training_col
    (col :: cols) min_mse best_func =
  (mse <- mse_of training_data ideal_functions_df training_col col ;;
   if mse <? min_mse
   then best_func_loop training_data ideal_functions_df training_col
          cols mse (Some col)
   else best_func_loop training_data ideal_functions_df training_col
          cols min_mse best_func).
Proof.
  unfold mse_of. simpl.
  destruct (getitem training_data training_col); simpl; [reflexivity|].
  destruct (getitem (columns ideal_functions_df) col); reflexivity.
Qed.

(** The running minimum never increases, and it changes exactly when a
    candidate is recorded. *)
Lemma best_func_loop_min cols : forall m0 b0 m b,
  best_func_loop training_data ideal_functions_df training_col
    cols m0 b0 = inr (m, b) ->
  (m = m0 /\ b = b0) \/
  ((m <? m0) = true /\
   exists col, In col cols /\ b = Some col /\ mse_of training_data ideal_functions_df training_col col = inr m).
Proof.
  induction cols as [|col cols IH]; intros m0 b0 m b H.
  - injection H as <- <-. auto.
  - rewrite best_func_loop_step in H. inv_bind H.
    destruct (a <? m0) eqn:Hlt.
    + right. destruct (IH _ _ _ _ H) as [[-> ->]|(Hm & c & Hc & -> & E)].
      * split; [assumption|]. exists col. simpl. auto.
      * split; [eapply ltb_trans; eassumption|].
        exists c. simpl. auto.
    + destruct (IH _ _ _ _ H) as [?|(Hm & c & Hc & -> & E)]; [auto|].
      right. split; [assumption|]. exists c. simpl. auto.
Qed.

(** No candidate of the loop has a smaller error than the final minimum. *)
Lemma best_func_loop_lower cols : forall m0 b0 m b,
  best_func_loop training_data ideal_functions_df training_col
    cols m0 b0 = inr (m, b) ->
  forall col, In col cols ->
  exists mse, mse_of training_data ideal_functions_df training_col col = inr mse /\ (mse <? m) = false.
Proof.
  induction cols as [|col cols IH]; intros m0 b0 m b H c Hc;
    [contradiction|].
  rewrite best_func_loop_step in H. inv_bind H.
  destruct Hc as [<-|Hc].
  - exists a. split; [assumption|].
    destruct (a <? m0) eqn:Hlt.
    + destruct (best_func_loop_min _ _ _ _ _ H) as [[-> _]|[Hm _]].
      * apply ltb_irrefl.
      * apply leb_not_ltb, ltb_leb, Hm.
    + destruct (best_func_loop_min _ _ _ _ _ H) as [[-> _]|[Hm _]];
        [assumption|].
      destruct (a <? m) eqn:Ham; [|reflexivity].
      rewrite (ltb_trans _ _ _ Ham Hm) in Hlt. discriminate.
  - destruct (a <? m0); eapply IH; eassumption.
Qed.

End Selection.

(** C2 -- selection optimality.  For the training column [y(k+1)], the
    candidate recorded at position [k] of [best_ideal_funcs] is a column of
    the ideal-functions frame whose mean squared error against that
    training column is [<=] the mean squared error of every candidate
    column (for a table of fewer than [2 ^ 63] rows, whose row count
    converts to a float without wrapping). *)
Theorem selection_optimality
    (training_data : Table) (ideal_functions_df : Frame)
    (funcs : list (option string)) (k : nat) (best : string) :
  best_ideal_funcs training_data ideal_functions_df = inr funcs ->
  nth_error funcs k = Some (Some best) ->
  exists signal candidate mse,
    (k < 4)%nat /\
    getitem training_data (fstring_y (k + 1)) = inr signal /\
    getitem (columns ideal_functions_df) best = inr candidate /\
    mean_squared_error signal candidate = inr mse /\
    forall col, In col (columns_of (columns ideal_functions_df)) ->
      exists other mse',
        getitem (columns ideal_functions_df) col = inr other /\
        mean_squared_error signal other = inr mse' /\
        (mse' <? mse) = false /\
        ((Z.of_nat (List.length signal) < 2 ^ 63)%Z ->
         (mse <=? mse') = true).
Proof.
  intros Hfuncs Hk.
  assert (Hlen : List.length funcs = 4%nat)
    by (apply for_each_length in Hfuncs; exact Hfuncs).
  assert (Hk4 : (k < 4)%nat)
    by (rewrite <- Hlen; apply nth_error_Some; congruence).
  unfold best_ideal_funcs in Hfuncs.
  destruct (for_each_nth _ _ _ Hfuncs k (k + 1)%nat) as (b & Hb & Hfit).
  { rewrite nth_error_nth' with (d := 0%nat) by (rewrite length_seq; lia).
    rewrite seq_nth by lia. f_equal. lia. }
  rewrite Hk in Hb. injection Hb as <-.
  inv_bind Hfit. destruct a as [m b]. simpl in Hfit.
  injection Hfit as ->. unfold best_fit in Ha.
  destruct (best_func_loop_min _ _ _ _ _ _ _ _ Ha)
    as [[_ ?]|(Hm & c & Hc & E & Hmse)]; [discriminate|].
  injection E as <-. pose proof Hmse as Hmse'.
  unfold mse_of in Hmse. inv_bind Hmse. inv_bind Hmse.
  exists a, a0, m. repeat split; try assumption.
  intros col Hcol.
  destruct (best_func_loop_lower _ _ _ _ _ _ _ _ Ha col Hcol)
    as (mc & Hmc & Hnlt).
  unfold mse_of in Hmc. rewrite Ha0 in Hmc. simpl in Hmc. inv_bind Hmc.
  exists a1, mc. repeat split; try assumption.
  intros Hrows. apply FloatOrder.leb_total; try assumption.
  - eapply mean_squared_error_number; eassumption.
  - eapply FloatOrder.ltb_not_nan_l; eassumption.
Qed.

(** The theorem at the scenario of the specification: signal [0; 1; 2; 3]
    against the candidates [y1] and [y2]. *)
Lemma selection_optimality_witness :
  exists signal candidate mse,
    (0 < 4)%nat /\
    getitem (Examples.training [0; 1; 2; 3]) (fstring_y (0 + 1))
      = inr signal /\
    getitem (columns Examples.frame) "y1"
      = inr candidate /\
    mean_squared_error signal candidate = inr mse /\
    forall col,
      In col (columns_of (columns Examples.frame)) ->
      exists other mse',
        getitem (columns Examples.frame) col = inr other /\
        mean_squared_error signal other = inr mse' /\
        (mse' <? mse) = false /\
        ((Z.of_nat (List.length signal) < 2 ^ 63)%Z ->
         (mse <=? mse') = true).
Proof.
  apply (selection_optimality (Examples.training [0; 1; 2; 3])
           Examples.frame Examples.funcs 0 "y1").
  - vm_compute. reflexivity.
  - reflexivity.
Defined.

(** ** The bound of line 181 *)

(** [series.max()] is NaN or one of the values. *)
Lemma series_max_in s : series_max s = nan \/ In (series_max s) s.
Proof.
  unfold series_max.
  assert (H : forall acc,
             fold_left (fun m v =>
                          if is_nan v then m
                          else if is_nan m then v
                          else if m <? v then v else m) s acc = acc \/
             In (fold_left (fun m v =>
                              if is_nan v then m
                              else if is_nan m then v
                              else if m <? v then v else m) s acc) s).
  { induction s as [|v s IH]; intros acc; [left; reflexivity|].
    simpl.
    destruct (is_nan v); [destruct (IH acc); auto|].
    destruct (is_nan acc); [destruct (IH v) as [->|]; auto|].
    destruct (acc <? v); [destruct (IH v) as [->|]; auto|].
    destruct (IH acc); auto. }
  apply H.
Qed.

(** The bound is the largest of absolute values: it is not negative. *)
Lemma max_abs_deviation_nonneg training_data frame idx ideal_func m :
  max_abs_deviation training_data frame idx ideal_func = inr m ->
  FloatValue.SFnonneg (Prim2SF m).
Proof.
  unfold max_abs_deviation. intros H. inv_bind H. inv_bind H.
  injection H as <-.
  set (diffs := series_sub (range_index a) (combine (index frame) a0)).
  destruct (series_max_in (series_abs diffs)) as [E|Hin].
  - rewrite E. vm_compute. exact I.
  - unfold series_abs in Hin |- *. apply in_map_iff in Hin.
    destruct Hin as (v & <- & _). apply FloatRound.abs_nonneg.
Qed.

(** A larger bound gives a larger tolerance. *)
Lemma max_allowed_deviation_monotone training_data training_data' frame
    idx ideal_func m m' :
  max_abs_deviation training_data frame idx ideal_func = inr m ->
  max_abs_deviation training_data' frame idx ideal_func = inr m' ->
  (m <=? m') = true ->
  (np_sqrt_2 * m <=? np_sqrt_2 * m') = true.
Proof.
  intros Hm Hm' Hle.
  apply FloatRound.np_sqrt_2_monotone; [| |exact Hle];
    eapply max_abs_deviation_nonneg; eassumption.
Qed.

Lemma in_combine_nth {A B} (xs : list A) : forall (ys : list B) a b,
  In (a, b) (combine xs ys) ->
  exists i, nth_error xs i = Some a /\ nth_error ys i = Some b.
Proof.
  induction xs as [|x xs IH]; intros [|y ys] a b H; try contradiction.
  destruct H as [[= <- <-]|H].
  - exists 0%nat. auto.
  - destruct (IH _ _ _ H) as (i & ? & ?). exists (S i). auto.
Qed.

Lemma nth_error_range start len : forall i l,
  nth_error (map of_nat (seq start len)) i = Some l ->
  l = of_nat (start + i).
Proof.
  revert start. induction len as [|len IH]; intros start [|i] l H;
    try discriminate.
  - injection H as <-. rewrite Nat.add_0_r. reflexivity.
  - simpl in H. apply IH in H. rewrite H. f_equal. lia.
Qed.

Lemma in_rows_at label labelled v :
  In v (rows_at label labelled) ->
  exists l, In (l, v) labelled /\ label_eqb l label = true.
Proof.
  unfold rows_at. intros H. apply in_map_iff in H.
  destruct H as ([l v'] & <- & H). apply filter_In in H.
  destruct H as [Hin Heq]. exists l. auto.
Qed.

(** The differences of line 181 pair the rows by label: a value of
    [series_sub] is NaN, or [a - b] for a row [a] of the left Series and
    a row [b] of the right Series that carry the same label. *)
Lemma series_sub_pairs left right v :
  In v (series_sub left right) ->
  v = nan \/
  exists l a l' b,
    In (l, a) left /\ In (l', b) right /\ label_eqb l' l = true /\
    v = a - b.
Proof.
  unfold series_sub. intros H. apply in_app_or in H.
  destruct H as [H|H]; apply in_flat_map in H;
    destruct H as ([l a] & Hin & Hv); simpl in Hv.
  - destruct (rows_at l right) as [|b0 bs] eqn:E.
    + destruct Hv as [<-|[]]. left. reflexivity.
    + change (In v (map (fun b => a - b) (b0 :: bs))) in Hv.
      apply in_map_iff in Hv. destruct Hv as (b & <- & Hb).
      rewrite <- E in Hb. apply in_rows_at in Hb.
      destruct Hb as (l' & Hr & Hl). right. exists l, a, l', b. auto.
  - destruct (rows_at l left); [|contradiction].
    destruct Hv as [<-|[]]. left. reflexivity.
Qed.

(** The bound of line 181 in general: NaN, or [|signal[i] - candidate[j]|]
    for a row number [i] of the training table and a row [j] of the
    candidate table whose [x] value is the number [i].  The two rows are
    those of one grid position only when the grid value at position [i]
    is [i] itself. *)
Lemma max_abs_deviation_pairs training_data frame idx ideal_func m :
  max_abs_deviation training_data frame idx ideal_func = inr m ->
  m = nan \/
  exists signal candidate i j a b x_j,
    getitem training_data (fstring_y (idx + 1)) = inr signal /\
    frame_getitem frame ideal_func = inr candidate /\
    nth_error signal i = Some a /\
    nth_error (index frame) j = Some x_j /\
    nth_error candidate j = Some b /\
    label_eqb x_j (of_nat i) = true /\
    m = abs (a - b).
Proof.
  unfold max_abs_deviation. intros H. inv_bind H. inv_bind H.
  injection H as <-.
  set (diffs := series_sub (range_index a) (combine (index frame) a0)).
  destruct (series_max_in (series_abs diffs)) as [E|Hin]; [auto|].
  unfold series_abs in Hin |- *. apply in_map_iff in Hin.
  destruct Hin as (v & Hv & Hin). rewrite <- Hv.
  destruct (series_sub_pairs _ _ _ Hin)
    as [->|(l & sa & l' & sb & Hl & Hr & Hlab & ->)].
  - left. reflexivity.
  - right. unfold range_index in Hl.
    destruct (in_combine_nth _ _ _ _ Hl) as (i & Hi & Hsa).
    destruct (in_combine_nth _ _ _ _ Hr) as (j & Hj & Hsb).
    apply nth_error_range in Hi. simpl in Hi. subst l.
    exists a, a0, i, j, sa, sb, l'. auto 10.
Qed.

(** ** Classification: lines 172-185 *)

Section Classification.

Import FloatOrder.

Variable training_data : Table.
Variable ideal_functions_df : Frame.
Variables x_val y_val : float.

Lemma deviation_of_scalar ideal_func c :
  loc ideal_functions_df x_val ideal_func = inr (Scalar c) ->
  deviation_of ideal_functions_df x_val y_val ideal_func
  = inr (Scalar (abs (y_val - c))).
Proof. unfold deviation_of. intros ->. reflexivity. Qed.

(** On measured fits the loop of lines 179-184 is [choose]. *)
Lemma fit_loop_measured idx funcs dts :
  measured training_data ideal_functions_df x_val y_val idx funcs dts ->
  forall best_fit min_deviation,
    fit_loop training_data ideal_functions_df x_val y_val idx funcs
      best_fit min_deviation
    = inr (choose idx dts best_fit min_deviation).
Proof.
  induction 1 as [|idx f funcs c t dts Hloc Htol _ IH]; intros b m;
    [reflexivity|].
  simpl. rewrite (deviation_of_scalar _ _ Hloc). simpl.
  rewrite Htol. simpl.
  destruct ((abs (y_val - c) <=? t) && (abs (y_val - c) <? m)); apply IH.
Qed.

(** A loop that returns has measured every fit. *)
Lemma fit_loop_inr funcs : forall idx best_fit min_deviation r,
  fit_loop training_data ideal_functions_df x_val y_val idx funcs
    best_fit min_deviation = inr r ->
  exists dts,
    measured training_data ideal_functions_df x_val y_val idx funcs dts.
Proof.
  induction funcs as [|f funcs IH]; intros idx b m r H.
  - exists []. constructor.
  - simpl in H. inv_bind H. inv_bind H.
    unfold deviation_of in Ha. inv_bind Ha.
    destruct a1 as [c|cs]; injection Ha as <-; [|discriminate].
    assert (exists dts, measured training_data ideal_functions_df
                          x_val y_val (S idx) funcs dts) as (dts & Hd).
    { destruct ((abs (y_val - c) <=? a0) && (abs (y_val - c) <? m));
        eapply IH; eassumption. }
    eexists. econstructor; eassumption.
Qed.

Lemma measured_length idx funcs dts :
  measured training_data ideal_functions_df x_val y_val idx funcs dts ->
  List.length dts = List.length funcs.
Proof. induction 1; simpl; congruence. Qed.

Lemma measured_nth idx funcs dts :
  measured training_data ideal_functions_df x_val y_val idx funcs dts ->
  forall k d t, nth_error dts k = Some (d, t) ->
  exists ideal_func c,
    nth_error funcs k = Some ideal_func /\
    loc ideal_functions_df x_val ideal_func = inr (Scalar c) /\
    d = abs (y_val - c) /\
    max_allowed_deviation training_data ideal_functions_df (idx + k)
      ideal_func = inr t.
Proof.
  induction 1 as [|idx f funcs c t0 dts Hloc Htol _ IH]; intros k d t Hk.
  - destruct k; discriminate.
  - destruct k as [|k]; simpl in Hk.
    + injection Hk as <- <-. exists f, c. rewrite Nat.add_0_r. auto.
    + destruct (IH _ _ _ Hk) as (f' & c' & ? & ? & ? & Ht).
      exists f', c'. replace (idx + S k)%nat with (S idx + k)%nat by lia.
      auto.
Qed.

(** The fits are measured when, for each of them, [x_val] is the label of
    exactly one row and the tolerance of line 181 is computed. *)
Lemma measured_total funcs : forall idx,
  (forall k f, nth_error funcs k = Some f ->
     exists c t,
       loc ideal_functions_df x_val f = inr (Scalar c) /\
       max_allowed_deviation training_data ideal_functions_df (idx + k) f
       = inr t) ->
  exists dts,
    measured training_data ideal_functions_df x_val y_val idx funcs dts.
Proof.
  induction funcs as [|f funcs IH]; intros idx H.
  - exists []. constructor.
  - destruct (H 0%nat f eq_refl) as (c & t & Hloc & Ht).
    rewrite Nat.add_0_r in Ht.
    destruct (IH (S idx)) as (dts & Hd).
    { intros k f' Hk. destruct (H (S k) f' Hk) as (c' & t' & ? & Ht').
      replace (idx + S k)%nat with (S idx + k)%nat in Ht' by lia. eauto. }
    eexists. econstructor; eassumption.
Qed.

End Classification.

(** What [choose] returns, from any starting minimum that is a number:
    either nothing was taken, and then no eligible fit is below the
    starting minimum; or the fit taken last is eligible, below the starting
    minimum, at most every eligible deviation and strictly below the
    eligible deviations before it. *)
Lemma choose_spec dts : forall idx b0 m0 b m,
  is_nan m0 = false ->
  choose idx dts b0 m0 = (b, m) ->
  (b = b0 /\ m = m0 /\
   forall j d t, nth_error dts j = Some (d, t) -> (d <=? t) = true ->
                 (d <? m0) = false)
  \/
  (exists k d t,
      b = Some (idx + k + 1)%nat /\ nth_error dts k = Some (d, t) /\
      (d <=? t) = true /\ m = d /\ (d <? m0) = true /\
      forall j d' t', nth_error dts j = Some (d', t') ->
                      (d' <=? t') = true ->
                      (d <=? d') = true /\ ((j < k)%nat -> (d <? d') = true)).
Proof.
  induction dts as [|[d1 t1] dts IH]; intros idx b0 m0 b m Hm0 H.
  - injection H as <- <-. left. do 2 (split; [reflexivity|]).
    intros [|j] d t Hj; discriminate.
  - simpl in H.
    destruct (d1 <=? t1) eqn:Hel; simpl in H;
      [destruct (d1 <? m0) eqn:Hlt|].
    + (* the fit is taken *)
      right.
      assert (Hd1 : is_nan d1 = false)
        by (eapply FloatOrder.leb_not_nan_l; eassumption).
      destruct (IH _ _ _ _ _ Hd1 H)
        as [(-> & -> & Hrest)|(k & d & t & -> & Hk & Hdt & -> & Hd & Hrest)].
      * exists 0%nat, d1, t1. rewrite Nat.add_0_r.
        do 5 (split; [first [assumption|reflexivity]|]).
        intros [|j] d' t' Hj He; simpl in Hj.
        -- injection Hj as <- <-. split; [|lia].
           apply FloatOrder.leb_refl, Hd1.
        -- split; [|lia]. apply FloatOrder.leb_total; eauto.
           eapply FloatOrder.leb_not_nan_l; eassumption.
      * exists (S k), d, t.
        replace (idx + S k + 1)%nat with (S idx + k + 1)%nat by lia.
        do 4 (split; [first [assumption|reflexivity]|]).
        split; [eapply FloatOrder.ltb_trans; eassumption|].
        intros [|j] d' t' Hj He; simpl in Hj.
        -- injection Hj as <- <-.
           split; [apply FloatOrder.ltb_leb|intros _]; assumption.
        -- destruct (Hrest _ _ _ Hj He) as [? Hjk].
           split; [assumption|]. intros ?. apply Hjk. lia.
    + (* eligible, but not below the minimum *)
      destruct (IH _ _ _ _ _ Hm0 H)
        as [(-> & -> & Hrest)|(k & d & t & -> & Hk & Hdt & -> & Hd & Hrest)].
      * left. do 2 (split; [reflexivity|]).
        intros [|j] d' t' Hj He; simpl in Hj; [|eauto].
        injection Hj as <- <-. assumption.
      * right. exists (S k), d, t.
        replace (idx + S k + 1)%nat with (S idx + k + 1)%nat by lia.
        do 5 (split; [first [assumption|reflexivity]|]).
        intros [|j] d' t' Hj He; simpl in Hj.
        -- injection Hj as <- <-.
           assert ((d <? d1) = true).
           { eapply FloatOrder.ltb_leb_trans; [eassumption|].
             apply FloatOrder.leb_total; try assumption.
             eapply FloatOrder.leb_not_nan_l; eassumption. }
           split; [apply FloatOrder.ltb_leb|intros _]; assumption.
        -- destruct (Hrest _ _ _ Hj He) as [? Hjk].
           split; [assumption|]. intros ?. apply Hjk. lia.
    + (* not eligible *)
      destruct (IH _ _ _ _ _ Hm0 H)
        as [(-> & -> & Hrest)|(k & d & t & -> & Hk & Hdt & -> & Hd & Hrest)].
      * left. do 2 (split; [reflexivity|]).
        intros [|j] d' t' Hj He; simpl in Hj; [|eauto].
        injection Hj as <- <-. congruence.
      * right. exists (S k), d, t.
        replace (idx + S k + 1)%nat with (S idx + k + 1)%nat by lia.
        do 5 (split; [first [assumption|reflexivity]|]).
        intros [|j] d' t' Hj He; simpl in Hj.
        -- injection Hj as <- <-. congruence.
        -- destruct (Hrest _ _ _ Hj He) as [? Hjk].
           split; [assumption|]. intros ?. apply Hjk. lia.
Qed.

(** C1 -- nearest eligible fit.  For a test point [(x, y)] whose [x] is a
    label of the grid, with deviations [|y - candidate(x)|] and tolerances
    [dts] for the fits, the row is classified, and: when no fit is
    eligible (deviation [<=] tolerance) the point is unassigned; when some
    fit is eligible with a finite deviation the point is assigned; and the
    assigned fit [k+1] is eligible, its deviation is recorded, is [<=] the
    deviation of every eligible fit and is strictly below the deviation of
    every eligible fit of lower index (the lowest index wins a tie). *)
Theorem classifier_nearest_eligible
    (training_data : Table) (ideal_functions_df : Frame)
    (funcs : list (option string)) (x_val y_val : float)
    (dts : list (float * float)) :
  measured training_data ideal_functions_df x_val y_val 0 funcs dts ->
  exists r,
    classify_row training_data ideal_functions_df funcs (x_val, y_val)
      = inr r /\
    x r = x_val /\ y r = y_val /\
    ((forall j d t, nth_error dts j = Some (d, t) -> (d <=? t) = false) ->
     ideal_func_no r = None) /\
    ((exists j d t, nth_error dts j = Some (d, t) /\ (d <=? t) = true /\
                    (d <? infinity) = true) ->
     ideal_func_no r <> None) /\
    (forall n, ideal_func_no r = Some n ->
       exists k d t,
         n = (k + 1)%nat /\ nth_error dts k = Some (d, t) /\
         (d <=? t) = true /\ delta_y r = d /\
         forall j d' t', nth_error dts j = Some (d', t') ->
                         (d' <=? t') = true ->
                         (d <=? d') = true /\
                         ((j < k)%nat -> (d <? d') = true)).
Proof.
  intros Hm. unfold classify_row. simpl.
  rewrite (fit_loop_measured _ _ _ _ _ _ _ Hm). simpl.
  destruct (choose 0 dts None infinity) as [b m] eqn:Hc.
  eexists. split; [reflexivity|]. simpl.
  do 2 (split; [reflexivity|]).
  destruct (choose_spec dts 0 None infinity b m eq_refl Hc)
    as [(-> & -> & Hrest)|(k & d & t & -> & Hk & Hdt & -> & Hd & Hrest)].
  - split; [reflexivity|]. split.
    + intros (j & d & t & Hj & He & Hfin).
      rewrite (Hrest _ _ _ Hj He) in Hfin. discriminate.
    + discriminate.
  - split.
    + intros Hnone. rewrite (Hnone _ _ _ Hk) in Hdt. discriminate.
    + split; [discriminate|].
      intros n [= <-]. exists k, d, t. auto 10.
Qed.

(** The theorem at the scenario of the specification with the signal
    [0; 1; 2; 4] (largest deviation 1) and the test point (1, 1.5). *)
Lemma classifier_nearest_eligible_witness :
  exists r,
    classify_row (Examples.training [0; 1; 2; 4]) Examples.frame
      Examples.funcs (1, 1.5) = inr r /\
    x r = 1 /\ y r = 1.5 /\
    ((forall j d t,
         nth_error (repeat (abs (1.5 - 1), np_sqrt_2 * 1) 4) j = Some (d, t) ->
         (d <=? t) = false) ->
     ideal_func_no r = None) /\
    ((exists j d t,
         nth_error (repeat (abs (1.5 - 1), np_sqrt_2 * 1) 4) j = Some (d, t) /\
         (d <=? t) = true /\ (d <? infinity) = true) ->
     ideal_func_no r <> None) /\
    (forall n, ideal_func_no r = Some n ->
       exists k d t,
         n = (k + 1)%nat /\
         nth_error (repeat (abs (1.5 - 1), np_sqrt_2 * 1) 4) k = Some (d, t) /\
         (d <=? t) = true /\ delta_y r = d /\
         forall j d' t',
           nth_error (repeat (abs (1.5 - 1), np_sqrt_2 * 1) 4) j
             = Some (d', t') ->
           (d' <=? t') = true ->
           (d <=? d') = true /\ ((j < k)%nat -> (d <? d') = true)).
Proof.
  apply (classifier_nearest_eligible (Examples.training [0; 1; 2; 4])
           Examples.frame Examples.funcs 1 1.5).
  repeat (apply measured_cons; [vm_compute; reflexivity ..|]).
  apply measured_nil.
Defined.

(** ** The tolerance: line 181 *)

(** In the scenario of the specification the grid 0, 1, 2, 3 is also the
    row numbering, the two Series align row by row, and the bound of
    line 181 is the bound of the specification. *)
Example bound_on_row_number_grid :
  max_abs_deviation (Examples.training [0; 1; 2; 4]) Examples.frame 0
    (Some "y1"%string)
  = inr (spec_max_abs_deviation [0; 1; 2; 4] [0; 1; 2; 3]).
Proof. vm_compute. reflexivity. Qed.

(** C3 -- the tolerance of line 181 on the grid 1, 2.  The signal [5; 7]
    equals its candidate, so the bound of the specification is 0 and its
    tolerance is 0.  Line 181 subtracts a Series indexed by row number
    (0, 1) and a Series indexed by [x] (1, 2): pandas pairs the training
    value of row 1 (7) with the candidate value at [x = 1] (5), the bound
    is 2, and the test point (1, 6), at deviation 1 from the candidate, is
    assigned to fit 1 although its deviation exceeds the tolerance of the
    specification. *)
Theorem tolerance_uses_label_alignment :
  best_ideal_funcs Examples.Shifted.training Examples.Shifted.frame
    = inr Examples.funcs /\
  spec_tolerance [5; 7] [5; 7] = 0 /\
  max_abs_deviation Examples.Shifted.training Examples.Shifted.frame 0
    (Some "y1"%string) = inr 2 /\
  max_allowed_deviation Examples.Shifted.training Examples.Shifted.frame 0
    (Some "y1"%string) = inr (np_sqrt_2 * 2) /\
  (1 <=? spec_tolerance [5; 7] [5; 7]) = false /\
  compute_results [(1, 6)] Examples.Shifted.db
    = inr [mkResult 1 6 1 (Some 1%nat)].
Proof. vm_compute. repeat split; reflexivity. Qed.

(** On the grid 10, 20 no row number is a grid value: every difference of
    line 181 is NaN, the tolerance is NaN, and the test point (10, 5),
    which lies on the candidate, is left unassigned although the tolerance
    of the specification is [np.sqrt(2) * 1]. *)
Example tolerance_nan_on_disjoint_labels :
  spec_tolerance [5; 8] [5; 7] = np_sqrt_2 * 1 /\
  max_allowed_deviation Examples.Disjoint.training Examples.Disjoint.frame 0
    (Some "y1"%string) = inr nan /\
  compute_results [(10, 5)] Examples.Disjoint.db
    = inr [mkResult 10 5 infinity None].
Proof. vm_compute. repeat split; reflexivity. Qed.

(** ** Unmatched points *)

(** C4, as stated, fails: in the scenario of the specification with the
    signal [0; 1; 2; 3] every tolerance is 0, the test point (1, 1.5) has
    no eligible fit, and its record carries [ideal_func_no = None] with
    the deviation field [delta_y = infinity], which is not null. *)
Lemma unmatched_deviation_not_null :
  measured (Examples.training [0; 1; 2; 3]) Examples.frame 1 1.5 0
    Examples.funcs (repeat (abs (1.5 - 1), np_sqrt_2 * 0) 4) /\
  (abs (1.5 - 1) <=? np_sqrt_2 * 0) = false /\
  classify_row (Examples.training [0; 1; 2; 3]) Examples.frame
    Examples.funcs (1, 1.5) = inr (mkResult 1 1.5 infinity None) /\
  isnull (delta_y (mkResult 1 1.5 infinity None)) = false.
Proof.
  split; [|vm_compute; repeat split; reflexivity].
  repeat (apply measured_cons; [vm_compute; reflexivity ..|]).
  apply measured_nil.
Qed.

(** C4, amended -- for a test point on the grid for which no fit is
    eligible, the record carries [ideal_func_no = None] and the deviation
    field keeps the initial value of [min_deviation], [float('inf')]. *)
Theorem unmatched_keeps_infinity
    (training_data : Table) (ideal_functions_df : Frame)
    (funcs : list (option string)) (x_val y_val : float)
    (dts : list (float * float)) :
  measured training_data ideal_functions_df x_val y_val 0 funcs dts ->
  (forall j d t, nth_error dts j = Some (d, t) -> (d <=? t) = false) ->
  classify_row training_data ideal_functions_df funcs (x_val, y_val)
  = inr (mkResult x_val y_val infinity None).
Proof.
  intros Hm Hnone. unfold classify_row. simpl.
  rewrite (fit_loop_measured _ _ _ _ _ _ _ Hm). simpl.
  destruct (choose 0 dts None infinity) as [b m] eqn:Hc.
  destruct (choose_spec dts 0 None infinity b m eq_refl Hc)
    as [(-> & -> & _)|(k & d & t & _ & Hk & Hdt & _)].
  - reflexivity.
  - rewrite (Hnone _ _ _ Hk) in Hdt. discriminate.
Qed.

Lemma unmatched_keeps_infinity_witness :
  classify_row (Examples.training [0; 1; 2; 3]) Examples.frame
    Examples.funcs (1, 1.5) = inr (mkResult 1 1.5 infinity None).
Proof.
  apply (unmatched_keeps_infinity (Examples.training [0; 1; 2; 3])
           Examples.frame Examples.funcs 1 1.5
           (repeat (abs (1.5 - 1), np_sqrt_2 * 0) 4)).
  - repeat (apply measured_cons; [vm_compute; reflexivity ..|]).
    apply measured_nil.
  - intros j d t Hj.
    do 4 (destruct j as [|j]; [injection Hj as <- <-; reflexivity|]).
    destruct j; discriminate.
Defined.

(** ** The batch of test points *)

Lemma getitem_raises df col e : getitem df col = inl e -> e = KeyError.
Proof.
  induction df as [|[c values] df IH]; simpl.
  - intros [= <-]. reflexivity.
  - destruct (String.eqb c col); [discriminate | exact IH].
Qed.

Lemma rows_at_missing label labels : forall values,
  (forall l, In l labels -> label_eqb l label = false) ->
  rows_at label (combine labels values) = [].
Proof.
  unfold rows_at.
  induction labels as [|l labels IH]; intros values Hmiss; [reflexivity|].
  destruct values as [|v values]; [reflexivity|]. simpl.
  rewrite (Hmiss l) by (left; reflexivity).
  apply IH. intros l' Hl'. apply Hmiss. right. exact Hl'.
Qed.

(** [.loc] raises [KeyError] for a label that is not in the index. *)
Lemma loc_missing frame label col :
  (forall l, In l (index frame) -> label_eqb l label = false) ->
  loc frame label col = inl KeyError.
Proof.
  intros Hmiss. destruct col as [c|]; [|reflexivity]. simpl.
  destruct (getitem (columns frame) c) as [e|values] eqn:E; simpl.
  - rewrite (getitem_raises _ _ _ E). reflexivity.
  - rewrite rows_at_missing by assumption. reflexivity.
Qed.

(** The row of a test point that is not on the grid raises [KeyError] at
    the first fit. *)
Lemma classify_row_missing training_data frame funcs row :
  funcs <> [] ->
  (forall l, In l (index frame) -> label_eqb l (fst row) = false) ->
  classify_row training_data frame funcs row = inl KeyError.
Proof.
  intros Hne Hmiss. destruct funcs as [|f funcs]; [congruence|].
  unfold classify_row. simpl. unfold deviation_of.
  rewrite loc_missing by assumption. reflexivity.
Qed.

Lemma best_ideal_funcs_length training_data frame funcs :
  best_ideal_funcs training_data frame = inr funcs ->
  List.length funcs = 4%nat.
Proof. intros H. apply for_each_length in H. exact H. Qed.

(** C5, as stated, fails: in the scenario of the specification the batch
    (1, 1), (1.5, 1), (2, 2) holds one point off the grid.  The run raises
    [KeyError]: no record is produced for any of the three points and the
    table [test_data] is not written, whereas the two points on the grid
    alone are classified. *)
Lemma lookup_miss_aborts_batch :
  process_test_data [(1, 1); (1.5, 1); (2, 2)] (Examples.db [0; 1; 2; 4])
    = (inl KeyError, Examples.db [0; 1; 2; 4]) /\
  compute_results [(1, 1); (2, 2)] (Examples.db [0; 1; 2; 4])
    = inr [mkResult 1 1 0 (Some 1%nat); mkResult 2 2 0 (Some 1%nat)].
Proof. vm_compute. split; reflexivity. Qed.

(** C5, amended -- when the selection has succeeded and some test point
    has an [x] that is not a label of the grid, the whole run raises an
    exception ([KeyError] at that point, unless an earlier point raised):
    no record is produced for any point and the database is left as it
    was. *)
Theorem lookup_miss_raises
    (tests : TestData) (db : Database) (ideal_functions_df : Frame)
    (funcs : list (option string)) (row : float * float) :
  set_index "x" (ideal_functions db) = inr ideal_functions_df ->
  best_ideal_funcs (training_data db) ideal_functions_df = inr funcs ->
  In row tests ->
  (forall l, In l (index ideal_functions_df) ->
             label_eqb l (fst row) = false) ->
  classify_row (training_data db) ideal_functions_df funcs row
    = inl KeyError /\
  exists e, process_test_data tests db = (inl e, db).
Proof.
  intros Hidx Hfuncs Hin Hmiss.
  assert (Hrow : classify_row (training_data db) ideal_functions_df funcs row
                 = inl KeyError).
  { apply classify_row_missing; [|assumption].
    apply best_ideal_funcs_length in Hfuncs.
    destruct funcs; [discriminate | congruence]. }
  split; [assumption|].
  destruct (for_each_raises
              (classify_row (training_data db) ideal_functions_df funcs)
              tests row Hin (ex_intro _ KeyError Hrow)) as (e & He).
  exists e. unfold process_test_data, compute_results.
  rewrite Hidx. simpl. rewrite Hfuncs. simpl. rewrite He. reflexivity.
Qed.

Lemma lookup_miss_raises_witness :
  classify_row (training_data (Examples.db [0; 1; 2; 4])) Examples.frame
    Examples.funcs (1.5, 1) = inl KeyError /\
  exists e,
    process_test_data [(1, 1); (1.5, 1); (2, 2)] (Examples.db [0; 1; 2; 4])
    = (inl e, Examples.db [0; 1; 2; 4]).
Proof.
  apply (lookup_miss_raises [(1, 1); (1.5, 1); (2, 2)]
           (Examples.db [0; 1; 2; 4]) Examples.frame Examples.funcs
           (1.5, 1)).
  - reflexivity.
  - vm_compute. reflexivity.
  - simpl. auto.
  - intros l Hl. simpl in Hl.
    repeat (destruct Hl as [<-|Hl]; [reflexivity|]). contradiction.
Defined.



(** ** Mismatched tables *)

(** The selection reads the candidate columns and never the index. *)
Lemma best_func_loop_index training_data idx idx' cols training_col names :
  forall min_mse best_func,
  best_func_loop training_data (mkFrame idx cols) training_col names
    min_mse best_func
  = best_func_loop training_data (mkFrame idx' cols) training_col names
      min_mse best_func.
Proof.
  induction names as [|col names IH]; intros m b; [reflexivity|].
  simpl. destruct (getitem training_data training_col); simpl; [reflexivity|].
  destruct (getitem cols col); simpl; [reflexivity|].
  destruct (mean_squared_error s s0); simpl; [reflexivity|].
  destruct (f <? m); apply IH.
Qed.

Lemma best_ideal_funcs_index training_data idx idx' cols :
  best_ideal_funcs training_data (mkFrame idx cols)
  = best_ideal_funcs training_data (mkFrame idx' cols).
Proof.
  unfold best_ideal_funcs. apply for_each_ext. intros i _.
  unfold best_fit. simpl. rewrite (best_func_loop_index _ idx idx').
  reflexivity.
Qed.

Lemma mean_squared_error_length y_true y_pred :
  List.length y_true <> List.length y_pred ->
  mean_squared_error y_true y_pred = inl ValueError.
Proof.
  intros H. unfold mean_squared_error.
  apply Nat.eqb_neq in H. rewrite H. reflexivity.
Qed.

(** C6, as stated, fails: the training table on the grid 0, 1, 2, 3 and
    the candidate table on the grid 10, 20, 30, 40 differ in every grid
    value, and the selection returns a candidate for each signal. *)
Lemma selection_ignores_grid_values :
  getitem (Examples.training [0; 1; 2; 3]) "x" = inr [0; 1; 2; 3] /\
  set_index "x" Examples.OtherGrid.ideal = inr Examples.OtherGrid.frame /\
  index Examples.OtherGrid.frame = [10; 20; 30; 40] /\
  best_ideal_funcs (Examples.training [0; 1; 2; 3]) Examples.OtherGrid.frame
    = inr Examples.funcs.
Proof. vm_compute. repeat split; reflexivity. Qed.

(** C6, amended -- when the first training column and the first candidate
    column differ in length, the first call of [mean_squared_error] raises
    [ValueError]: no error is computed and no candidate is recorded.  The
    grid values are not compared: the selection is the same whatever the
    index of the candidate table. *)
Theorem selection_checks_length_only
    (training_data : Table) (idx : list float) (cols : Table) :
  (forall signal col candidate cols',
      getitem training_data "y1" = inr signal ->
      cols = (col, candidate) :: cols' ->
      List.length signal <> List.length candidate ->
      best_ideal_funcs training_data (mkFrame idx cols) = inl ValueError) /\
  (forall idx',
      best_ideal_funcs training_data (mkFrame idx' cols)
      = best_ideal_funcs training_data (mkFrame idx cols)).
Proof.
  split.
  - intros signal col candidate cols' Hsig -> Hlen.
    unfold best_ideal_funcs. simpl. unfold best_fit. simpl.
    change (fstring_y 1) with "y1"%string. rewrite Hsig. simpl.
    rewrite String.eqb_refl. simpl.
    rewrite mean_squared_error_length by assumption. reflexivity.
  - intros idx'. apply best_ideal_funcs_index.
Qed.

Lemma selection_checks_length_only_witness :
  best_ideal_funcs (Examples.training [0; 1; 2])
    (mkFrame Examples.grid Examples.candidates) = inl ValueError /\
  best_ideal_funcs (Examples.training [0; 1; 2])
    (mkFrame Examples.OtherGrid.grid Examples.candidates)
  = best_ideal_funcs (Examples.training [0; 1; 2])
      (mkFrame Examples.grid Examples.candidates).
Proof.
  destruct (selection_checks_length_only (Examples.training [0; 1; 2])
              Examples.grid Examples.candidates) as [Hlen Hidx].
  split.
  - apply (Hlen [0; 1; 2] "y1"%string [0; 1; 2; 3]
             [("y2"%string, [0; 2; 4; 6])]).
    + reflexivity.
    + reflexivity.
    + simpl. lia.
  - apply Hidx.
Defined.

(** ** Monotonicity in the tolerance *)

(** A point taken by the fit [j] stays with it when the tolerance of [j]
    is raised. *)
Lemma choose_raised j dts dts' m :
  raised_at j dts dts' ->
  choose 0 dts None infinity = (Some (j + 1)%nat, m) ->
  choose 0 dts' None infinity = (Some (j + 1)%nat, m).
Proof.
  intros [Hlen Hrel] Hc.
  destruct (choose_spec dts 0 None infinity _ _ eq_refl Hc)
    as [(? & _)|(k & d & t & Hk1 & Hk & Hdt & -> & Hd & Hrest)];
    [discriminate|].
  assert (k = j) as -> by (injection Hk1; simpl; lia). clear Hk1.
  (* the fit [j] in [dts'] *)
  destruct (nth_error dts' j) as [[dj' tj']|] eqn:Hj'.
  2:{ apply nth_error_None in Hj'.
      assert (j < List.length dts)%nat
        by (apply nth_error_Some; congruence). lia. }
  destruct (Hrel _ _ _ _ _ Hk Hj') as (-> & _ & Htj).
  specialize (Htj eq_refl).
  assert (Hel' : (d <=? tj') = true)
    by (eapply FloatOrder.leb_trans; eassumption).
  destruct (choose 0 dts' None infinity) as [b' m'] eqn:Hc'.
  destruct (choose_spec dts' 0 None infinity _ _ eq_refl Hc')
    as [(-> & -> & Hnone)|(k' & d' & t' & -> & Hk' & Hdt' & -> & _ & Hrest')].
  - rewrite (Hnone _ _ _ Hj' Hel') in Hd. discriminate.
  - destruct (Hrest' _ _ _ Hj' Hel') as [Hle' Hlt'].
    destruct (Nat.eq_dec k' j) as [->|Hne].
    + rewrite Hj' in Hk'. injection Hk' as <- <-. reflexivity.
    + exfalso.
      (* the fit [k'] has the same tolerance in [dts] *)
      destruct (nth_error dts k') as [[dk tk]|] eqn:Hdk.
      2:{ apply nth_error_None in Hdk.
          assert (k' < List.length dts')%nat
            by (apply nth_error_Some; congruence). lia. }
      destruct (Hrel _ _ _ _ _ Hdk Hk') as (-> & Ht & _).
      rewrite (Ht Hne) in Hdt'.
      destruct (Hrest _ _ _ Hdk Hdt') as [Hle Hlt].
      destruct (Nat.lt_total k' j) as [Hkj|[?|Hjk]]; [|contradiction|].
      * rewrite (FloatOrder.leb_not_ltb _ _ Hle') in Hlt.
        specialize (Hlt Hkj). discriminate.
      * rewrite (FloatOrder.leb_not_ltb _ _ Hle) in Hlt'.
        specialize (Hlt' Hjk). discriminate.
Qed.

Lemma measured_raised training_data training_data' frame x_val y_val j
    funcs dts dts' :
  measured training_data frame x_val y_val 0 funcs dts ->
  measured training_data' frame x_val y_val 0 funcs dts' ->
  (forall k f, k <> j -> nth_error funcs k = Some f ->
     max_allowed_deviation training_data frame k f
     = max_allowed_deviation training_data' frame k f) ->
  (forall f m m', nth_error funcs j = Some f ->
     max_abs_deviation training_data frame j f = inr m ->
     max_abs_deviation training_data' frame j f = inr m' ->
     (m <=? m') = true) ->
  raised_at j dts dts'.
Proof.
  intros Hm Hm' Hother Hj. split.
  - rewrite (measured_length _ _ _ _ _ _ _ Hm).
    rewrite (measured_length _ _ _ _ _ _ _ Hm'). reflexivity.
  - intros k d t d' t' Hk Hk'.
    destruct (measured_nth _ _ _ _ _ _ _ Hm _ _ _ Hk)
      as (f & c & Hf & Hloc & -> & Ht).
    destruct (measured_nth _ _ _ _ _ _ _ Hm' _ _ _ Hk')
      as (f' & c' & Hf' & Hloc' & -> & Ht').
    simpl in Ht, Ht'.
    rewrite Hf in Hf'. injection Hf' as <-.
    rewrite Hloc in Hloc'. injection Hloc' as <-.
    split; [reflexivity|]. split.
    + intros Hne. rewrite (Hother _ _ Hne Hf) in Ht. congruence.
    + intros ->. unfold max_allowed_deviation in Ht, Ht'.
      inv_bind Ht. inv_bind Ht'.
      injection Ht as <-. injection Ht' as <-.
      eapply max_allowed_deviation_monotone; eauto.
Qed.

(** C8 -- tolerance monotonicity.  Two runs over the same test points,
    candidate table and selection, whose training tables give every fit
    but [j] the same tolerance and give the fit [j] the bounds [m] and
    [m'] with [m <= m']: every point assigned to the fit [j] in the first
    run is assigned to it, with the same record, in the second, so the
    number of points assigned to [j] does not decrease. *)
Theorem tolerance_monotonicity
    (training_data training_data' : Table) (ideal_functions_df : Frame)
    (funcs : list (option string)) (j : nat) (tests : TestData)
    (results results' : list ResultRow) :
  for_each (classify_row training_data ideal_functions_df funcs) tests
    = inr results ->
  for_each (classify_row training_data' ideal_functions_df funcs) tests
    = inr results' ->
  (forall k f, k <> j -> nth_error funcs k = Some f ->
     max_allowed_deviation training_data ideal_functions_df k f
     = max_allowed_deviation training_data' ideal_functions_df k f) ->
  (forall f m m', nth_error funcs j = Some f ->
     max_abs_deviation training_data ideal_functions_df j f = inr m ->
     max_abs_deviation training_data' ideal_functions_df j f = inr m' ->
     (m <=? m') = true) ->
  (forall k r r', nth_error results k = Some r ->
                  nth_error results' k = Some r' ->
                  ideal_func_no r = Some (j + 1)%nat -> r' = r) /\
  (count_assigned (j + 1) results <= count_assigned (j + 1) results')%nat.
Proof.
  intros Hres Hres' Hother Hj.
  assert (Hpoint : forall row r r',
             classify_row training_data ideal_functions_df funcs row = inr r ->
             classify_row training_data' ideal_functions_df funcs row
               = inr r' ->
             ideal_func_no r = Some (j + 1)%nat -> r' = r).
  { intros [xv yv] r r' Hr Hr' Hno.
    unfold classify_row in Hr, Hr'. simpl in Hr, Hr'.
    inv_bind Hr. inv_bind Hr'.
    destruct (fit_loop_inr _ _ _ _ _ _ _ _ _ Ha) as (dts & Hm).
    destruct (fit_loop_inr _ _ _ _ _ _ _ _ _ Ha0) as (dts' & Hm').
    rewrite (fit_loop_measured _ _ _ _ _ _ _ Hm) in Ha.
    rewrite (fit_loop_measured _ _ _ _ _ _ _ Hm') in Ha0.
    injection Ha as <-. injection Ha0 as <-.
    injection Hr as <-. injection Hr' as <-. simpl in Hno.
    destruct (choose 0 dts None infinity) as [b m] eqn:Hc.
    simpl in Hno. subst b.
    rewrite (choose_raised j dts dts' m
               (measured_raised _ _ _ _ _ _ _ _ _ Hm Hm' Hother Hj) Hc).
    reflexivity. }
  clear Hother Hj. revert results results' Hres Hres'.
  induction tests as [|row tests IH]; intros results results' Hres Hres';
    simpl in Hres, Hres'.
  - injection Hres as <-. injection Hres' as <-.
    split; [intros [|k] ? ? ?; discriminate | reflexivity].
  - inv_bind Hres. inv_bind Hres. injection Hres as <-.
    inv_bind Hres'. inv_bind Hres'. injection Hres' as <-.
    destruct (IH _ _ Ha0 Ha2) as [IHnth IHcount]. split.
    + intros [|k] r r' Hk Hk' Hno; simpl in Hk, Hk'.
      * injection Hk as <-. injection Hk' as <-. eauto.
      * eauto.
    + unfold count_assigned in *. simpl.
      destruct (assigned_to (j + 1) a) eqn:Has.
      * assert (a1 = a) as ->.
        { apply (Hpoint row); try assumption.
          unfold assigned_to in Has.
          destruct (ideal_func_no a) as [n|]; [|discriminate].
          apply Nat.eqb_eq in Has. congruence. }
        rewrite Has. simpl. lia.
      * destruct (assigned_to (j + 1) a1); simpl; lia.
Qed.

(** The theorem at the scenario of the specification: the first signal
    goes from [0; 1; 2; 3] (bound 0) to [0; 1; 2; 4] (bound 1), and the
    fit 1 goes from one of the two test points to both. *)
Lemma tolerance_monotonicity_witness :
  (forall k r r',
      nth_error [mkResult 1 1.5 infinity None; mkResult 2 2 0 (Some 1%nat)] k
        = Some r ->
      nth_error [mkResult 1 1.5 (abs (1.5 - 1)) (Some 1%nat);
                 mkResult 2 2 0 (Some 1%nat)] k = Some r' ->
      ideal_func_no r = Some (0 + 1)%nat -> r' = r) /\
  (count_assigned (0 + 1)
     [mkResult 1 1.5 infinity None; mkResult 2 2 0 (Some 1%nat)]
   <= count_assigned (0 + 1)
        [mkResult 1 1.5 (abs (1.5 - 1)) (Some 1%nat);
         mkResult 2 2 0 (Some 1%nat)])%nat.
Proof.
  apply (tolerance_monotonicity
           (Examples.training_with [0; 1; 2; 3] [0; 1; 2; 3])
           (Examples.training_with [0; 1; 2; 4] [0; 1; 2; 3])
           Examples.frame Examples.funcs 0 [(1, 1.5); (2, 2)]).
  - vm_compute. reflexivity.
  - vm_compute. reflexivity.
  - intros k f Hk Hf.
    do 4 (destruct k as [|k];
          [first [congruence | injection Hf as <-; reflexivity]|]).
    destruct k; discriminate.
  - intros f m m' Hf Hm Hm'. injection Hf as <-.
    vm_compute in Hm, Hm'. injection Hm as <-. injection Hm' as <-.
    reflexivity.
Defined.

(** ** Repeated runs *)

(** The results depend on the two input tables only. *)
Lemma compute_results_tables tests db previous :
  compute_results tests
    (mkDatabase (training_data db) (ideal_functions db) previous)
  = compute_results tests db.
Proof. reflexivity. Qed.

(** C9 -- determinism and idempotence.  A second run of
    [process_test_data] on the database the first run left returns what
    the first run returned (the same records, or the same exception) and
    leaves the same database; the selection it computes is the selection
    of the first run. *)
Theorem rerun_identical (tests : TestData) (db : Database) :
  process_test_data tests (snd (process_test_data tests db))
  = process_test_data tests db /\
  forall ideal_functions_df,
    best_ideal_funcs
      (training_data (snd (process_test_data tests db))) ideal_functions_df
    = best_ideal_funcs (training_data db) ideal_functions_df.
Proof.
  unfold process_test_data.
  destruct (compute_results tests db) as [e|results] eqn:E; simpl.
  - rewrite E. split; reflexivity.
  - destruct results as [|r results]; cbn [to_sql raise ret snd];
      rewrite compute_results_tables, E; split; reflexivity.
Qed.

(** ** The recorded number *)

(** C10 -- [ideal_func_no].  In a run that returns, every record is the
    classification of a point whose fits are measured, and its
    [ideal_func_no] is either [None], when no fit is eligible with a
    finite deviation, or a number [n] from 1 to 4: the position in
    [best_ideal_funcs] of the fit that matched, whose tolerance line 181
    computes from the training column [y<n>].  It is not the name of the
    candidate column, which is the entry [n - 1] of [best_ideal_funcs]. *)
Theorem ideal_func_no_is_signal_number
    (tests : TestData) (db : Database) (ideal_functions_df : Frame)
    (funcs : list (option string)) (results : list ResultRow) :
  set_index "x" (ideal_functions db) = inr ideal_functions_df ->
  best_ideal_funcs (training_data db) ideal_functions_df = inr funcs ->
  compute_results tests db = inr results ->
  forall r, In r results ->
  exists dts,
    measured (training_data db) ideal_functions_df (x r) (y r) 0 funcs dts /\
    match ideal_func_no r with
    | None =>
        delta_y r = infinity /\
        forall j d t, nth_error dts j = Some (d, t) -> (d <=? t) = true ->
                      (d <? infinity) = false
    | Some n =>
        (1 <= n <= 4)%nat /\
        exists ideal_func signal d t,
          nth_error funcs (n - 1) = Some ideal_func /\
          getitem (training_data db) (fstring_y n) = inr signal /\
          max_allowed_deviation (training_data db) ideal_functions_df
            (n - 1) ideal_func = inr t /\
          nth_error dts (n - 1) = Some (d, t) /\
          (d <=? t) = true /\ delta_y r = d
    end.
Proof.
  intros Hidx Hfuncs Hres r Hr.
  unfold compute_results in Hres. rewrite Hidx in Hres. simpl in Hres.
  rewrite Hfuncs in Hres. simpl in Hres.
  destruct (for_each_In _ _ _ Hres r Hr) as ([xv yv] & _ & Hrow).
  unfold classify_row in Hrow. simpl in Hrow. inv_bind Hrow.
  destruct (fit_loop_inr _ _ _ _ _ _ _ _ _ Ha) as (dts & Hm).
  rewrite (fit_loop_measured _ _ _ _ _ _ _ Hm) in Ha.
  injection Ha as <-. injection Hrow as <-. simpl.
  exists dts. split; [assumption|].
  destruct (choose 0 dts None infinity) as [b m] eqn:Hc. simpl.
  destruct (choose_spec dts 0 None infinity b m eq_refl Hc)
    as [(-> & -> & Hnone)|(k & d & t & -> & Hk & Hdt & -> & _)].
  - split; [reflexivity | exact Hnone].
  - destruct (measured_nth _ _ _ _ _ _ _ Hm _ _ _ Hk)
      as (f & c & Hf & Hloc & -> & Ht).
    simpl in Ht. simpl.
    assert (Hk4 : (k < 4)%nat).
    { rewrite <- (best_ideal_funcs_length _ _ _ Hfuncs).
      apply nth_error_Some. congruence. }
    replace (k + 1 - 1)%nat with k by lia.
    split; [lia|].
    pose proof Ht as Ht'. unfold max_allowed_deviation in Ht'.
    inv_bind Ht'. unfold max_abs_deviation in Ha. inv_bind Ha.
    exists f, a0, (abs (yv - c)), t. auto 10.
Qed.

(** The theorem at the scenario of the specification with the signal
    [0; 2; 4; 6]: the candidate selected for every signal is the column
    [y2], and the point (1, 2) is recorded with the number 1. *)
Lemma ideal_func_no_is_signal_number_witness :
  exists dts,
    measured (training_data (Examples.db [0; 2; 4; 6])) Examples.frame
      (x (mkResult 1 2 0 (Some 1%nat))) (y (mkResult 1 2 0 (Some 1%nat))) 0
      (repeat (Some "y2"%string) 4) dts /\
    (1 <= 1 <= 4)%nat /\
    exists ideal_func signal d t,
      nth_error (repeat (Some "y2"%string) 4) (1 - 1) = Some ideal_func /\
      getitem (training_data (Examples.db [0; 2; 4; 6])) (fstring_y 1)
        = inr signal /\
      max_allowed_deviation (training_data (Examples.db [0; 2; 4; 6]))
        Examples.frame (1 - 1) ideal_func = inr t /\
      nth_error dts (1 - 1) = Some (d, t) /\
      (d <=? t) = true /\ delta_y (mkResult 1 2 0 (Some 1%nat)) = d.
Proof.
  apply (ideal_func_no_is_signal_number [(1, 2)] (Examples.db [0; 2; 4; 6])
           Examples.frame (repeat (Some "y2"%string) 4)
           [mkResult 1 2 0 (Some 1%nat)]).
  - reflexivity.
  - vm_compute. reflexivity.
  - vm_compute. reflexivity.
  - left. reflexivity.
Defined.

(** * Further properties of [process_test_data]

    ** The selection loop: lines 159-170 *)

Section SelectionOrder.

Variable training_data : Table.
Variable ideal_functions_df : Frame.
Variable training_col : string.

(** The candidate recorded by the loop is the first of its columns whose
    error is below the starting minimum and is not beaten later: no column
    before it has an error [<=] the recorded one, no column after it has a
    smaller error. *)
Lemma best_func_loop_first cols : forall m0 b0 m b,
  best_func_loop training_data ideal_functions_df training_col
    cols m0 b0 = inr (m, b) ->
  (m = m0 /\ b = b0) \/
  exists pre c post,
    cols = pre ++ c :: post /\ b = Some c /\
    mse_of training_data ideal_functions_df training_col c = inr m /\
    (m <? m0) = true /\
    (forall c', In c' pre ->
       exists mc,
         mse_of training_data ideal_functions_df training_col c' = inr mc /\
         (mc <=? m) = false) /\
    (forall c', In c' post ->
       exists mc,
         mse_of training_data ideal_functions_df training_col c' = inr mc /\
         (mc <? m) = false).
Proof.
  induction cols as [|col cols IH]; intros m0 b0 m b H.
  - injection H as <- <-. auto.
  - pose proof H as Hloop. rewrite best_func_loop_step in H. inv_bind H.
    destruct (a <? m0) eqn:Hlt.
    + right.
      destruct (IH _ _ _ _ H)
        as [[-> ->]|(pre & c & post & -> & -> & Hc & Hm & Hpre & Hpost)].
      * exists [], col, cols.
        split; [reflexivity|]. split; [reflexivity|].
        split; [assumption|]. split; [assumption|].
        split; [intros c' []|].
        intros c' Hc'.
        exact (best_func_loop_lower _ _ _ _ _ _ _ _ H c' Hc').
      * exists (col :: pre), c, post.
        split; [reflexivity|]. split; [reflexivity|].
        split; [assumption|].
        split; [eapply FloatOrder.ltb_trans; eassumption|].
        split; [|assumption].
        intros c' [<-|Hc']; [|auto].
        exists a. split; [assumption|].
        apply FloatOrder.ltb_not_leb, Hm.
    + destruct (IH _ _ _ _ H)
        as [?|(pre & c & post & -> & -> & Hc & Hm & Hpre & Hpost)];
        [auto|].
      right. exists (col :: pre), c, post.
      split; [reflexivity|]. split; [reflexivity|].
      split; [assumption|]. split; [assumption|].
      split; [|assumption].
      intros c' [<-|Hc']; [|auto].
      exists a. split; [assumption|].
      destruct (a <=? m) eqn:Hle; [|reflexivity].
      rewrite (FloatOrder.leb_ltb_trans _ _ _ Hle Hm) in Hlt. discriminate.
Qed.

End SelectionOrder.

Lemma best_ideal_funcs_nth training_data ideal_functions_df funcs k b :
  best_ideal_funcs training_data ideal_functions_df = inr funcs ->
  nth_error funcs k = Some b ->
  (k < 4)%nat /\
  exists m, best_fit training_data ideal_functions_df (k + 1) = inr (m, b).
Proof.
  intros Hfuncs Hk.
  assert (Hk4 : (k < 4)%nat).
  { rewrite <- (best_ideal_funcs_length _ _ _ Hfuncs).
    apply nth_error_Some. congruence. }
  split; [assumption|].
  unfold best_ideal_funcs in Hfuncs.
  destruct (for_each_nth _ _ _ Hfuncs k (k + 1)%nat) as (b' & Hb & Hfit).
  { rewrite nth_error_nth' with (d := 0%nat) by (rewrite length_seq; lia).
    rewrite seq_nth by lia. f_equal. lia. }
  rewrite Hk in Hb. injection Hb as <-.
  inv_bind Hfit. destruct a as [m b']. simpl in Hfit.
  injection Hfit as ->. eauto.
Qed.

(** X1 -- ties in the selection.  The candidate recorded for the training
    column [y(k+1)] is the first column, in column order, that reaches the
    minimal mean squared error: no column before it has an error [<=] the
    recorded one, and no column after it has a smaller error (line 167
    replaces the candidate on a strict improvement only). *)
Theorem selection_first_minimum
    (training_data : Table) (ideal_functions_df : Frame)
    (funcs : list (option string)) (k : nat) (best : string) :
  best_ideal_funcs training_data ideal_functions_df = inr funcs ->
  nth_error funcs k = Some (Some best) ->
  exists pre post mse,
    columns_of (columns ideal_functions_df) = pre ++ best :: post /\
    mse_of training_data ideal_functions_df (fstring_y (k + 1)) best
      = inr mse /\
    (forall col, In col pre ->
       exists mse',
         mse_of training_data ideal_functions_df (fstring_y (k + 1)) col
           = inr mse' /\
         (mse' <=? mse) = false) /\
    (forall col, In col post ->
       exists mse',
         mse_of training_data ideal_functions_df (fstring_y (k + 1)) col
           = inr mse' /\
         (mse' <? mse) = false).
Proof.
  intros Hfuncs Hk.
  destruct (best_ideal_funcs_nth _ _ _ _ _ Hfuncs Hk) as (_ & m & Hfit).
  unfold best_fit in Hfit.
  destruct (best_func_loop_first _ _ _ _ _ _ _ _ Hfit)
    as [[_ ?]|(pre & c & post & Hcols & [= <-] & Hc & _ & Hpre & Hpost)];
    [discriminate|].
  exists pre, post, m. auto.
Qed.

(** Two candidates with the same values: the first one is recorded. *)
Lemma selection_first_minimum_witness :
  exists pre post mse,
    columns_of [("a", [0; 1]); ("b", [5; 5]); ("c", [0; 1])]%string
      = pre ++ "a"%string :: post /\
    mse_of [("y1", [0; 1]); ("y2", [0; 1]); ("y3", [0; 1]); ("y4", [0; 1])]%string
      (mkFrame [0; 1] [("a", [0; 1]); ("b", [5; 5]); ("c", [0; 1])]%string)
      (fstring_y (0 + 1)) "a" = inr mse /\
    (forall col, In col pre ->
       exists mse',
         mse_of [("y1", [0; 1]); ("y2", [0; 1]); ("y3", [0; 1]); ("y4", [0; 1])]%string
           (mkFrame [0; 1] [("a", [0; 1]); ("b", [5; 5]); ("c", [0; 1])]%string)
           (fstring_y (0 + 1)) col = inr mse' /\
         (mse' <=? mse) = false) /\
    (forall col, In col post ->
       exists mse',
         mse_of [("y1", [0; 1]); ("y2", [0; 1]); ("y3", [0; 1]); ("y4", [0; 1])]%string
           (mkFrame [0; 1] [("a", [0; 1]); ("b", [5; 5]); ("c", [0; 1])]%string)
           (fstring_y (0 + 1)) col = inr mse' /\
         (mse' <? mse) = false).
Proof.
  apply (selection_first_minimum
           [("y1", [0; 1]); ("y2", [0; 1]); ("y3", [0; 1]); ("y4", [0; 1])]%string
           (mkFrame [0; 1] [("a", [0; 1]); ("b", [5; 5]); ("c", [0; 1])]%string)
           [Some "a"; Some "a"; Some "a"; Some "a"]%string 0 "a").
  - vm_compute. reflexivity.
  - reflexivity.
Defined.

(** X2 -- when no candidate is recorded.  The entry of [best_ideal_funcs]
    for the training column [y(k+1)] is [None] exactly when no candidate
    column has a mean squared error below [float('inf')]: when there is
    no candidate column, or every error has overflowed to infinity. *)
Theorem selection_none_iff
    (training_data : Table) (ideal_functions_df : Frame)
    (funcs : list (option string)) (k : nat) (b : option string) :
  best_ideal_funcs training_data ideal_functions_df = inr funcs ->
  nth_error funcs k = Some b ->
  (b = None <->
   forall col mse,
     In col (columns_of (columns ideal_functions_df)) ->
     mse_of training_data ideal_functions_df (fstring_y (k + 1)) col
       = inr mse ->
     (mse <? infinity) = false).
Proof.
  intros Hfuncs Hk.
  destruct (best_ideal_funcs_nth _ _ _ _ _ Hfuncs Hk) as (_ & m & Hfit).
  unfold best_fit in Hfit.
  destruct (best_func_loop_first _ _ _ _ _ _ _ _ Hfit)
    as [[-> ->]|(pre & c & post & Hcols & -> & Hc & Hm & _)].
  - split; [|reflexivity]. intros _ col mse Hcol Hmse.
    destruct (best_func_loop_lower _ _ _ _ _ _ _ _ Hfit col Hcol)
      as (mse' & Hmse' & Hlt).
    congruence.
  - split; [discriminate|]. intros Hnone. exfalso.
    rewrite (Hnone c m) in Hm; [discriminate| |assumption].
    rewrite Hcols. apply in_or_app. right. left. reflexivity.
Qed.

(** The scenario of the specification with candidate values whose squares
    overflow: no candidate is recorded. *)
Lemma selection_none_iff_witness :
  (@None string = None <->
   forall col mse,
     In col (columns_of (columns (mkFrame [0] [("y1", [0x1p1000])]%string))) ->
     mse_of [("y1", [0]); ("y2", [0]); ("y3", [0]); ("y4", [0])]%string
       (mkFrame [0] [("y1", [0x1p1000])]%string) (fstring_y (0 + 1)) col
       = inr mse ->
     (mse <? infinity) = false).
Proof.
  apply (selection_none_iff
           [("y1", [0]); ("y2", [0]); ("y3", [0]); ("y4", [0])]%string
           (mkFrame [0] [("y1", [0x1p1000])]%string)
           [None; None; None; None] 0 None).
  - vm_compute. reflexivity.
  - reflexivity.
Defined.

(** ** Further facts on floats *)

Lemma is_nan_true (v : float) : is_nan v = true -> v = nan.
Proof.
  unfold is_nan. rewrite eqb_spec. intros H.
  apply Prim2SF_inj. change (Prim2SF nan) with S754_nan.
  destruct (Prim2SF v) as [s|s| |s m e] eqn:E; try reflexivity;
    rewrite FloatRound.SFnumber_eqb in H by exact I; discriminate H.
Qed.

(** A NaN operand gives a NaN deviation. *)
Lemma abs_sub_nan (c : float) : is_nan (abs (nan - c)) = true.
Proof.
  unfold is_nan. rewrite eqb_spec, abs_spec, sub_spec.
  change (Prim2SF nan) with S754_nan. reflexivity.
Qed.

(** A number that is not negative is at least zero. *)
Lemma leb_zero (v : float) :
  FloatValue.SFnonneg (Prim2SF v) -> is_nan v = false -> (0 <=? v) = true.
Proof.
  intros Hn Hv. apply FloatOrder.is_nan_false in Hv.
  rewrite eqb_spec in Hv. rewrite leb_spec.
  change (Prim2SF 0) with (S754_zero false).
  destruct (Prim2SF v) as [s|s| |s m e]; simpl in Hn; subst;
    try reflexivity.
  discriminate Hv.
Qed.

(** An absolute value that is at most zero is zero. *)
Lemma abs_leb_zero (v : float) : (abs v <=? 0) = true -> abs v = 0.
Proof.
  rewrite leb_spec. intros H. apply Prim2SF_inj. revert H.
  rewrite abs_spec. change (Prim2SF 0) with (S754_zero false).
  destruct (Prim2SF v) as [s|s| |s m e]; simpl; try discriminate;
    reflexivity.
Qed.

(** The difference of a finite float and itself is zero. *)
Lemma abs_sub_diag (c : float) : is_finite c = true -> abs (c - c) = 0.
Proof.
  intros Hc. apply FloatRound.is_finite_fin in Hc.
  apply Prim2SF_inj. rewrite abs_spec, sub_spec.
  change (Prim2SF 0) with (S754_zero false).
  destruct (Prim2SF c) as [s|s| |s m e]; simpl in Hc; try contradiction.
  - destruct s; reflexivity.
  - unfold SF64sub, SFsub. rewrite Z.min_id.
    destruct (FloatRound.shl_align_spec m e e) as (mz & ez & -> & _ & _).
    simpl. rewrite Z.sub_diag. reflexivity.
Qed.

Lemma ltb_infinity_finite (v : float) :
  FloatValue.SFnonneg (Prim2SF v) -> (v <? infinity) = true ->
  is_finite v = true.
Proof.
  unfold is_finite, is_nan, is_infinity.
  rewrite ltb_spec, !eqb_spec, abs_spec.
  change (Prim2SF infinity) with (S754_infinity false).
  destruct (Prim2SF v) as [s|s| |s m e]; simpl; intros Hs; subst;
    try discriminate; try reflexivity.
  intros _.
  rewrite (FloatRound.SFnumber_eqb (S754_finite false m e)) by exact I.
  reflexivity.
Qed.

(** The quotient of a number that is not negative by a positive finite
    number is not negative. *)
Lemma SF64div_signed x md ed :
  FloatValue.SFsigned false x ->
  FloatValue.SFsigned false (SF64div x (S754_finite false md ed)).
Proof.
  destruct x as [sx|sx| |sx mx ex]; simpl; try contradiction; intros ->;
    try reflexivity.
  unfold SFdiv_core_binary.
  set (m' := match _ with Z0 => Zpos mx | Zpos _ => _ | Zneg _ => 0%Z end).
  assert (Hm' : (0 <= m')%Z).
  { unfold m'. destruct (_ - _ - _)%Z; try lia.
    apply Z.shiftl_nonneg. lia. }
  pose proof (FloatRound.div_eucl_nonneg m' (Zpos md) Hm' ltac:(lia)) as Hq.
  destruct (Z.div_eucl m' (Zpos md)) as [q r]. simpl in Hq.
  apply FloatRound.binary_round_aux_signed. exact Hq.
Qed.

(** The mean squared error of validated inputs is at least zero. *)
Lemma mean_squared_error_nonneg y_true y_pred mse :
  mean_squared_error y_true y_pred = inr mse ->
  (Z.of_nat (List.length y_true) < 2 ^ 63)%Z ->
  (0 <=? mse) = true.
Proof.
  intros H Hlen.
  pose proof (mean_squared_error_number _ _ _ H Hlen) as Hnum.
  apply leb_zero; [|exact Hnum].
  revert H. unfold mean_squared_error.
  destruct (List.length y_true =? List.length y_pred)%nat; [|discriminate].
  destruct (List.length y_true =? 0)%nat eqn:Hn; [discriminate|].
  destruct (forallb is_finite y_true && forallb is_finite y_pred) eqn:Hf;
    [|discriminate].
  simpl. intros [= <-].
  apply andb_prop in Hf. destruct Hf as [Ht Hp].
  rewrite forallb_forall in Ht, Hp. apply Nat.eqb_neq in Hn.
  destruct (of_nat_finite (List.length y_true) ltac:(lia) Hlen)
    as (m & e & Hd).
  apply FloatRound.SFsigned_nonneg. rewrite div_spec, Hd.
  apply SF64div_signed. apply fold_add_signed.
  - intros s Hs. apply in_map_iff in Hs. destruct Hs as ([a b] & <- & Hab).
    simpl. rewrite mul_spec, sub_spec.
    apply FloatRound.SF64mul_square, FloatRound.SF64sub_number;
      apply FloatRound.is_finite_fin.
    + apply Ht. eapply in_combine_l; eassumption.
    + apply Hp. eapply in_combine_r; eassumption.
  - reflexivity.
Qed.

(** ** The records of a run: lines 172-185 *)

(** Every record of a run that returns is the classification of one test
    point: its fits are measured and [choose] gives its two fields. *)
Lemma compute_results_record tests db results r :
  compute_results tests db = inr results -> In r results ->
  exists ideal_functions_df funcs dts row,
    set_index "x" (ideal_functions db) = inr ideal_functions_df /\
    best_ideal_funcs (training_data db) ideal_functions_df = inr funcs /\
    In row tests /\ x r = fst row /\ y r = snd row /\
    measured (training_data db) ideal_functions_df (x r) (y r) 0 funcs dts /\
    choose 0 dts None infinity = (ideal_func_no r, delta_y r).
Proof.
  intros Hres Hr. unfold compute_results in Hres.
  inv_bind Hres. inv_bind Hres.
  destruct (for_each_In _ _ _ Hres r Hr) as ([xv yv] & Hin & Hrow).
  unfold classify_row in Hrow. simpl in Hrow. inv_bind Hrow.
  destruct (fit_loop_inr _ _ _ _ _ _ _ _ _ Ha1) as (dts & Hm).
  rewrite (fit_loop_measured _ _ _ _ _ _ _ Hm) in Ha1.
  injection Ha1 as <-. injection Hrow as <-. simpl.
  exists a, a0, dts, (xv, yv).
  do 5 (split; [first [assumption|reflexivity]|]).
  split; [assumption|]. apply surjective_pairing.
Qed.

(** X3 -- the deviation field.  In the records of a run that returns,
    [delta_y] is [float('inf')] exactly on the unassigned records; on an
    assigned record it is a finite number that is not negative. *)
Theorem delta_y_infinite_iff_unassigned
    (tests : TestData) (db : Database) (results : list ResultRow)
    (r : ResultRow) :
  compute_results tests db = inr results -> In r results ->
  (ideal_func_no r = None <-> delta_y r = infinity) /\
  (ideal_func_no r <> None ->
   (0 <=? delta_y r) = true /\ is_finite (delta_y r) = true).
Proof.
  intros Hres Hr.
  destruct (compute_results_record _ _ _ _ Hres Hr)
    as (F & funcs & dts & row & _ & _ & _ & _ & _ & Hm & Hc).
  destruct (choose_spec dts 0 None infinity _ _ eq_refl Hc)
    as [(-> & -> & _)|(k & d & t & -> & Hk & Hdt & -> & Hd & _)].
  - split; [split; reflexivity|]. intros H. contradiction H. reflexivity.
  - destruct (measured_nth _ _ _ _ _ _ _ Hm _ _ _ Hk)
      as (f & c & _ & _ & Hdev & _).
    assert (Hnn : FloatValue.SFnonneg (Prim2SF d))
      by (rewrite Hdev; apply FloatRound.abs_nonneg).
    split.
    + split; [discriminate|]. intros E. rewrite E in Hd.
      rewrite FloatOrder.ltb_irrefl in Hd. discriminate.
    + intros _. split.
      * apply leb_zero; [assumption|].
        eapply FloatOrder.ltb_not_nan_l; eassumption.
      * apply ltb_infinity_finite; assumption.
Qed.

Lemma delta_y_infinite_iff_unassigned_witness :
  (ideal_func_no (mkResult 1 1.5 0.5 (Some 1%nat)) = None
   <-> delta_y (mkResult 1 1.5 0.5 (Some 1%nat)) = infinity) /\
  (ideal_func_no (mkResult 1 1.5 0.5 (Some 1%nat)) <> None ->
   (0 <=? delta_y (mkResult 1 1.5 0.5 (Some 1%nat))) = true /\
   is_finite (delta_y (mkResult 1 1.5 0.5 (Some 1%nat))) = true).
Proof.
  apply (delta_y_infinite_iff_unassigned
           [(1, 1.5); (2, 7)] (Examples.db [0; 1; 2; 4])
           [mkResult 1 1.5 0.5 (Some 1%nat); mkResult 2 7 infinity None]).
  - vm_compute. reflexivity.
  - left. reflexivity.
Defined.

(** X4 -- a missing [y].  A test point whose [y] is NaN (an empty cell of
    the test file) is never assigned: its deviation from every candidate
    is NaN, and no comparison with a NaN holds. *)
Theorem nan_y_unassigned
    (tests : TestData) (db : Database) (results : list ResultRow)
    (r : ResultRow) :
  compute_results tests db = inr results -> In r results ->
  is_nan (y r) = true ->
  ideal_func_no r = None /\ delta_y r = infinity.
Proof.
  intros Hres Hr Hnan.
  destruct (compute_results_record _ _ _ _ Hres Hr)
    as (F & funcs & dts & row & _ & _ & _ & _ & _ & Hm & Hc).
  destruct (choose_spec dts 0 None infinity _ _ eq_refl Hc)
    as [(-> & -> & _)|(k & d & t & _ & Hk & Hdt & _)].
  - split; reflexivity.
  - destruct (measured_nth _ _ _ _ _ _ _ Hm _ _ _ Hk)
      as (f & c & _ & _ & Hdev & _).
    apply FloatOrder.leb_not_nan_l in Hdt.
    rewrite Hdev, (is_nan_true _ Hnan), abs_sub_nan in Hdt.
    discriminate.
Qed.

Lemma nan_y_unassigned_witness :
  ideal_func_no (mkResult 1 nan infinity None) = None /\
  delta_y (mkResult 1 nan infinity None) = infinity.
Proof.
  apply (nan_y_unassigned
           [(1, nan); (2, 2)] (Examples.db [0; 1; 2; 4])
           [mkResult 1 nan infinity None; mkResult 2 2 0 (Some 1%nat)]).
  - vm_compute. reflexivity.
  - left. reflexivity.
  - reflexivity.
Defined.

(** ** The tolerance in general: line 181 *)

Lemma getitem_In df col values :
  getitem df col = inr values -> In (col, values) df.
Proof.
  induction df as [|[c vs] df IH]; simpl; [discriminate|].
  destruct (String.eqb c col) eqn:E.
  - intros [= <-]. apply String.eqb_eq in E. subst c. left. reflexivity.
  - intros H. right. apply IH, H.
Qed.

Lemma getitem_columns df col :
  In col (columns_of df) -> exists values, getitem df col = inr values.
Proof.
  unfold columns_of.
  induction df as [|[c vs] df IH]; simpl; [contradiction|].
  intros H. destruct (String.eqb c col) eqn:E; [eexists; reflexivity|].
  destruct H as [->|H]; [|apply IH, H].
  rewrite String.eqb_refl in E. discriminate.
Qed.

Lemma getitem_missing df col :
  (forall values, ~ In (col, values) df) -> getitem df col = inl KeyError.
Proof.
  intros H. destruct (getitem df col) as [e|values] eqn:E.
  - rewrite (getitem_raises _ _ _ E). reflexivity.
  - apply getitem_In in E. destruct (H _ E).
Qed.

Lemma np_sqrt_2_mul_sign (m : float) :
  FloatValue.SFnonneg (Prim2SF m) ->
  is_nan (np_sqrt_2 * m) = true \/ (0 <=? np_sqrt_2 * m) = true.
Proof.
  intros Hnn. destruct (is_nan m) eqn:Hnan.
  - left. rewrite (is_nan_true _ Hnan). vm_compute. reflexivity.
  - right. change 0 with (np_sqrt_2 * 0).
    apply FloatRound.np_sqrt_2_monotone; [exact I|assumption|].
    apply leb_zero; assumption.
Qed.

(** X5 -- the sign of the tolerance.  The tolerance that line 181
    computes is never negative: it is NaN, when the two Series share no
    label, or a number that is at least zero. *)
Theorem tolerance_not_negative
    (training_data : Table) (ideal_functions_df : Frame) (idx : nat)
    (ideal_func : option string) (t : float) :
  max_allowed_deviation training_data ideal_functions_df idx ideal_func
    = inr t ->
  is_nan t = true \/ (0 <=? t) = true.
Proof.
  unfold max_allowed_deviation. intros H. inv_bind H. injection H as <-.
  eapply np_sqrt_2_mul_sign, max_abs_deviation_nonneg. eassumption.
Qed.

Lemma tolerance_not_negative_witness :
  is_nan (np_sqrt_2 * 1) = true \/ (0 <=? np_sqrt_2 * 1) = true.
Proof.
  apply (tolerance_not_negative (Examples.training [0; 1; 2; 4])
           Examples.frame 0 (Some "y1"%string) (np_sqrt_2 * 1)).
  vm_compute. reflexivity.
Defined.

(** The tolerance of a fit is NaN when no row number of the training
    table is an [x] value of the candidate table. *)
Lemma max_allowed_deviation_disjoint training_data frame idx ideal_func
    t n :
  (forall col values, In (col, values) training_data ->
                      (List.length values <= n)%nat) ->
  (forall i l, (i < n)%nat -> In l (index frame) ->
               label_eqb l (of_nat i) = false) ->
  max_allowed_deviation training_data frame idx ideal_func = inr t ->
  t = nan.
Proof.
  intros Hrows Hdis H. unfold max_allowed_deviation in H.
  inv_bind H. injection H as <-.
  destruct (max_abs_deviation_pairs _ _ _ _ _ Ha)
    as [->|(signal & candidate & i & j & sa & sb & x_j &
            Hs & _ & Hi & Hj & _ & Hlab & _)].
  - vm_compute. reflexivity.
  - exfalso. rewrite (Hdis i x_j) in Hlab; [discriminate| |].
    + apply getitem_In, Hrows in Hs.
      assert (i < List.length signal)%nat
        by (apply nth_error_Some; congruence).
      lia.
    + eapply nth_error_In; eassumption.
Qed.

(** X6 -- a grid away from the row numbers.  When no row number
    0, 1, ..., n-1 of the training table is an [x] value of the ideal
    table, the two Series of line 181 share no label, every tolerance is
    NaN, and every record of a run that returns is unassigned, however
    close the test point is to a candidate. *)
Theorem unassigned_when_no_row_number_on_grid
    (tests : TestData) (db : Database) (ideal_functions_df : Frame)
    (n : nat) (results : list ResultRow) :
  set_index "x" (ideal_functions db) = inr ideal_functions_df ->
  (forall col values, In (col, values) (training_data db) ->
                      (List.length values <= n)%nat) ->
  (forall i l, (i < n)%nat -> In l (index ideal_functions_df) ->
               label_eqb l (of_nat i) = false) ->
  compute_results tests db = inr results ->
  forall r, In r results ->
    ideal_func_no r = None /\ delta_y r = infinity.
Proof.
  intros Hidx Hrows Hdis Hres r Hr.
  destruct (compute_results_record _ _ _ _ Hres Hr)
    as (F & funcs & dts & row & HF & _ & _ & _ & _ & Hm & Hc).
  rewrite Hidx in HF. injection HF as <-.
  destruct (choose_spec dts 0 None infinity _ _ eq_refl Hc)
    as [(-> & -> & _)|(k & d & t & _ & Hk & Hdt & _)].
  - split; reflexivity.
  - destruct (measured_nth _ _ _ _ _ _ _ Hm _ _ _ Hk)
      as (f & c & _ & _ & _ & Ht).
    rewrite (max_allowed_deviation_disjoint _ _ _ _ _ _ Hrows Hdis Ht)
      in Hdt.
    apply FloatOrder.leb_not_nan_r in Hdt. discriminate.
Qed.

(** The theorem on the grid 10, 20: the point (10, 5) lies on the
    candidate and is unassigned. *)
Lemma unassigned_when_no_row_number_on_grid_witness :
  ideal_func_no (mkResult 10 5 infinity None) = None /\
  delta_y (mkResult 10 5 infinity None) = infinity.
Proof.
  apply (unassigned_when_no_row_number_on_grid
           [(10, 5)] Examples.Disjoint.db Examples.Disjoint.frame 2
           [mkResult 10 5 infinity None]).
  - reflexivity.
  - intros col values H. simpl in H.
    repeat (destruct H as [[= <- <-]|H]; [simpl; lia|]). contradiction.
  - intros i l Hi H. simpl in H.
    destruct i as [|[|i]]; [| |lia];
      repeat (destruct H as [<-|H]; [reflexivity|]); contradiction.
  - vm_compute. reflexivity.
  - left. reflexivity.
Defined.

(** ** A test point on a candidate *)

Lemma mean_squared_error_finite y_true y_pred mse :
  mean_squared_error y_true y_pred = inr mse ->
  forall v, In v y_pred -> is_finite v = true.
Proof.
  unfold mean_squared_error.
  destruct (List.length y_true =? List.length y_pred)%nat; [|discriminate].
  destruct (List.length y_true =? 0)%nat; [discriminate|].
  destruct (forallb is_finite y_true && forallb is_finite y_pred) eqn:Hf;
    [|discriminate].
  intros _. apply andb_prop in Hf. destruct Hf as [_ Hp].
  rewrite forallb_forall in Hp. exact Hp.
Qed.

(** A recorded candidate was measured against its training column. *)
Lemma best_ideal_funcs_recorded training_data frame funcs k c :
  best_ideal_funcs training_data frame = inr funcs ->
  nth_error funcs k = Some (Some c) ->
  exists mse,
    mse_of training_data frame (fstring_y (k + 1)) c = inr mse /\
    (mse <? infinity) = true.
Proof.
  intros Hfuncs Hk.
  destruct (best_ideal_funcs_nth _ _ _ _ _ Hfuncs Hk) as (_ & m & Hfit).
  unfold best_fit in Hfit.
  destruct (best_func_loop_first _ _ _ _ _ _ _ _ Hfit)
    as [[_ ?]|(pre & c' & post & _ & [= <-] & Hc & Hm & _)];
    [discriminate|].
  eauto.
Qed.

(** The value that [.loc] gives is a value of the column. *)
Lemma loc_scalar_In frame label c v :
  loc frame label (Some c) = inr (Scalar v) ->
  exists values, getitem (columns frame) c = inr values /\ In v values.
Proof.
  simpl. intros H. inv_bind H. exists a. split; [assumption|].
  assert (Hin : In v (rows_at label (combine (index frame) a))).
  { destruct (rows_at label (combine (index frame) a)) as [|v1 [|v2 vs]];
      try discriminate.
    injection H as <-. left. reflexivity. }
  apply in_rows_at in Hin. destruct Hin as (l & Hl & _).
  eapply in_combine_r; eassumption.
Qed.

(** X7 -- a test point on a candidate.  In a run that returns, a test
    point that lies exactly on the candidate of the fit [k+1], whose
    tolerance is a number, is assigned with [delta_y = 0], to that fit or
    to one before it. *)
Theorem point_on_candidate_assigned
    (tests : TestData) (db : Database) (ideal_functions_df : Frame)
    (funcs : list (option string)) (results : list ResultRow)
    (r : ResultRow) (k : nat) (ideal_func : option string) (t : float) :
  set_index "x" (ideal_functions db) = inr ideal_functions_df ->
  best_ideal_funcs (training_data db) ideal_functions_df = inr funcs ->
  compute_results tests db = inr results -> In r results ->
  nth_error funcs k = Some ideal_func ->
  loc ideal_functions_df (x r) ideal_func = inr (Scalar (y r)) ->
  max_allowed_deviation (training_data db) ideal_functions_df k ideal_func
    = inr t ->
  is_nan t = false ->
  delta_y r = 0 /\
  exists n, ideal_func_no r = Some n /\ (1 <= n <= k + 1)%nat.
Proof.
  intros Hidx Hfuncs Hres Hr Hk Hloc Ht Hnan.
  destruct (compute_results_record _ _ _ _ Hres Hr)
    as (F & funcs' & dts & row & HF & Hf' & _ & _ & _ & Hm & Hc).
  rewrite Hidx in HF. injection HF as <-.
  rewrite Hfuncs in Hf'. injection Hf' as <-.
  (* the candidate value is finite: the column passed the validation *)
  assert (Hfin : is_finite (y r) = true).
  { destruct ideal_func as [c|]; [|discriminate].
    destruct (best_ideal_funcs_recorded _ _ _ _ _ Hfuncs Hk)
      as (mse & Hmse & _).
    destruct (loc_scalar_In _ _ _ _ Hloc) as (values & Hv & Hin).
    unfold mse_of in Hmse. inv_bind Hmse. inv_bind Hmse.
    rewrite Hv in Ha0. injection Ha0 as <-.
    eapply mean_squared_error_finite; eassumption. }
  (* the entry of the fit: deviation zero, eligible *)
  assert (Hlen : (k < List.length dts)%nat).
  { rewrite (measured_length _ _ _ _ _ _ _ Hm).
    apply nth_error_Some. congruence. }
  destruct (nth_error dts k) as [[d t']|] eqn:Hdk;
    [|apply nth_error_None in Hdk; lia].
  destruct (measured_nth _ _ _ _ _ _ _ Hm _ _ _ Hdk)
    as (f & c & Hf & Hlocf & Hd & Htf).
  rewrite Hk in Hf. injection Hf as <-.
  rewrite Hloc in Hlocf. injection Hlocf as <-.
  simpl in Htf. rewrite Ht in Htf. injection Htf as <-.
  rewrite (abs_sub_diag _ Hfin) in Hd. subst d.
  assert (Hel : (0 <=? t) = true).
  { pose proof Ht as Ht'. unfold max_allowed_deviation in Ht'.
    inv_bind Ht'. injection Ht' as Ht'.
    destruct (np_sqrt_2_mul_sign a
                (max_abs_deviation_nonneg _ _ _ _ _ Ha)) as [E|E];
      rewrite Ht' in E; [congruence|exact E]. }
  destruct (choose_spec dts 0 None infinity _ _ eq_refl Hc)
    as [(_ & _ & Hnone)|(k' & d' & t' & Hb & Hk' & Hdt' & Hd' & _ & Hmin)].
  - pose proof (Hnone _ _ _ Hdk Hel) as E. vm_compute in E. discriminate E.
  - destruct (Hmin _ _ _ Hdk Hel) as [Hle Hlt].
    destruct (measured_nth _ _ _ _ _ _ _ Hm _ _ _ Hk')
      as (f' & c' & _ & _ & Hdev & _).
    split.
    + rewrite Hd', Hdev. apply abs_leb_zero. rewrite <- Hdev. exact Hle.
    + exists (0 + k' + 1)%nat. split; [exact Hb|].
      destruct (Nat.lt_ge_cases k k') as [Hkk|Hkk]; [|lia].
      exfalso. specialize (Hlt Hkk).
      apply FloatOrder.ltb_not_leb in Hlt.
      rewrite leb_zero in Hlt; [discriminate| |].
      * rewrite Hdev. apply FloatRound.abs_nonneg.
      * eapply FloatOrder.leb_not_nan_l; eassumption.
Qed.

(** The theorem in the scenario of the specification: the point (2, 2)
    lies on the candidate [y1] of the first fit. *)
Lemma point_on_candidate_assigned_witness :
  delta_y (mkResult 2 2 0 (Some 1%nat)) = 0 /\
  exists n, ideal_func_no (mkResult 2 2 0 (Some 1%nat)) = Some n /\
            (1 <= n <= 0 + 1)%nat.
Proof.
  apply (point_on_candidate_assigned
           [(2, 2)] (Examples.db [0; 1; 2; 4]) Examples.frame Examples.funcs
           [mkResult 2 2 0 (Some 1%nat)] (mkResult 2 2 0 (Some 1%nat))
           0 (Some "y1"%string) (np_sqrt_2 * 1)).
  - reflexivity.
  - vm_compute. reflexivity.
  - vm_compute. reflexivity.
  - left. reflexivity.
  - reflexivity.
  - vm_compute. reflexivity.
  - vm_compute. reflexivity.
  - vm_compute. reflexivity.
Defined.

(** ** Runs that raise *)

Lemma for_each_app {A B} (f : A -> result B) l1 l2 :
  for_each f (l1 ++ l2) =
  (bs1 <- for_each f l1 ;; bs2 <- for_each f l2 ;; ret (bs1 ++ bs2)).
Proof.
  induction l1 as [|a l1 IH]; simpl.
  - destruct (for_each f l2); reflexivity.
  - destruct (f a) as [e|b]; simpl; [reflexivity|].
    rewrite IH. destruct (for_each f l1) as [e|bs1]; simpl; [reflexivity|].
    destruct (for_each f l2); reflexivity.
Qed.

(** X8 -- batches.  The test points are classified one by one, against
    tables that the loop does not change: the records of a batch
    [tests1 ++ tests2] are the records of [tests1] followed by those of
    [tests2], and the batch raises the first exception that the two parts
    raise in this order. *)
Theorem batch_concatenation (tests1 tests2 : TestData) (db : Database) :
  compute_results (tests1 ++ tests2) db =
  (results1 <- compute_results tests1 db ;;
   results2 <- compute_results tests2 db ;;
   ret (results1 ++ results2)).
Proof.
  unfold compute_results.
  destruct (set_index "x" (ideal_functions db)) as [e|F]; simpl;
    [reflexivity|].
  destruct (best_ideal_funcs (training_data db) F) as [e|funcs]; simpl;
    [reflexivity|].
  apply for_each_app.
Qed.

(** X9 -- an ideal table without the column [x].  Line 155 raises
    [KeyError]: nothing is selected or classified, and the database is
    left as it was. *)
Theorem missing_x_column_raises (tests : TestData) (db : Database) :
  (forall values, ~ In ("x"%string, values) (ideal_functions db)) ->
  process_test_data tests db = (inl KeyError, db).
Proof.
  intros H. unfold process_test_data, compute_results, set_index.
  rewrite (getitem_missing _ _ H). reflexivity.
Qed.

Lemma missing_x_column_raises_witness :
  process_test_data [(1, 1)]
    (mkDatabase (Examples.training [0; 1; 2; 4]) Examples.candidates None)
  = (inl KeyError,
     mkDatabase (Examples.training [0; 1; 2; 4]) Examples.candidates None).
Proof.
  apply (missing_x_column_raises [(1, 1)]
           (mkDatabase (Examples.training [0; 1; 2; 4])
              Examples.candidates None)).
  intros values H. simpl in H.
  repeat (destruct H as [H|H]; [discriminate H|]). contradiction.
Defined.

(** X10 -- an ideal table without candidates.  When [x] is the only
    column of the ideal table, the loop of lines 165-169 does not run,
    [best_ideal_funcs] is four times [None] whatever the training table
    holds, and the first test point raises [KeyError] at line 180. *)
Theorem no_candidate_raises
    (tests : TestData) (db : Database) (ideal_functions_df : Frame) :
  set_index "x" (ideal_functions db) = inr ideal_functions_df ->
  columns ideal_functions_df = [] ->
  best_ideal_funcs (training_data db) ideal_functions_df
    = inr [None; None; None; None] /\
  (tests <> [] -> process_test_data tests db = (inl KeyError, db)).
Proof.
  intros Hidx Hcols.
  assert (Hfuncs : best_ideal_funcs (training_data db) ideal_functions_df
                   = inr [None; None; None; None]).
  { unfold best_ideal_funcs, best_fit. rewrite Hcols. reflexivity. }
  split; [exact Hfuncs|].
  intros Hne. destruct tests as [|row tests]; [congruence|].
  unfold process_test_data, compute_results.
  rewrite Hidx. simpl. rewrite Hfuncs. reflexivity.
Qed.

Lemma no_candidate_raises_witness :
  best_ideal_funcs
    (training_data (mkDatabase (Examples.training [0; 1; 2; 4])
                      [("x"%string, Examples.grid)] None))
    (mkFrame Examples.grid [])
    = inr [None; None; None; None] /\
  ([(1, 1)] <> [] ->
   process_test_data [(1, 1)]
     (mkDatabase (Examples.training [0; 1; 2; 4])
        [("x"%string, Examples.grid)] None)
   = (inl KeyError,
      mkDatabase (Examples.training [0; 1; 2; 4])
        [("x"%string, Examples.grid)] None)).
Proof.
  apply (no_candidate_raises [(1, 1)]
           (mkDatabase (Examples.training [0; 1; 2; 4])
              [("x"%string, Examples.grid)] None)
           (mkFrame Examples.grid [])).
  - reflexivity.
  - reflexivity.
Defined.

(** [.loc] gives a Series for a label that selects several rows. *)
Lemma loc_rows frame label c values :
  getitem (columns frame) c = inr values ->
  (2 <= List.length (rows_at label (combine (index frame) values)))%nat ->
  exists vs, loc frame label (Some c) = inr (Rows vs).
Proof.
  intros Hv Hlen. simpl. rewrite Hv. simpl.
  destruct (rows_at label (combine (index frame) values))
    as [|v1 [|v2 vs]]; simpl in Hlen; try lia.
  eexists. reflexivity.
Qed.

(** X11 -- an [x] value that occurs twice in the ideal table.  For a test
    point at such an [x], [.loc] gives a Series instead of a number, the
    condition of line 182 has no truth value and raises [ValueError]: the
    run produces no record and leaves the database as it was. *)
Theorem duplicate_grid_value_raises
    (tests : TestData) (db : Database) (ideal_functions_df : Frame)
    (funcs : list (option string)) (c : string) (values : Series)
    (row : float * float) :
  set_index "x" (ideal_functions db) = inr ideal_functions_df ->
  best_ideal_funcs (training_data db) ideal_functions_df = inr funcs ->
  nth_error funcs 0 = Some (Some c) ->
  getitem (columns ideal_functions_df) c = inr values ->
  (2 <= List.length
          (rows_at (fst row) (combine (index ideal_functions_df) values)))%nat ->
  In row tests ->
  classify_row (training_data db) ideal_functions_df funcs row
    = inl ValueError /\
  exists e, process_test_data tests db = (inl e, db).
Proof.
  intros Hidx Hfuncs Hc Hv Hdup Hin.
  assert (Hrow : classify_row (training_data db) ideal_functions_df funcs row
                 = inl ValueError).
  { destruct funcs as [|f funcs]; [discriminate|].
    injection Hc as ->.
    destruct (best_ideal_funcs_recorded _ _ _ 0%nat _ Hfuncs eq_refl)
      as (mse & Hmse & _).
    unfold mse_of in Hmse. inv_bind Hmse.
    destruct (loc_rows _ (fst row) _ _ Hv Hdup) as (vs & Hloc).
    unfold classify_row. cbn [fit_loop]. unfold deviation_of.
    rewrite Hloc. cbn [bind ret].
    unfold max_allowed_deviation, max_abs_deviation.
    change (0 + 1)%nat with 1%nat in *. rewrite Ha.
    cbn [bind ret frame_getitem]. rewrite Hv. reflexivity. }
  split; [assumption|].
  destruct (for_each_raises
              (classify_row (training_data db) ideal_functions_df funcs)
              tests row Hin (ex_intro _ ValueError Hrow)) as (e & He).
  exists e. unfold process_test_data, compute_results.
  rewrite Hidx. simpl. rewrite Hfuncs. simpl. rewrite He. reflexivity.
Qed.

(** The grid 0, 1, 1, 3: the test point at [x = 1] raises. *)
Lemma duplicate_grid_value_raises_witness :
  classify_row
    [("x", [0; 1; 1; 3]); ("y1", [0; 1; 2; 4]); ("y2", [0; 1; 2; 4]);
     ("y3", [0; 1; 2; 4]); ("y4", [0; 1; 2; 4])]%string
    (mkFrame [0; 1; 1; 3] Examples.candidates) Examples.funcs (1, 1)
    = inl ValueError /\
  exists e,
    process_test_data [(0, 0); (1, 1)]
      (mkDatabase
         [("x", [0; 1; 1; 3]); ("y1", [0; 1; 2; 4]); ("y2", [0; 1; 2; 4]);
          ("y3", [0; 1; 2; 4]); ("y4", [0; 1; 2; 4])]%string
         (("x"%string, [0; 1; 1; 3]) :: Examples.candidates) None)
    = (inl e,
       mkDatabase
         [("x", [0; 1; 1; 3]); ("y1", [0; 1; 2; 4]); ("y2", [0; 1; 2; 4]);
          ("y3", [0; 1; 2; 4]); ("y4", [0; 1; 2; 4])]%string
         (("x"%string, [0; 1; 1; 3]) :: Examples.candidates) None).
Proof.
  apply (duplicate_grid_value_raises [(0, 0); (1, 1)]
           (mkDatabase
              [("x", [0; 1; 1; 3]); ("y1", [0; 1; 2; 4]);
               ("y2", [0; 1; 2; 4]); ("y3", [0; 1; 2; 4]);
               ("y4", [0; 1; 2; 4])]%string
              (("x"%string, [0; 1; 1; 3]) :: Examples.candidates) None)
           (mkFrame [0; 1; 1; 3] Examples.candidates) Examples.funcs
           "y1"%string [0; 1; 2; 3] (1, 1)).
  - reflexivity.
  - vm_compute. reflexivity.
  - reflexivity.
  - reflexivity.
  - vm_compute. lia.
  - right. left. reflexivity.
Defined.

(** X12 -- training data that scikit-learn rejects.  When the ideal table
    has a candidate column and the training column [y1] has no row, or
    holds a NaN or an infinity, the first call of [mean_squared_error]
    raises [ValueError]: nothing is selected or classified, and the
    database is left as it was. *)
Theorem invalid_training_column_raises
    (tests : TestData) (db : Database) (ideal_functions_df : Frame)
    (signal : Series) :
  set_index "x" (ideal_functions db) = inr ideal_functions_df ->
  columns ideal_functions_df <> [] ->
  getitem (training_data db) "y1" = inr signal ->
  signal = [] \/ forallb is_finite signal = false ->
  best_ideal_funcs (training_data db) ideal_functions_df = inl ValueError /\
  process_test_data tests db = (inl ValueError, db).
Proof.
  intros Hidx Hne Hsig Hbad.
  assert (Hfuncs : best_ideal_funcs (training_data db) ideal_functions_df
                   = inl ValueError).
  { unfold best_ideal_funcs. cbn [seq for_each].
    unfold best_fit at 1.
    destruct (columns ideal_functions_df) as [|[c values] cols] eqn:Hcols;
      [congruence|].
    cbn [columns_of map fst best_func_loop].
    change (fstring_y 1) with "y1"%string. rewrite Hsig.
    cbn [bind ret]. rewrite Hcols. cbn [getitem].
    rewrite String.eqb_refl. cbn [bind ret].
    assert (Hmse : mean_squared_error signal values = inl ValueError).
    { unfold mean_squared_error.
      destruct (negb (List.length signal =? List.length values)%nat);
        [reflexivity|].
      destruct Hbad as [->|Hbad]; [reflexivity|].
      destruct (List.length signal =? 0)%nat; [reflexivity|].
      rewrite Hbad. reflexivity. }
    rewrite Hmse. reflexivity. }
  split; [exact Hfuncs|].
  unfold process_test_data, compute_results.
  rewrite Hidx. simpl. rewrite Hfuncs. reflexivity.
Qed.

Lemma invalid_training_column_raises_witness :
  best_ideal_funcs
    (training_data (Examples.db [0; nan; 2; 4])) Examples.frame
    = inl ValueError /\
  process_test_data [(1, 1)] (Examples.db [0; nan; 2; 4])
    = (inl ValueError, Examples.db [0; nan; 2; 4]).
Proof.
  apply (invalid_training_column_raises [(1, 1)]
           (Examples.db [0; nan; 2; 4]) Examples.frame [0; nan; 2; 4]).
  - reflexivity.
  - discriminate.
  - reflexivity.
  - right. reflexivity.
Defined.

(** ** The tolerance on the grid of the row numbers *)

Module RowNumbers.

Import FloatValue.

Local Open Scope Z_scope.

Lemma SFeqb_leb_l a b : SFeqb a b = true -> SFleb a b = true.
Proof. FloatOrder.sf_cases. Qed.

Lemma SFeqb_leb_r a b : SFeqb a b = true -> SFleb b a = true.
Proof. FloatOrder.sf_cases. Qed.

(** A positive integer below [2 ^ 53] is converted exactly. *)
Lemma binary_normalize_exact p :
  Zpos p < 2 ^ 53 ->
  SFnonneg (binary_normalize prec emax (Zpos p) 0 false) /\
  SFnumber (binary_normalize prec emax (Zpos p) 0 false) /\
  SFval (binary_normalize prec emax (Zpos p) 0 false) = Zpos p * 2 ^ bias.
Proof.
  intros Hp. simpl binary_normalize. unfold binary_round.
  destruct (FloatRound.shl_align_spec p 0
              (fexp prec emax (Zpos (digits2_pos p) + 0)))
    as (mz & ez & -> & Hez & Hmz).
  rewrite Z.add_0_r, FloatRound.fexp_eq in Hez.
  pose proof (FloatRound.digits2_bounds p) as [Hdl Hdu].
  set (d := Zpos (digits2_pos p)) in *.
  assert (Hd : 0 < d <= 53).
  { split; [unfold d; lia|].
    assert (d - 1 < 53); [|lia].
    apply (Z.pow_lt_mono_r_iff 2); lia. }
  assert (Hdig : Zdigits2 (Zpos mz) + ez = d).
  { rewrite Hmz, FloatRound.Zdigits2_shift by lia.
    simpl Zdigits2. fold d. lia. }
  assert (Hrexp : rexp (Zpos mz) ez = ez).
  { unfold rexp. rewrite Hdig, FloatRound.fexp_eq. lia. }
  assert (HE : - bias <= ez) by (unfold bias; lia).
  destruct (FloatRound.binary_round_aux_val (Zpos mz) ez
              ltac:(lia) HE ltac:(lia)) as (Hnn & Hnum & Hval).
  split; [exact Hnn|]. split; [exact Hnum|].
  rewrite Hval. unfold rval. rewrite Hrexp.
  assert (Hu : 0 < 2 ^ (ez + bias))
    by (apply FloatRound.pow2_pos; lia).
  assert (Hrnd : rnd (Zpos mz * 2 ^ (ez + bias)) (2 ^ (ez + bias))
                 = Zpos mz).
  { apply Z.le_antisymm.
    - apply FloatRound.rnd_below_multiple; [exact Hu | lia].
    - apply FloatRound.rnd_above_multiple; [exact Hu | lia]. }
  rewrite Hrnd, Hmz, <- Z.mul_assoc.
  rewrite <- FloatRound.pow2_split by lia.
  replace (0 - ez + (ez + bias)) with bias by lia.
  apply Z.min_l. unfold top.
  replace (1024 + bias) with (1024 + bias - bias + bias) by lia.
  rewrite (FloatRound.pow2_split (1024 + bias - bias) bias)
    by (unfold bias; lia).
  apply Z.mul_le_mono_nonneg_r;
    [apply Z.pow_nonneg; lia|].
  replace (1024 + bias - bias) with 1024 by lia.
  assert (2 ^ 53 <= 2 ^ 1024) by (apply Z.pow_le_mono_r; lia).
  lia.
Qed.

(** A row number below [2 ^ 53] is converted exactly. *)
Lemma of_nat_exact n :
  Z.of_nat n < 2 ^ 53 ->
  SFnonneg (Prim2SF (of_nat n)) /\ SFnumber (Prim2SF (of_nat n)) /\
  SFval (Prim2SF (of_nat n)) = Z.of_nat n * 2 ^ bias.
Proof.
  intros Hn. unfold of_nat. rewrite of_uint63_spec.
  rewrite Uint63.of_Z_spec, Z.mod_small
    by (change Uint63Axioms.wB with (2 ^ 63); lia).
  destruct (Z.of_nat n) as [|p|p] eqn:E; [|apply binary_normalize_exact, Hn|lia].
  simpl. auto.
Qed.

Local Close Scope Z_scope.

(** Two row numbers below [2 ^ 53] are the same label exactly when they
    are the same number. *)
Lemma label_eqb_of_nat i j :
  (Z.of_nat i < 2 ^ 53)%Z -> (Z.of_nat j < 2 ^ 53)%Z ->
  label_eqb (of_nat i) (of_nat j) = (i =? j)%nat.
Proof.
  intros Hi Hj.
  destruct (of_nat_exact i Hi) as (Ni & Mi & Vi).
  destruct (of_nat_exact j Hj) as (Nj & Mj & Vj).
  unfold label_eqb.
  rewrite (FloatRound.Prim2SF_number _ Mi), andb_false_l, orb_false_r.
  destruct (Nat.eqb_spec i j) as [->|Hne].
  - rewrite eqb_spec. apply FloatRound.SFnumber_eqb, Mj.
  - destruct (of_nat i =? of_nat j)%float eqn:E; [exfalso|reflexivity].
    rewrite eqb_spec in E. apply Hne.
    pose proof (SFeqb_leb_l _ _ E) as H1.
    pose proof (SFeqb_leb_r _ _ E) as H2.
    apply FloatRound.SFleb_val in H1, H2;
      try apply Prim2SF_valid; try assumption.
    rewrite Vi, Vj in *.
    assert (0 < 2 ^ FloatValue.bias)%Z by (apply FloatRound.pow2_pos;
                                            unfold FloatValue.bias; lia).
    nia.
Qed.

(** The rows of a Series labelled [s], [s+1], ... that carry the row
    number [i]. *)
Lemma rows_at_range values : forall s i,
  (Z.of_nat (s + List.length values) <= 2 ^ 53)%Z ->
  (i < s + List.length values)%nat ->
  rows_at (of_nat i)
    (combine (map of_nat (seq s (List.length values))) values)
  = if (s <=? i)%nat
    then match nth_error values (i - s) with
         | Some v => [v]
         | None => []
         end
    else [].
Proof.
  induction values as [|v vs IH]; intros s i Hs Hi.
  - simpl in Hi. replace (s <=? i)%nat with false; [reflexivity|].
    symmetry. apply Nat.leb_gt. lia.
  - simpl List.length in *. cbn [seq map combine].
    unfold rows_at in *. cbn [filter fst].
    rewrite label_eqb_of_nat by lia.
    destruct (Nat.eqb_spec s i) as [->|Hne].
    + cbn [map snd]. rewrite Nat.leb_refl, Nat.sub_diag. cbn [nth_error].
      f_equal. rewrite IH by lia.
      replace (S i <=? i)%nat with false; [reflexivity|].
      symmetry. apply Nat.leb_gt. lia.
    + destruct (Nat.leb_spec s i) as [Hle|Hgt].
      * rewrite IH by lia.
        replace (S s <=? i)%nat with true by (symmetry; apply Nat.leb_le; lia).
        replace (i - s)%nat with (S (i - S s)) by lia. reflexivity.
      * destruct (Nat.eq_dec (List.length vs) 0) as [E|E].
        -- destruct vs; [reflexivity|discriminate].
        -- rewrite IH by lia.
           replace (S s <=? i)%nat with false; [reflexivity|].
           symmetry. apply Nat.leb_gt. lia.
Qed.

Lemma rows_at_row_number values i v :
  (Z.of_nat (List.length values) <= 2 ^ 53)%Z ->
  nth_error values i = Some v ->
  rows_at (of_nat i)
    (combine (map of_nat (seq 0 (List.length values))) values) = [v].
Proof.
  intros Hlen Hi.
  assert (i < List.length values)%nat by (apply nth_error_Some; congruence).
  rewrite rows_at_range by (simpl; lia).
  simpl. rewrite Nat.sub_0_r, Hi. reflexivity.
Qed.

(** The left part of [series_sub]: every row number finds one row. *)
Lemma flat_map_rows right : forall signal candidate s,
  List.length signal = List.length candidate ->
  (forall i b, nth_error candidate i = Some b ->
               rows_at (of_nat (s + i)) right = [b]) ->
  flat_map (fun l =>
              match rows_at (fst l) right with
              | [] => [nan]
              | vs => map (fun v => (snd l - v)%float) vs
              end)
    (combine (map of_nat (seq s (List.length signal))) signal)
  = map (fun p => (fst p - snd p)%float) (combine signal candidate).
Proof.
  induction signal as [|a signal IH]; intros [|b candidate] s Hlen Hrows;
    try discriminate; [reflexivity|].
  simpl List.length. cbn [seq map combine flat_map fst snd].
  pose proof (Hrows 0%nat b eq_refl) as H0. rewrite Nat.add_0_r in H0.
  rewrite H0. cbn [map app]. f_equal.
  apply IH; [simpl in Hlen; lia|].
  intros i b' Hi. replace (S s + i)%nat with (s + S i)%nat by lia.
  apply Hrows. exact Hi.
Qed.

(** The right part of [series_sub]: no label is left over. *)
Lemma flat_map_matched left (right : Labelled) :
  (forall r, In r right -> rows_at (fst r) left <> []) ->
  flat_map (fun r =>
              match rows_at (fst r) left with
              | [] => [nan]
              | _ => []
              end) right = [].
Proof.
  induction right as [|r right IH]; intros H; [reflexivity|].
  cbn [flat_map].
  destruct (rows_at (fst r) left) eqn:E.
  - destruct (H r (or_introl eq_refl) E).
  - apply IH. intros r' Hr'. apply H. right. exact Hr'.
Qed.

(** On the grid of the row numbers the subtraction of line 181 pairs the
    two columns row by row. *)
Lemma series_sub_row_numbers signal candidate :
  List.length candidate = List.length signal ->
  (Z.of_nat (List.length signal) <= 2 ^ 53)%Z ->
  series_sub (range_index signal)
    (combine (map of_nat (seq 0 (List.length signal))) candidate)
  = map (fun p => (fst p - snd p)%float) (combine signal candidate).
Proof.
  intros Hlen Hn. unfold series_sub, range_index.
  assert (Hrows : forall i b, nth_error candidate i = Some b ->
            rows_at (of_nat (0 + i))
              (combine (map of_nat (seq 0 (List.length signal))) candidate)
            = [b]).
  { intros i b Hi. rewrite <- Hlen. apply rows_at_row_number;
      [rewrite Hlen; exact Hn | exact Hi]. }
  rewrite (flat_map_rows _ signal candidate 0 (eq_sym Hlen) Hrows).
  rewrite flat_map_matched; [apply app_nil_r|].
  intros [l b] Hr. simpl.
  destruct (in_combine_nth _ _ _ _ Hr) as (j & Hj & _).
  pose proof Hj as Hj'. apply nth_error_range in Hj'. simpl in Hj'.
  subst l.
  assert (Hlt : (j < List.length signal)%nat).
  { assert (nth_error (map of_nat (seq 0 (List.length signal))) j <> None)
      by congruence.
    apply nth_error_Some in H. rewrite length_map, length_seq in H.
    exact H. }
  destruct (nth_error signal j) as [a|] eqn:Ea;
    [|apply nth_error_None in Ea; lia].
  rewrite (rows_at_row_number signal j a Hn Ea). discriminate.
Qed.

End RowNumbers.

(** X13 -- the grid of the row numbers.  When the [x] values of the ideal
    table are the row numbers 0, 1, ..., n-1 (at most [2 ^ 53] rows), the
    subtraction of line 181 pairs the training column and the candidate
    row by row, and the tolerance is [np.sqrt(2)] times the largest
    [|signal[i] - candidate[i]|]. *)
Theorem tolerance_on_row_number_grid
    (training_data : Table) (ideal_functions_df : Frame) (idx : nat)
    (c : string) (signal candidate : Series) :
  getitem training_data (fstring_y (idx + 1)) = inr signal ->
  getitem (columns ideal_functions_df) c = inr candidate ->
  List.length candidate = List.length signal ->
  index ideal_functions_df = map of_nat (seq 0 (List.length signal)) ->
  (Z.of_nat (List.length signal) <= 2 ^ 53)%Z ->
  max_allowed_deviation training_data ideal_functions_df idx (Some c)
  = inr (spec_tolerance signal candidate).
Proof.
  intros Hs Hc Hlen Hidx Hn.
  unfold max_allowed_deviation, max_abs_deviation.
  rewrite Hs. cbn [bind ret frame_getitem]. rewrite Hc. cbn [bind ret].
  rewrite Hidx, (RowNumbers.series_sub_row_numbers _ _ Hlen Hn).
  unfold spec_tolerance, spec_max_abs_deviation, series_abs.
  rewrite map_map. reflexivity.
Qed.

Lemma tolerance_on_row_number_grid_witness :
  max_allowed_deviation (Examples.training [0; 1; 2; 4]) Examples.frame 0
    (Some "y2"%string)
  = inr (spec_tolerance [0; 1; 2; 4] [0; 2; 4; 6]).
Proof.
  apply (tolerance_on_row_number_grid (Examples.training [0; 1; 2; 4])
           Examples.frame 0 "y2"%string [0; 1; 2; 4] [0; 2; 4; 6]).
  - reflexivity.
  - reflexivity.
  - reflexivity.
  - vm_compute. reflexivity.
  - vm_compute. discriminate.
Defined.

(** ** What a recorded candidate has passed *)

(** X14 -- the validation behind a recorded candidate.  A candidate is
    recorded for the training column [y(k+1)] only after scikit-learn
    has accepted the two columns: they have the same number of rows, at
    least one, every value is finite, and the recorded error is a number
    from zero to below [float('inf')] (for fewer than [2 ^ 63] rows). *)
Theorem recorded_candidate_validated
    (training_data : Table) (ideal_functions_df : Frame)
    (funcs : list (option string)) (k : nat) (c : string) :
  best_ideal_funcs training_data ideal_functions_df = inr funcs ->
  nth_error funcs k = Some (Some c) ->
  exists signal candidate mse,
    getitem training_data (fstring_y (k + 1)) = inr signal /\
    getitem (columns ideal_functions_df) c = inr candidate /\
    List.length signal = List.length candidate /\
    signal <> [] /\
    forallb is_finite signal = true /\
    forallb is_finite candidate = true /\
    mean_squared_error signal candidate = inr mse /\
    (mse <? infinity) = true /\
    ((Z.of_nat (List.length signal) < 2 ^ 63)%Z -> (0 <=? mse) = true).
Proof.
  intros Hfuncs Hk.
  destruct (best_ideal_funcs_recorded _ _ _ _ _ Hfuncs Hk)
    as (mse & Hmse & Hlt).
  unfold mse_of in Hmse. inv_bind Hmse. inv_bind Hmse.
  exists a, a0, mse.
  do 2 (split; [assumption|]).
  pose proof Hmse as Hval. unfold mean_squared_error in Hval.
  destruct (List.length a =? List.length a0)%nat eqn:Hlen;
    [|discriminate].
  destruct (List.length a =? 0)%nat eqn:Hn; [discriminate|].
  destruct (forallb is_finite a && forallb is_finite a0) eqn:Hf;
    [|discriminate].
  apply andb_prop in Hf. destruct Hf as [Ht Hp].
  apply Nat.eqb_eq in Hlen. apply Nat.eqb_neq in Hn.
  split; [assumption|].
  split; [intros ->; apply Hn; reflexivity|].
  do 4 (split; [assumption|]).
  intros Hrows. eapply mean_squared_error_nonneg; eassumption.
Qed.

Lemma recorded_candidate_validated_witness :
  exists signal candidate mse,
    getitem (Examples.training [0; 1; 2; 4]) (fstring_y (0 + 1))
      = inr signal /\
    getitem (columns Examples.frame) "y1" = inr candidate /\
    List.length signal = List.length candidate /\
    signal <> [] /\
    forallb is_finite signal = true /\
    forallb is_finite candidate = true /\
    mean_squared_error signal candidate = inr mse /\
    (mse <? infinity) = true /\
    ((Z.of_nat (List.length signal) < 2 ^ 63)%Z -> (0 <=? mse) = true).
Proof.
  apply (recorded_candidate_validated (Examples.training [0; 1; 2; 4])
           Examples.frame Examples.funcs 0 "y1"%string).
  - vm_compute. reflexivity.
  - reflexivity.
Defined.

(** ** The records in the visualizer *)

(** The number of a record of a run is [None] or one of 1, 2, 3, 4. *)
Lemma compute_results_number tests db results r :
  compute_results tests db = inr results -> In r results ->
  ideal_func_no r = None \/
  exists n, ideal_func_no r = Some n /\ (1 <= n <= 4)%nat.
Proof.
  intros Hres Hr.
  destruct (compute_results_record _ _ _ _ Hres Hr)
    as (F & funcs & dts & row & _ & Hfuncs & _ & _ & _ & Hm & Hc).
  destruct (choose_spec dts 0 None infinity _ _ eq_refl Hc)
    as [(-> & _)|(k & d & t & -> & Hk & _)]; [left; reflexivity|].
  right. eexists. split; [reflexivity|].
  assert (k < List.length dts)%nat by (apply nth_error_Some; congruence).
  rewrite (measured_length _ _ _ _ _ _ _ Hm) in H.
  rewrite (best_ideal_funcs_length _ _ _ Hfuncs) in H. lia.
Qed.

Lemma filter_length_cons {A} (f : A -> bool) a l :
  List.length (filter f (a :: l))
  = ((if f a then 1 else 0) + List.length (filter f l))%nat.
Proof. simpl. destruct (f a); reflexivity. Qed.

Lemma subsets_length (rows : list ResultRow) :
  (forall r, In r rows ->
     ideal_func_no r = None \/
     exists n, ideal_func_no r = Some n /\ (1 <= n <= 4)%nat) ->
  (List.length (List.concat (subsets rows))
   + List.length (filter unassigned rows) = List.length rows)%nat.
Proof.
  unfold subsets, subset. cbn [seq map List.concat].
  rewrite !length_app. change (List.length (@nil ResultRow)) with 0%nat.
  induction rows as [|r rows IH]; intros H; [reflexivity|].
  assert (IH' := IH (fun r' Hr' => H r' (or_intror Hr'))).
  rewrite !filter_length_cons. cbn [List.length].
  assert (Hone : ((if assigned_to 1 r then 1 else 0)
                  + (if assigned_to 2 r then 1 else 0)
                  + (if assigned_to 3 r then 1 else 0)
                  + (if assigned_to 4 r then 1 else 0)
                  + (if unassigned r then 1 else 0) = 1)%nat).
  { unfold assigned_to, unassigned.
    destruct (H r (or_introl eq_refl)) as [->|(n & -> & Hn)];
      [reflexivity|].
    destruct n as [|[|[|[|[|n]]]]]; try lia; reflexivity. }
  lia.
Qed.

(** X15 -- the records in the visualizer.  After a run that returns, the
    four subsets that the visualizer draws (line 63 of visualizer.py,
    for [i] from 1 to 4) hold every assigned record exactly once: a
    record is in the subset of its number and in no other, and the
    subsets and the unassigned records add up to the records of the
    run. *)
Theorem subsets_partition_assigned
    (tests : TestData) (db : Database) (results : list ResultRow) :
  compute_results tests db = inr results ->
  (forall r, In r results -> unassigned r = false ->
     exists i, In i (seq 1 4) /\ In r (subset results i) /\
               forall j, In r (subset results j) -> j = i) /\
  (List.length (List.concat (subsets results))
   + List.length (filter unassigned results) = List.length results)%nat.
Proof.
  intros Hres. split.
  - intros r Hr Hun.
    destruct (compute_results_number _ _ _ _ Hres Hr)
      as [E|(n & E & Hn)]; unfold unassigned in Hun; rewrite E in Hun;
      [discriminate|].
    exists n. split; [apply in_seq; lia|]. split.
    + apply filter_In. split; [assumption|].
      unfold assigned_to. rewrite E. apply Nat.eqb_refl.
    + intros j Hj. apply filter_In in Hj. destruct Hj as [_ Hj].
      unfold assigned_to in Hj. rewrite E in Hj.
      apply Nat.eqb_eq in Hj. congruence.
  - apply subsets_length. intros r Hr.
    eapply compute_results_number; eassumption.
Qed.

Lemma subsets_partition_assigned_witness :
  (forall r,
     In r [mkResult 1 1.5 0.5 (Some 1%nat); mkResult 2 7 infinity None] ->
     unassigned r = false ->
     exists i, In i (seq 1 4) /\
               In r (subset [mkResult 1 1.5 0.5 (Some 1%nat);
                             mkResult 2 7 infinity None] i) /\
               forall j,
                 In r (subset [mkResult 1 1.5 0.5 (Some 1%nat);
                               mkResult 2 7 infinity None] j) -> j = i) /\
  (List.length (List.concat (subsets [mkResult 1 1.5 0.5 (Some 1%nat);
                                 mkResult 2 7 infinity None]))
   + List.length (filter unassigned [mkResult 1 1.5 0.5 (Some 1%nat);
                                     mkResult 2 7 infinity None])
   = List.length [mkResult 1 1.5 0.5 (Some 1%nat);
                  mkResult 2 7 infinity None])%nat.
Proof.
  apply (subsets_partition_assigned [(1, 1.5); (2, 7)]
           (Examples.db [0; 1; 2; 4])).
  vm_compute. reflexivity.
Defined.

(** ** Loading the data files *)

Lemma lower_char_idempotent c : lower_char (lower_char c) = lower_char c.
Proof.
  destruct c as [[] [] [] [] [] [] [] []]; reflexivity.
Qed.

Lemma lower_idempotent s : lower (lower s) = lower s.
Proof.
  induction s as [|c s IH]; simpl; [reflexivity|].
  rewrite lower_char_idempotent, IH. reflexivity.
Qed.

(** A column whose name occurs once is found under its name. *)
Lemma getitem_NoDup df : forall col values,
  NoDup (columns_of df) -> In (col, values) df ->
  getitem df col = inr values.
Proof.
  unfold columns_of.
  induction df as [|[c vs] df IH]; intros col values Hnd Hin;
    [contradiction|].
  simpl in Hnd. inversion Hnd as [|? ? Hc Hnd']; subst.
  simpl. destruct Hin as [[= -> ->]|Hin].
  - rewrite String.eqb_refl. reflexivity.
  - destruct (String.eqb_spec c col) as [->|_]; [|apply IH; assumption].
    exfalso. apply Hc. apply in_map_iff. exists (col, values). auto.
Qed.

(** X16 -- the header of a loaded file.  [load_csv_to_df] keeps the
    columns and their values and lowercases the names: every name of the
    loaded frame is its own lowercase, and (the lowercased names being
    distinct) a column of the file is found under the lowercase of its
    header name, so that [X] and [Y1] are read as [x] and [y1]. *)
Theorem load_csv_to_df_lowercases
    (files : Files) (file : string) (csv df : Table) :
  files file = Some csv ->
  load_csv_to_df files file = inr df ->
  NoDup (map lower (columns_of csv)) ->
  map snd df = map snd csv /\
  (forall col, In col (columns_of df) -> lower col = col) /\
  (forall name values, In (name, values) csv ->
     getitem df (lower name) = inr values).
Proof.
  unfold load_csv_to_df. intros -> [= <-] Hnd.
  split; [rewrite map_map; reflexivity|]. split.
  - intros col Hcol. unfold columns_of in Hcol. rewrite map_map in Hcol.
    apply in_map_iff in Hcol. destruct Hcol as ([c vs] & <- & _).
    apply lower_idempotent.
  - intros name values Hin. apply getitem_NoDup.
    + unfold columns_of in *. rewrite map_map.
      rewrite map_map in Hnd. exact Hnd.
    + apply in_map_iff. exists (name, values). auto.
Qed.

Lemma load_csv_to_df_lowercases_witness :
  map snd [("x", [0; 1]); ("y1", [5; 7])]%string
    = map snd [("X", [0; 1]); ("Y1", [5; 7])]%string /\
  (forall col,
     In col (columns_of [("x", [0; 1]); ("y1", [5; 7])]%string) ->
     lower col = col) /\
  (forall name values,
     In (name, values) [("X", [0; 1]); ("Y1", [5; 7])]%string ->
     getitem [("x", [0; 1]); ("y1", [5; 7])]%string (lower name)
       = inr values).
Proof.
  apply (load_csv_to_df_lowercases
           (fun _ => Some [("X", [0; 1]); ("Y1", [5; 7])]%string)
           "ideal.csv"%string).
  - reflexivity.
  - reflexivity.
  - vm_compute. repeat constructor; simpl; intuition discriminate.
Defined.

(** X17 -- the names of the training table.  When the training file has
    five columns and the ideal file is read (with distinct names),
    [load_data] returns; the training table gets the names [x], [y1],
    ..., [y4] by position, whatever the header of the file says, the
    ideal table is the loaded ideal file, and the table [test_data] is
    kept. *)
Theorem load_data_names_by_position
    (files : Files) (training_file ideal_functions_file : string)
    (db : Database) (csv ideal_functions_data : Table) :
  files training_file = Some csv ->
  List.length csv = 5%nat ->
  load_csv_to_df files ideal_functions_file = inr ideal_functions_data ->
  NoDup (columns_of ideal_functions_data) ->
  load_data files training_file ideal_functions_file db
  = (inr tt,
     mkDatabase
       (combine ["x"; "y1"; "y2"; "y3"; "y4"]%string (map snd csv))
       ideal_functions_data (test_data db)) /\
  forall i, (1 <= i <= 4)%nat ->
    getitem (combine ["x"; "y1"; "y2"; "y3"; "y4"]%string (map snd csv))
      (fstring_y i)
    = inr (nth i (map snd csv) []).
Proof.
  intros Hcsv Hlen Hideal _. split.
  - unfold load_data. unfold load_csv_to_df at 1. rewrite Hcsv.
    unfold set_columns. rewrite length_map, Hlen. cbn [Nat.eqb ret].
    rewrite Hideal, map_map. reflexivity.
  - intros i Hi.
    destruct csv as [|c0 [|c1 [|c2 [|c3 [|c4 [|c5 csv]]]]]];
      try discriminate Hlen.
    destruct i as [|[|[|[|[|i]]]]]; try lia; reflexivity.
Qed.

Lemma load_data_names_by_position_witness :
  load_data
    (fun file =>
       if String.eqb file "train.csv"
       then Some [("X", [0; 1]); ("A", [5; 7]); ("B", [5; 7]);
                  ("C", [5; 7]); ("D", [5; 7])]%string
       else Some [("X", [0; 1]); ("Y1", [5; 7])]%string)
    "train.csv" "ideal.csv" (Examples.db [0; 1; 2; 4])
  = (inr tt,
     mkDatabase
       (combine ["x"; "y1"; "y2"; "y3"; "y4"]%string
          (map snd [("X", [0; 1]); ("A", [5; 7]); ("B", [5; 7]);
                    ("C", [5; 7]); ("D", [5; 7])]%string))
       [("x", [0; 1]); ("y1", [5; 7])]%string
       (test_data (Examples.db [0; 1; 2; 4]))) /\
  forall i, (1 <= i <= 4)%nat ->
    getitem
      (combine ["x"; "y1"; "y2"; "y3"; "y4"]%string
         (map snd [("X", [0; 1]); ("A", [5; 7]); ("B", [5; 7]);
                   ("C", [5; 7]); ("D", [5; 7])]%string))
      (fstring_y i)
    = inr (nth i (map snd [("X", [0; 1]); ("A", [5; 7]); ("B", [5; 7]);
                           ("C", [5; 7]); ("D", [5; 7])]%string) []).
Proof.
  apply (load_data_names_by_position
           (fun file =>
              if String.eqb file "train.csv"
              then Some [("X", [0; 1]); ("A", [5; 7]); ("B", [5; 7]);
                         ("C", [5; 7]); ("D", [5; 7])]%string
              else Some [("X", [0; 1]); ("Y1", [5; 7])]%string)
           "train.csv"%string "ideal.csv"%string (Examples.db [0; 1; 2; 4])).
  - reflexivity.
  - reflexivity.
  - reflexivity.
  - vm_compute. repeat constructor; simpl; intuition discriminate.
Defined.

(** X18 -- a training file without five columns.  Line 130 raises
    [ValueError], not [DataLoadingException]; the ideal file is not read
    and the database is left as it was. *)
Theorem load_data_column_count
    (files : Files) (training_file ideal_functions_file : string)
    (db : Database) (csv : Table) :
  files training_file = Some csv ->
  List.length csv <> 5%nat ->
  load_data files training_file ideal_functions_file db
  = (inl (Raised ValueError), db).
Proof.
  intros Hcsv Hlen. unfold load_data, load_csv_to_df. rewrite Hcsv.
  unfold set_columns. rewrite length_map.
  destruct (Nat.eqb_spec (List.length ["x"; "y1"; "y2"; "y3"; "y4"]%string)
              (List.length csv)) as [E|_]; [|reflexivity].
  simpl in E. congruence.
Qed.

Lemma load_data_column_count_witness :
  load_data (fun _ => Some [("x", [0; 1]); ("y", [5; 7])]%string)
    "train.csv" "ideal.csv" (Examples.db [0; 1; 2; 4])
  = (inl (Raised ValueError), Examples.db [0; 1; 2; 4]).
Proof.
  apply (load_data_column_count
           (fun _ => Some [("x", [0; 1]); ("y", [5; 7])]%string)
           "train.csv"%string "ideal.csv"%string (Examples.db [0; 1; 2; 4])
           [("x", [0; 1]); ("y", [5; 7])]%string).
  - reflexivity.
  - discriminate.
Defined.

(** ** The exceptions of the selection *)

Lemma mean_squared_error_raises y_true y_pred e :
  mean_squared_error y_true y_pred = inl e -> e = ValueError.
Proof.
  unfold mean_squared_error.
  destruct (negb _); [intros [= <-]; reflexivity|].
  destruct (_ =? 0)%nat; [intros [= <-]; reflexivity|].
  destruct (negb _); [intros [= <-]; reflexivity|discriminate].
Qed.

Lemma best_func_loop_raises training_data frame training_col signal cols :
  getitem training_data training_col = inr signal ->
  (forall col, In col cols ->
     exists values, getitem (columns frame) col = inr values) ->
  forall min_mse best_func e,
    best_func_loop training_data frame training_col cols min_mse best_func
      = inl e ->
    e = ValueError.
Proof.
  intros Hs. induction cols as [|col cols IH]; intros Hcols m b e H;
    [discriminate|].
  simpl in H. rewrite Hs in H. simpl in H.
  destruct (Hcols col (or_introl eq_refl)) as (values & Hv).
  rewrite Hv in H. simpl in H.
  destruct (mean_squared_error signal values) as [e'|mse] eqn:Hmse;
    simpl in H.
  - injection H as <-. eapply mean_squared_error_raises; eassumption.
  - destruct (mse <? m); eapply IH; try eassumption;
      intros c Hc; apply Hcols; right; exact Hc.
Qed.

Lemma for_each_raised {A B} (f : A -> result B) l e :
  for_each f l = inl e -> exists a, In a l /\ f a = inl e.
Proof.
  induction l as [|a l IH]; simpl; [discriminate|].
  destruct (f a) as [e'|b] eqn:Ha; simpl.
  - intros [= <-]. exists a. auto.
  - destruct (for_each f l) as [e'|bs]; simpl; [|discriminate].
    intros [= <-]. destruct (IH eq_refl) as (a' & ? & ?).
    exists a'. auto.
Qed.

(** X19 -- the exceptions of the selection.  When the training table has
    the columns [y1], ..., [y4], the selection of lines 160-170 raises no
    [KeyError]: it returns, or scikit-learn's validation raises
    [ValueError]. *)
Theorem selection_raises_value_error_only
    (training_data : Table) (ideal_functions_df : Frame) (e : exception) :
  (forall i, (1 <= i <= 4)%nat ->
     exists signal, getitem training_data (fstring_y i) = inr signal) ->
  best_ideal_funcs training_data ideal_functions_df = inl e ->
  e = ValueError.
Proof.
  intros Hcols H. unfold best_ideal_funcs in H.
  apply for_each_raised in H. destruct H as (i & Hi & H).
  apply in_seq in Hi.
  destruct (Hcols i ltac:(lia)) as (signal & Hs).
  destruct (best_fit training_data ideal_functions_df i) as [e'|r] eqn:Hfit;
    simpl in H; [|discriminate].
  injection H as <-. unfold best_fit in Hfit.
  eapply best_func_loop_raises; [exact Hs| |exact Hfit].
  intros col Hcol. apply getitem_columns, Hcol.
Qed.

Lemma selection_raises_value_error_only_witness : ValueError = ValueError.
Proof.
  apply (selection_raises_value_error_only
           (Examples.training [0; nan; 2; 4]) Examples.frame ValueError).
  - intros i Hi.
    destruct i as [|[|[|[|[|i]]]]]; try lia; eexists; reflexivity.
  - vm_compute. reflexivity.
Defined.

(** ** From the files to the run *)

Lemma in_columns_of (df : Table) col :
  In col (columns_of df) -> exists values, In (col, values) df.
Proof.
  unfold columns_of. intros H. apply in_map_iff in H.
  destruct H as ([c vs] & <- & H). eauto.
Qed.

(** X22 -- the header of the ideal file in the run.  After [load_data]
    has loaded a training file of five columns and an ideal file (with
    distinct lowercased names), the run finds its index column when some
    header name of the ideal file lowercases to [x], in any case of the
    letter; when none does, every run raises [KeyError] at line 155 and
    leaves the database as it was. *)
Theorem loaded_ideal_file_needs_x
    (files : Files) (training_file ideal_functions_file : string)
    (db : Database) (training_csv ideal_csv : Table) (tests : TestData) :
  files training_file = Some training_csv ->
  List.length training_csv = 5%nat ->
  files ideal_functions_file = Some ideal_csv ->
  NoDup (map lower (columns_of ideal_csv)) ->
  exists db',
    load_data files training_file ideal_functions_file db = (inr tt, db') /\
    ((exists name, In name (columns_of ideal_csv) /\ lower name = "x"%string) ->
     exists ideal_functions_df,
       set_index "x" (ideal_functions db') = inr ideal_functions_df) /\
    ((forall name, In name (columns_of ideal_csv) -> lower name <> "x"%string) ->
     process_test_data tests db' = (inl KeyError, db')).
Proof.
  intros Ht Hlen Hi Hnd.
  eexists. split.
  { unfold load_data, load_csv_to_df. rewrite Ht, Hi.
    unfold set_columns. rewrite length_map, Hlen. reflexivity. }
  cbn [ideal_functions]. split.
  - intros (name & Hname & Hx).
    destruct (in_columns_of _ _ Hname) as (values & Hin).
    unfold set_index.
    rewrite <- Hx.
    rewrite (getitem_NoDup _ (lower name) values).
    + eexists. reflexivity.
    + unfold columns_of in *. rewrite map_map. rewrite map_map in Hnd.
      exact Hnd.
    + apply in_map_iff. exists (name, values). auto.
  - intros Hnone. unfold process_test_data, compute_results, set_index.
    cbn [ideal_functions].
    rewrite getitem_missing; [reflexivity|].
    intros values Hin. apply in_map_iff in Hin.
    destruct Hin as ([c vs] & [= Hc _] & Hin). simpl in Hc.
    apply (Hnone c); [|exact Hc].
    unfold columns_of. apply in_map_iff. exists (c, vs). auto.
Qed.

Lemma loaded_ideal_file_needs_x_witness :
  exists db',
    load_data
      (fun file =>
         if String.eqb file "train.csv"
         then Some [("X", [0; 1]); ("A", [5; 7]); ("B", [5; 7]);
                    ("C", [5; 7]); ("D", [5; 7])]%string
         else Some [("X", [0; 1]); ("Y1", [5; 7])]%string)
      "train.csv" "ideal.csv" (Examples.db [0; 1; 2; 4]) = (inr tt, db') /\
    ((exists name,
         In name (columns_of [("X", [0; 1]); ("Y1", [5; 7])]%string) /\
         lower name = "x"%string) ->
     exists ideal_functions_df,
       set_index "x" (ideal_functions db') = inr ideal_functions_df) /\
    ((forall name,
         In name (columns_of [("X", [0; 1]); ("Y1", [5; 7])]%string) ->
         lower name <> "x"%string) ->
     process_test_data [(0, 5)] db' = (inl KeyError, db')).
Proof.
  apply (loaded_ideal_file_needs_x
           (fun file =>
              if String.eqb file "train.csv"
              then Some [("X", [0; 1]); ("A", [5; 7]); ("B", [5; 7]);
                         ("C", [5; 7]); ("D", [5; 7])]%string
              else Some [("X", [0; 1]); ("Y1", [5; 7])]%string)
           "train.csv"%string "ideal.csv"%string (Examples.db [0; 1; 2; 4])
           [("X", [0; 1]); ("A", [5; 7]); ("B", [5; 7]);
            ("C", [5; 7]); ("D", [5; 7])]%string
           [("X", [0; 1]); ("Y1", [5; 7])]%string [(0, 5)]).
  - reflexivity.
  - reflexivity.
  - reflexivity.
  - vm_compute. repeat constructor; simpl; intuition discriminate.
Defined.

(** ** The unit test *)

(** X23 -- the unit test of the run.  The assertion of
    [test_process_test_data] (test.py, line 52) holds exactly when the
    run returns and there is at least one test point. *)
Theorem unit_test_passes_iff (tests : TestData) (db : Database) :
  test_process_test_data tests db = inr true <->
  (exists results, compute_results tests db = inr results) /\ tests <> [].
Proof.
  unfold test_process_test_data, process_test_data.
  destruct (compute_results tests db) as [e|results] eqn:Hres; simpl.
  - split; [discriminate|]. intros [(results & H) _]. discriminate.
  - unfold compute_results in Hres. inv_bind Hres. inv_bind Hres.
    apply for_each_length in Hres.
    split.
    + intros H. split; [eauto|]. intros ->.
      destruct results; [discriminate H|discriminate Hres].
    + intros [_ Hne]. destruct results as [|r results]; [|reflexivity].
      destruct tests; [congruence|discriminate Hres].
Qed.

(** ** A candidate that is the training column *)

Lemma sub_diag (c : float) : is_finite c = true -> c - c = 0.
Proof.
  intros Hc. apply FloatRound.is_finite_fin in Hc.
  apply Prim2SF_inj. rewrite sub_spec.
  change (Prim2SF 0) with (S754_zero false).
  destruct (Prim2SF c) as [s|s| |s m e]; simpl in Hc; try contradiction.
  - destruct s; reflexivity.
  - unfold SF64sub, SFsub. rewrite Z.min_id.
    destruct (FloatRound.shl_align_spec m e e) as (mz & ez & -> & _ & _).
    simpl. rewrite Z.sub_diag. reflexivity.
Qed.

Lemma fold_add_zeros (l : list float) :
  (forall s, In s l -> s = 0) -> fold_left add l 0 = 0.
Proof.
  induction l as [|s l IH]; intros H; [reflexivity|].
  simpl. rewrite (H s (or_introl eq_refl)).
  change (0 + 0) with 0. apply IH. intros s' Hs'. apply H. right. exact Hs'.
Qed.

Lemma in_combine_diag {A} (l : list A) p :
  In p (combine l l) -> fst p = snd p.
Proof.
  induction l as [|a l IH]; simpl; [contradiction|].
  intros [<-|H]; [reflexivity | apply IH, H].
Qed.

(** The mean squared error of a column against itself is zero. *)
Lemma mean_squared_error_diag signal mse :
  mean_squared_error signal signal = inr mse ->
  (Z.of_nat (List.length signal) < 2 ^ 63)%Z ->
  mse = 0.
Proof.
  unfold mean_squared_error. rewrite Nat.eqb_refl. cbn [negb].
  destruct (List.length signal =? 0)%nat eqn:Hn; [discriminate|].
  destruct (forallb is_finite signal) eqn:Hf; [|discriminate].
  cbn [andb negb]. intros [= <-] Hlen.
  rewrite forallb_forall in Hf. apply Nat.eqb_neq in Hn.
  rewrite fold_add_zeros.
  - destruct (of_nat_finite (List.length signal) ltac:(lia) Hlen)
      as (m & e & Hd).
    apply Prim2SF_inj. rewrite div_spec, Hd. reflexivity.
  - intros s Hs. apply in_map_iff in Hs. destruct Hs as (p & <- & Hp).
    pose proof (in_combine_diag _ _ Hp) as E.
    rewrite <- E, sub_diag; [reflexivity|].
    apply Hf. eapply in_combine_l. rewrite (surjective_pairing p) in Hp.
    exact Hp.
Qed.

(** A number from zero that is not above zero is zero. *)
Lemma leb_zero_antisym (v : float) :
  (0 <=? v) = true -> (0 <? v) = false ->
  FloatValue.SFsigned false (Prim2SF v) -> v = 0.
Proof.
  rewrite leb_spec, ltb_spec. intros Hle Hlt Hs.
  apply Prim2SF_inj. change (Prim2SF 0) with (S754_zero false) in *.
  destruct (Prim2SF v) as [s|s| |s m e]; simpl in Hs; subst;
    try reflexivity; try contradiction; discriminate.
Qed.

Lemma mean_squared_error_signed y_true y_pred mse :
  mean_squared_error y_true y_pred = inr mse ->
  (Z.of_nat (List.length y_true) < 2 ^ 63)%Z ->
  FloatValue.SFsigned false (Prim2SF mse).
Proof.
  unfold mean_squared_error. intros H Hlen.
  destruct (List.length y_true =? List.length y_pred)%nat; [|discriminate].
  destruct (List.length y_true =? 0)%nat eqn:Hn; [discriminate|].
  destruct (forallb is_finite y_true && forallb is_finite y_pred) eqn:Hf;
    [|discriminate].
  simpl in H. injection H as <-.
  apply andb_prop in Hf. destruct Hf as [Ht Hp].
  rewrite forallb_forall in Ht, Hp. apply Nat.eqb_neq in Hn.
  destruct (of_nat_finite (List.length y_true) ltac:(lia) Hlen)
    as (m & e & Hd).
  rewrite div_spec, Hd.
  apply SF64div_signed. apply fold_add_signed.
  - intros s Hs. apply in_map_iff in Hs. destruct Hs as ([a b] & <- & Hab).
    simpl. rewrite mul_spec, sub_spec.
    apply FloatRound.SF64mul_square, FloatRound.SF64sub_number;
      apply FloatRound.is_finite_fin.
    + apply Ht. eapply in_combine_l; eassumption.
    + apply Hp. eapply in_combine_r; eassumption.
  - reflexivity.
Qed.

(** X20 -- a candidate that is the training column.  When some candidate
    column holds exactly the values of the training column [y(k+1)]
    (fewer than [2 ^ 63] rows), a candidate is recorded for it and the
    recorded error is zero. *)
Theorem exact_candidate_has_zero_error
    (training_data : Table) (ideal_functions_df : Frame)
    (funcs : list (option string)) (k : nat) (c : string)
    (signal : Series) :
  best_ideal_funcs training_data ideal_functions_df = inr funcs ->
  (k < 4)%nat ->
  getitem training_data (fstring_y (k + 1)) = inr signal ->
  In c (columns_of (columns ideal_functions_df)) ->
  getitem (columns ideal_functions_df) c = inr signal ->
  (Z.of_nat (List.length signal) < 2 ^ 63)%Z ->
  exists best,
    nth_error funcs k = Some (Some best) /\
    mse_of training_data ideal_functions_df (fstring_y (k + 1)) best
      = inr 0.
Proof.
  intros Hfuncs Hk Hs Hin Hc Hlen.
  assert (Hlen4 := best_ideal_funcs_length _ _ _ Hfuncs).
  destruct (nth_error funcs k) as [b|] eqn:Hb;
    [|apply nth_error_None in Hb; lia].
  destruct (best_ideal_funcs_nth _ _ _ _ _ Hfuncs Hb) as (_ & m & Hfit).
  unfold best_fit in Hfit.
  (* the error of the exact candidate *)
  destruct (best_func_loop_lower _ _ _ _ _ _ _ _ Hfit c Hin)
    as (mc & Hmc & Hnlt).
  assert (Emc : mc = 0).
  { unfold mse_of in Hmc. rewrite Hs, Hc in Hmc. simpl in Hmc.
    eapply mean_squared_error_diag; eassumption. }
  subst mc.
  destruct (best_func_loop_first _ _ _ _ _ _ _ _ Hfit)
    as [[-> _]|(pre & best & post & _ & -> & Hbest & _)].
  - vm_compute in Hnlt. discriminate Hnlt.
  - exists best. split; [reflexivity|].
    rewrite Hbest. f_equal.
    unfold mse_of in Hbest. rewrite Hs in Hbest. simpl in Hbest.
    inv_bind Hbest.
    apply leb_zero_antisym; [|exact Hnlt|].
    + eapply mean_squared_error_nonneg; eassumption.
    + eapply mean_squared_error_signed; eassumption.
Qed.

Lemma exact_candidate_has_zero_error_witness :
  exists best,
    nth_error [Some "y2"; Some "y2"; Some "y2"; Some "y2"]%string 0
      = Some (Some best) /\
    mse_of (Examples.training [0; 2; 4; 6]) Examples.frame
      (fstring_y (0 + 1)) best = inr 0.
Proof.
  apply (exact_candidate_has_zero_error (Examples.training [0; 2; 4; 6])
           Examples.frame [Some "y2"; Some "y2"; Some "y2"; Some "y2"]%string
           0 "y2"%string [0; 2; 4; 6]).
  - vm_compute. reflexivity.
  - lia.
  - reflexivity.
  - right. left. reflexivity.
  - reflexivity.
  - vm_compute. reflexivity.
Defined.

(** ** The signals are selected one by one *)

Lemma best_func_loop_training training_data training_data' frame
    training_col cols :
  getitem training_data training_col = getitem training_data' training_col ->
  forall min_mse best_func,
    best_func_loop training_data frame training_col cols min_mse best_func
    = best_func_loop training_data' frame training_col cols min_mse
        best_func.
Proof.
  intros E. induction cols as [|col cols IH]; intros m b; [reflexivity|].
  simpl. rewrite <- E.
  destruct (getitem training_data training_col); simpl; [reflexivity|].
  destruct (getitem (columns frame) col); simpl; [reflexivity|].
  destruct (mean_squared_error s s0); simpl; [reflexivity|].
  destruct (f <? m); apply IH.
Qed.

(** X21 -- one signal at a time.  The candidate recorded for the
    training column [y(k+1)] depends on that column and on the candidate
    table only: two training tables with the same column [y(k+1)] get the
    same candidate for it, whatever their other columns hold. *)
Theorem selection_per_signal
    (training_data training_data' : Table) (ideal_functions_df : Frame)
    (funcs funcs' : list (option string)) (k : nat) :
  best_ideal_funcs training_data ideal_functions_df = inr funcs ->
  best_ideal_funcs training_data' ideal_functions_df = inr funcs' ->
  getitem training_data (fstring_y (k + 1))
    = getitem training_data' (fstring_y (k + 1)) ->
  nth_error funcs k = nth_error funcs' k.
Proof.
  intros Hf Hf' E.
  destruct (nth_error funcs k) as [b|] eqn:Hb.
  - destruct (best_ideal_funcs_nth _ _ _ _ _ Hf Hb) as (Hk & m & Hfit).
    destruct (nth_error funcs' k) as [b'|] eqn:Hb'.
    + destruct (best_ideal_funcs_nth _ _ _ _ _ Hf' Hb') as (_ & m' & Hfit').
      unfold best_fit in *.
      rewrite (best_func_loop_training _ _ _ _ _ E) in Hfit.
      congruence.
    + apply nth_error_None in Hb'.
      rewrite (best_ideal_funcs_length _ _ _ Hf') in Hb'. lia.
  - apply nth_error_None in Hb.
    rewrite (best_ideal_funcs_length _ _ _ Hf) in Hb.
    symmetry. apply nth_error_None.
    rewrite (best_ideal_funcs_length _ _ _ Hf'). exact Hb.
Qed.

Lemma selection_per_signal_witness :
  nth_error Examples.funcs 0
  = nth_error [Some "y1"; Some "y2"; Some "y2"; Some "y2"]%string 0.
Proof.
  apply (selection_per_signal (Examples.training [0; 1; 2; 4])
           (Examples.training_with [0; 1; 2; 4] [0; 2; 4; 6])
           Examples.frame).
  - vm_compute. reflexivity.
  - vm_compute. reflexivity.
  - reflexivity.
Defined.

(** ** What the run reads of the training table *)

Lemma max_allowed_deviation_training training_data training_data' frame
    idx ideal_func :
  getitem training_data (fstring_y (idx + 1))
    = getitem training_data' (fstring_y (idx + 1)) ->
  max_allowed_deviation training_data frame idx ideal_func
  = max_allowed_deviation training_data' frame idx ideal_func.
Proof.
  intros E. unfold max_allowed_deviation, max_abs_deviation.
  rewrite E. reflexivity.
Qed.

Lemma fit_loop_training training_data training_data' frame x_val y_val
    funcs : forall idx best_fit min_deviation,
  (forall j, (idx <= j < idx + List.length funcs)%nat ->
     getitem training_data (fstring_y (j + 1))
       = getitem training_data' (fstring_y (j + 1))) ->
  fit_loop training_data frame x_val y_val idx funcs best_fit min_deviation
  = fit_loop training_data' frame x_val y_val idx funcs best_fit
      min_deviation.
Proof.
  induction funcs as [|f funcs IH]; intros idx b m H; [reflexivity|].
  cbn [fit_loop].
  rewrite (max_allowed_deviation_training training_data training_data')
    by (apply H; simpl; lia).
  destruct (deviation_of frame x_val y_val f) as [e|d]; [reflexivity|].
  cbn [bind].
  destruct (max_allowed_deviation training_data' frame idx f) as [e|t];
    [reflexivity|].
  cbn [bind].
  assert (Hrest : forall j, (S idx <= j < S idx + List.length funcs)%nat ->
            getitem training_data (fstring_y (j + 1))
              = getitem training_data' (fstring_y (j + 1)))
    by (intros j Hj; apply H; simpl; lia).
  destruct d as [d|ds]; [|reflexivity].
  destruct ((d <=? t) && (d <? m)); apply IH; exact Hrest.
Qed.

(** X24 -- what the run reads of the training table.  The run reads the
    columns [y1], ..., [y4] of the training table and nothing else: with
    another training table that has the same four columns (other [x]
    values, other columns) it returns the same records or raises the
    same exception. *)
Theorem run_reads_training_signals_only
    (tests : TestData) (db : Database) (training_data' : Table) :
  (forall i, (1 <= i <= 4)%nat ->
     getitem (training_data db) (fstring_y i)
       = getitem training_data' (fstring_y i)) ->
  compute_results tests
    (mkDatabase training_data' (ideal_functions db) (test_data db))
  = compute_results tests db.
Proof.
  intros H. unfold compute_results. cbn [ideal_functions training_data].
  destruct (set_index "x" (ideal_functions db)) as [e|F]; [reflexivity|].
  cbn [bind].
  assert (Hsel : best_ideal_funcs training_data' F
                 = best_ideal_funcs (training_data db) F).
  { unfold best_ideal_funcs. apply for_each_ext. intros i Hi.
    apply in_seq in Hi. unfold best_fit.
    rewrite (best_func_loop_training training_data' (training_data db));
      [reflexivity|].
    symmetry. apply H. lia. }
  rewrite Hsel.
  destruct (best_ideal_funcs (training_data db) F) as [e|funcs] eqn:Hfuncs;
    [reflexivity|].
  cbn [bind]. apply for_each_ext. intros row _.
  unfold classify_row.
  rewrite (fit_loop_training training_data' (training_data db));
    [reflexivity|].
  intros j Hj. rewrite (best_ideal_funcs_length _ _ _ Hfuncs) in Hj.
  symmetry. apply H. lia.
Qed.

(** The training table of the scenario with other [x] values. *)
Lemma run_reads_training_signals_only_witness :
  compute_results [(1, 1.5)]
    (mkDatabase
       [("x", [7; 7; 7; 7]); ("y1", [0; 1; 2; 4]); ("y2", [0; 1; 2; 4]);
        ("y3", [0; 1; 2; 4]); ("y4", [0; 1; 2; 4])]%string
       (ideal_functions (Examples.db [0; 1; 2; 4]))
       (test_data (Examples.db [0; 1; 2; 4])))
  = compute_results [(1, 1.5)] (Examples.db [0; 1; 2; 4]).
Proof.
  apply (run_reads_training_signals_only [(1, 1.5)]
           (Examples.db [0; 1; 2; 4])
           [("x", [7; 7; 7; 7]); ("y1", [0; 1; 2; 4]); ("y2", [0; 1; 2; 4]);
            ("y3", [0; 1; 2; 4]); ("y4", [0; 1; 2; 4])]%string).
  intros i Hi.
  destruct i as [|[|[|[|[|i]]]]]; try lia; reflexivity.
Defined.
